(** * schema_compare.py: a shallow embedding of the schema differ

    The script parses two XML workspace exports with lxml, normalises every
    category (domains, feature datasets, feature classes, tables,
    relationship classes, topologies, attribute rules) into Python dicts and
    lists, diffs them, and writes an openpyxl workbook when something
    differs.

    The embedding keeps Python's dynamic values ([pyval]), its exceptions
    (the [result] monad), the insertion order of dicts (association lists
    with replace-in-place assignment) and the function-level local variables
    that survive loop iterations (threaded through the folds as records of
    possibly-unbound locals). *)

From Stdlib Require Import String Ascii List Bool Arith Lia Permutation Sorted.
Import ListNotations.
Open Scope string_scope.
Open Scope list_scope.

Set Implicit Arguments.

(** String concatenation, kept apart from list append. *)
Infix "+++" := String.append (right associativity, at level 60).

(* ================================================================== *)
(** ** Exceptions and the error monad *)

Inductive exn : Type :=
| KeyError
| IndexError
| ValueError
| TypeError
| AttributeError
| UnboundLocalError (var : string)
| IllegalCharacterError.

Inductive result (A : Type) : Type :=
| Ok (a : A)
| Raise (e : exn).

Arguments Ok {A} a.
Arguments Raise {A} e.

Definition bind {A B} (m : result A) (k : A -> result B) : result B :=
  match m with
  | Ok a => k a
  | Raise e => Raise e
  end.

Declare Scope py_scope.
Delimit Scope py_scope with py.
Notation "x <- m ;; k" := (bind m (fun x => k))
  (at level 61, m at next level, right associativity) : py_scope.
Notation "' pat <- m ;; k" := (bind m (fun x => match x with pat => k end))
  (at level 61, pat pattern, m at next level, right associativity) : py_scope.
Open Scope py_scope.

(** A [for] loop whose body may raise: the accumulator is the loop's view of
    the enclosing function's variables. *)
Fixpoint foldM {A S} (body : S -> A -> result S) (l : list A) (s : S)
  : result S :=
  match l with
  | [] => Ok s
  | x :: l' => s' <- body s x ;; foldM body l' s'
  end.

(** Reading a local variable that may not have been assigned yet. *)
Definition local {A} (var : string) (v : option A) : result A :=
  match v with
  | Some a => Ok a
  | None => Raise (UnboundLocalError var)
  end.

Definition is_ok {A} (m : result A) : bool :=
  match m with Ok _ => true | Raise _ => false end.

(* ================================================================== *)
(** ** Python values *)

(** [elem.text] in lxml: [None] or a [str]. Dict keys of the normalised
    records are always such texts (tag names, or texts read from the
    document). A [str] is a sequence of characters; a character of the
    model is a code point below 256 (the Latin-1 range), one [ascii] each,
    so that comparing two strings element by element is Python's
    code-point order. *)
Definition text := option string.

#[warnings="-register-all"]
Inductive pyval : Type :=
| PNone
| PStr (s : string)
| PList (l : list pyval)
| PTuple (l : list pyval)
| PDict (d : list (text * pyval)).

Definition of_text (t : text) : pyval :=
  match t with
  | None => PNone
  | Some s => PStr s
  end.

Definition text_eqb (a b : text) : bool :=
  match a, b with
  | None, None => true
  | Some s, Some t => String.eqb s t
  | _, _ => false
  end.

Lemma text_eqb_refl (a : text) : text_eqb a a = true.
Proof. destruct a; simpl; auto using String.eqb_refl. Qed.

Lemma text_eqb_eq (a b : text) : text_eqb a b = true <-> a = b.
Proof.
  destruct a as [s|], b as [t|]; simpl; split; intros H;
    try discriminate; try reflexivity.
  - apply String.eqb_eq in H. now subst.
  - injection H as ->. apply String.eqb_refl.
Qed.

Section Assoc.
Variable V : Type.

(** [d[k]] on the association list of a dict. *)
Fixpoint lookup (k : text) (d : list (text * V)) : option V :=
  match d with
  | [] => None
  | (k', v) :: d' => if text_eqb k k' then Some v else lookup k d'
  end.

(** [d[k] = v]: an existing key keeps its position, a new key goes last. *)
Fixpoint assign (k : text) (v : V) (d : list (text * V))
  : list (text * V) :=
  match d with
  | [] => [(k, v)]
  | (k', v') :: d' =>
      if text_eqb k k' then (k', v) :: d' else (k', v') :: assign k v d'
  end.

(** [d.__delitem__(k)] *)
Fixpoint delitem (k : text) (d : list (text * V))
  : result (list (text * V)) :=
  match d with
  | [] => Raise KeyError
  | (k', v') :: d' =>
      if text_eqb k k' then Ok d'
      else d'' <- delitem k d' ;; Ok ((k', v') :: d'')
  end.

Definition keys (d : list (text * V)) : list text := map fst d.

Definition mem_key (k : text) (d : list (text * V)) : bool :=
  existsb (text_eqb k) (keys d).
End Assoc.

(** Python's [==] on the values the script builds: lists and tuples
    pointwise, dicts independent of insertion order. *)
Fixpoint py_eqb (a b : pyval) {struct a} : bool :=
  let fix seq_eqb (l m : list pyval) {struct l} : bool :=
    match l, m with
    | [], [] => true
    | x :: l', y :: m' => py_eqb x y && seq_eqb l' m'
    | _, _ => false
    end in
  match a, b with
  | PNone, PNone => true
  | PStr s, PStr t => String.eqb s t
  | PList l, PList m => seq_eqb l m
  | PTuple l, PTuple m => seq_eqb l m
  | PDict d, PDict e =>
      let fix items_in (d : list (text * pyval)) {struct d} : bool :=
        match d with
        | [] => true
        | (k, v) :: d' =>
            match lookup k e with
            | Some w => py_eqb v w
            | None => false
            end && items_in d'
        end in
      Nat.eqb (List.length d) (List.length e) && items_in d
  | _, _ => false
  end.

Definition seq_eqb : list pyval -> list pyval -> bool :=
  fix seq_eqb (l m : list pyval) {struct l} : bool :=
    match l, m with
    | [], [] => true
    | x :: l', y :: m' => py_eqb x y && seq_eqb l' m'
    | _, _ => false
    end.

Definition items_in (e : list (text * pyval))
  : list (text * pyval) -> bool :=
  fix items_in (d : list (text * pyval)) {struct d} : bool :=
    match d with
    | [] => true
    | (k, v) :: d' =>
        match lookup k e with
        | Some w => py_eqb v w
        | None => false
        end && items_in d'
    end.

Definition dict_eqb (d e : list (text * pyval)) : bool :=
  Nat.eqb (List.length d) (List.length e) && items_in e d.

Lemma py_eqb_list l m : py_eqb (PList l) (PList m) = seq_eqb l m.
Proof. reflexivity. Qed.

Lemma py_eqb_tuple l m : py_eqb (PTuple l) (PTuple m) = seq_eqb l m.
Proof. reflexivity. Qed.

Lemma py_eqb_dict d e : py_eqb (PDict d) (PDict e) = dict_eqb d e.
Proof. reflexivity. Qed.

(** [x in l] and [x not in l] *)
Definition py_in (x : pyval) (l : list pyval) : bool :=
  existsb (py_eqb x) l.

(** [l.remove(x)]: drops the first element equal to [x]. *)
Fixpoint list_remove (x : pyval) (l : list pyval) : result (list pyval) :=
  match l with
  | [] => Raise ValueError
  | y :: l' =>
      if py_eqb y x then Ok l'
      else l'' <- list_remove x l' ;; Ok (y :: l'')
  end.

(** [v[k]] *)
Definition getitem (v : pyval) (k : text) : result pyval :=
  match v with
  | PDict d =>
      match lookup k d with
      | Some w => Ok w
      | None => Raise KeyError
      end
  | _ => Raise TypeError
  end.

(** [v.items()], [v.keys()], [v.values()] *)
Definition items (v : pyval) : result (list (text * pyval)) :=
  match v with
  | PDict d => Ok d
  | _ => Raise AttributeError
  end.

(** [list(v)] for the sequences the script iterates over; iterating a [str]
    yields its characters. *)
Fixpoint chars (s : string) : list pyval :=
  match s with
  | EmptyString => []
  | String c s' => PStr (String c EmptyString) :: chars s'
  end.

Definition py_iter (v : pyval) : result (list pyval) :=
  match v with
  | PList l => Ok l
  | PTuple l => Ok l
  | PStr s => Ok (chars s)
  | PDict d => Ok (map (fun kv => of_text (fst kv)) d)
  | PNone => Raise TypeError
  end.

(** [v.append(x)]: only lists have it. *)
Definition append (v x : pyval) : result pyval :=
  match v with
  | PList l => Ok (PList (l ++ [x]))
  | _ => Raise AttributeError
  end.

(** Truthiness of the values tested by the script. *)
Definition truthy (v : pyval) : bool :=
  match v with
  | PNone => false
  | PStr s => negb (String.eqb s "")
  | PList l | PTuple l => negb (Nat.eqb (List.length l) 0)
  | PDict d => negb (Nat.eqb (List.length d) 0)
  end.

(* ================================================================== *)
(** ** Strings: [lower], [replace], [split], [strip], [repr], [str] *)

Definition dquote : ascii := ascii_of_nat 34.
Definition squote : ascii := ascii_of_nat 39.
Definition backslash : ascii := ascii_of_nat 92.

(** [c.lower()] of one character: the capital letters below 256 are
    [A] to [Z] and U+00C0 to U+00DE without the multiplication sign
    U+00D7; each has its small letter 32 places on. *)
Definition lower_char (c : ascii) : ascii :=
  let n := nat_of_ascii c in
  if (((65 <=? n) && (n <=? 90))
      || ((192 <=? n) && (n <=? 222) && negb (n =? 215)))%nat
  then ascii_of_nat (n + 32) else c.

Fixpoint lower (s : string) : string :=
  match s with
  | EmptyString => EmptyString
  | String c s' => String (lower_char c) (lower s')
  end.

(** [s.replace(c, "")] for a one-character [c]. *)
Fixpoint remove_char (c : ascii) (s : string) : string :=
  match s with
  | EmptyString => EmptyString
  | String a s' =>
      if Ascii.eqb a c then remove_char c s' else String a (remove_char c s')
  end.

(** [s.split(c)] for a one-character separator: never empty. *)
Fixpoint split_char (c : ascii) (s : string) : list string :=
  match s with
  | EmptyString => [EmptyString]
  | String a s' =>
      match split_char c s' with
      | [] => [EmptyString]
      | w :: ws =>
          if Ascii.eqb a c then EmptyString :: w :: ws
          else String a w :: ws
      end
  end.

(** [c.isspace()]: what [strip] removes. Below 256 these are U+0009 to
    U+000D, U+001C to U+0020, U+0085 and U+00A0. *)
Definition is_space (c : ascii) : bool :=
  let n := nat_of_ascii c in
  (((9 <=? n) && (n <=? 13)) || ((28 <=? n) && (n <=? 32))
   || (n =? 133) || (n =? 160))%nat.

Fixpoint lstrip (s : string) : string :=
  match s with
  | EmptyString => EmptyString
  | String c s' => if is_space c then lstrip s' else s
  end.

Fixpoint rstrip (s : string) : string :=
  match s with
  | EmptyString => EmptyString
  | String c s' =>
      match rstrip s' with
      | EmptyString => if is_space c then EmptyString else String c EmptyString
      | r => String c r
      end
  end.

Definition strip (s : string) : string := rstrip (lstrip s).

Fixpoint has_char (c : ascii) (s : string) : bool :=
  match s with
  | EmptyString => false
  | String a s' => Ascii.eqb a c || has_char c s'
  end.

Definition hex_digit (n : nat) : ascii :=
  if (n <? 10)%nat then ascii_of_nat (48 + n) else ascii_of_nat (87 + n).

(** [c.isprintable()] fails below 256 for the control characters U+0000
    to U+001F and U+007F to U+009F, the no-break space U+00A0 and the soft
    hyphen U+00AD. *)
Definition unprintable (c : ascii) : bool :=
  let n := nat_of_ascii c in
  ((n <? 32) || ((127 <=? n) && (n <=? 160)) || (n =? 173))%nat.

(** [repr] of a [str]: single quotes unless the string has a single quote
    and no double quote; backslash and the chosen quote are escaped, tab,
    line feed and carriage return are written [\t], [\n] and [\r], and
    every other character that is not printable is written [\xhh]. *)
Fixpoint escape (q : ascii) (s : string) : string :=
  match s with
  | EmptyString => EmptyString
  | String c s' =>
      let n := nat_of_ascii c in
      let rest := escape q s' in
      if Ascii.eqb c backslash || Ascii.eqb c q then
        String backslash (String c rest)
      else if (n =? 9)%nat then String backslash (String "t" rest)
      else if (n =? 10)%nat then String backslash (String "n" rest)
      else if (n =? 13)%nat then String backslash (String "r" rest)
      else if unprintable c then
        String backslash
          (String "x" (String (hex_digit (n / 16))
                         (String (hex_digit (n mod 16)) rest)))
      else String c rest
  end.

Definition repr_str (s : string) : string :=
  let q := if has_char squote s && negb (has_char dquote s)
           then dquote else squote in
  String q (escape q s +++ String q EmptyString).

Definition repr_text (t : text) : string :=
  match t with
  | None => "None"
  | Some s => repr_str s
  end.

Fixpoint py_repr (v : pyval) : string :=
  match v with
  | PNone => "None"
  | PStr s => repr_str s
  | PList l => "[" +++ String.concat ", " (map py_repr l) +++ "]"
  | PTuple l =>
      match l with
      | [x] => "(" +++ py_repr x +++ ",)"
      | _ => "(" +++ String.concat ", " (map py_repr l) +++ ")"
      end
  | PDict d =>
      "{" +++ String.concat ", "
               (map (fun kv => match kv with
                               | (k, w) => repr_text k +++ ": " +++ py_repr w
                               end) d)
          +++ "}"
  end.

(** [str(v)], also what ["{}".format(v)] inserts. *)
Definition py_str (v : pyval) : string :=
  match v with
  | PStr s => s
  | _ => py_repr v
  end.

Definition str_text (t : text) : string := py_str (of_text t).

(* ================================================================== *)
(** ** Ordering and [sort] *)

(** Python's [<]: defined between two [str], and lexicographically between
    two sequences; anything else raises. *)
Fixpoint py_lt (a b : pyval) {struct a} : result bool :=
  let fix seq_lt (l m : list pyval) {struct l} : result bool :=
    match l, m with
    | [], [] => Ok false
    | [], _ :: _ => Ok true
    | _ :: _, [] => Ok false
    | x :: l', y :: m' => if py_eqb x y then seq_lt l' m' else py_lt x y
    end in
  match a, b with
  | PStr s, PStr t => Ok (String.ltb s t)
  | PList l, PList m => seq_lt l m
  | PTuple l, PTuple m => seq_lt l m
  | _, _ => Raise TypeError
  end.

Section Sort.
Variable A : Type.

(** The element goes before the first one it is smaller than, so equal
    keys keep their order. *)
Fixpoint insert_by (x : pyval * A) (l : list (pyval * A))
  : result (list (pyval * A)) :=
  match l with
  | [] => Ok [x]
  | y :: l' =>
      b <- py_lt (fst x) (fst y) ;;
      if b then Ok (x :: y :: l')
      else r <- insert_by x l' ;; Ok (y :: r)
  end.

(** [sorted(l, key=keyf)] and [l.sort(key=keyf)]. CPython computes every
    key first, then sorts stably with [<] alone. On keys that are all
    comparable the result is the unique stable order, which this
    insertion sort computes. For atomic keys, two or more elements of
    which one is not a [str] always raise, here as in CPython; for tuple
    keys which pairs get compared is a detail of timsort, and the model
    raises on the pairs an insertion sort meets. *)
Definition sort_by (keyf : A -> result pyval) (l : list A)
  : result (list A) :=
  ks <- foldM (fun acc a => k <- keyf a ;; Ok (acc ++ [(k, a)])) l [] ;;
  sorted <- foldM (fun acc x => insert_by x acc) ks [] ;;
  Ok (map snd sorted).
End Sort.

(** [operator.itemgetter(k)] *)
Definition itemgetter (k : string) (v : pyval) : result pyval :=
  getitem v (Some k).

(** [dict(sorted(d.items()))] *)
Definition sorted_items (d : list (text * pyval))
  : result (list (text * pyval)) :=
  sort_by (fun kv => Ok (PTuple [of_text (fst kv); snd kv])) d.

(* ================================================================== *)
(** ** The lxml element tree *)

#[warnings="-register-all"]
Inductive element : Type :=
| Element (tag : string) (attrib : list (string * string)) (txt : text)
          (children : list element).

Definition tag (e : element) : string :=
  match e with Element t _ _ _ => t end.
Definition attrib (e : element) : list (string * string) :=
  match e with Element _ a _ _ => a end.
Definition txt (e : element) : text :=
  match e with Element _ _ x _ => x end.
(** [e.getchildren()] *)
Definition getchildren (e : element) : list element :=
  match e with Element _ _ _ c => c end.

(** [e.iter()]: the element, then its descendants, in document order. *)
Fixpoint iter (e : element) : list element :=
  match e with
  | Element _ _ _ c => e :: flat_map iter c
  end.

(** [e.iter(t)] *)
Definition iter_tag (t : string) (e : element) : list element :=
  filter (fun x => String.eqb (tag x) t) (iter e).

(** [e.iter()] with, for every element below [e], the tag of its parent
    ([x.getparent().tag]); [e] itself comes with the parent it was given. *)
Fixpoint iter_parent (p : option string) (e : element)
  : list (option string * element) :=
  match e with
  | Element t _ _ c => (p, e) :: flat_map (iter_parent (Some t)) c
  end.

(** [e.attrib.values()[0]] *)
Definition first_attrib (e : element) : result string :=
  match attrib e with
  | [] => Raise IndexError
  | (_, v) :: _ => Ok v
  end.

(* ================================================================== *)
(** ** Sets *)

(** The script builds [set(a) - set(b)] and turns it back into a [list] or
    a [dict]. Which elements come out is determined; their order is the
    set's iteration order, which depends on string hashes and so on the
    interpreter run. A [runtime] fixes that order: any rearrangement of the
    elements of the difference.

    The script also leaves the title of a new sheet to openpyxl:
    [wb.create_sheet(title)] may refuse the title or change it, depending
    on the titles the workbook has and on the version of the library.
    [sheet_title names title] is what the installed library makes of
    [title] in a workbook whose sheets are titled [names]; the script's
    own code does not depend on it. *)
Record runtime : Type := {
  set_iter : forall A : Type, list A -> list A -> list A -> list A;
  set_iter_perm :
    forall (A : Type) (a b d : list A), Permutation (set_iter a b d) d;
  sheet_title : list string -> string -> result string
}.

(** *** The titles openpyxl 3 gives *)

(** The characters a title must not hold: [\ * ? : / [ ]]. *)
Definition invalid_title_char (c : ascii) : bool :=
  existsb (Nat.eqb (nat_of_ascii c)) [92; 42; 63; 58; 47; 91; 93].

Definition is_digit (c : ascii) : bool :=
  let n := nat_of_ascii c in ((48 <=? n) && (n <=? 57))%nat.

(** [s] starts with [p], letters compared without their case. *)
Fixpoint prefix_ci (p s : string) : bool :=
  match p, s with
  | EmptyString, _ => true
  | String a p', String b s' =>
      Ascii.eqb (lower_char a) (lower_char b) && prefix_ci p' s'
  | String _ _, EmptyString => false
  end.

Fixpoint drop (n : nat) (s : string) : string :=
  match n, s with
  | S k, String _ s' => drop k s'
  | _, _ => s
  end.

Fixpoint leading_digits (s : string) : string :=
  match s with
  | String c s' =>
      if is_digit c then String c (leading_digits s') else EmptyString
  | EmptyString => EmptyString
  end.

(** [re.findall] of the title followed by digits and an optional comma,
    without case: the digits of every match, from left to right. [skip]
    counts the characters that belong to the match before. *)
Fixpoint title_counts (value : string) (skip : nat) (names : string)
  : list string :=
  match names with
  | EmptyString => []
  | String _ names' =>
      match skip with
      | S k => title_counts value k names'
      | O =>
          if prefix_ci value names then
            let rest := drop (String.length value) names in
            let ds := leading_digits rest in
            let comma :=
              match drop (String.length ds) rest with
              | String c _ => if (nat_of_ascii c =? 44)%nat then 1 else 0
              | EmptyString => 0
              end in
            ds :: title_counts value
                    (String.length value + String.length ds + comma - 1)
                    names'
          else title_counts value 0 names'
      end
  end.

(** [int(s)] of a string of digits. *)
Definition number (s : string) : nat :=
  fold_left (fun n c => 10 * n + (nat_of_ascii c - 48))
    (list_ascii_of_string s) 0.

Fixpoint decimal_digits (fuel n : nat) (acc : string) : string :=
  match fuel with
  | O => acc
  | S f =>
      let acc' := String (ascii_of_nat (48 + n mod 10)) acc in
      if (n <? 10)%nat then acc' else decimal_digits f (n / 10) acc'
  end.

(** [str(n)] *)
Definition decimal (n : nat) : string := decimal_digits (S n) n EmptyString.

(** [avoid_duplicate_name(names, value)]: a title some sheet already has,
    whatever the case of its letters, gets the next number. *)
Definition avoid_duplicate_name (names : list string) (value : string)
  : string :=
  if existsb (fun n => String.eqb (lower n) (lower value)) names then
    match title_counts value 0 (String.concat "," names) with
    | [] => value
    | found =>
        let counts :=
          map number
            (filter (fun ds => negb (String.eqb ds EmptyString)) found) in
        value +++ decimal (list_max counts + 1)
    end
  else value.

(** The title of a sheet created with [title]: an empty title stands for
    [Sheet], a title with an invalid character is refused, a duplicate is
    numbered. *)
Definition openpyxl_title (names : list string) (title : string)
  : result string :=
  let value := if String.eqb title EmptyString then "Sheet" else title in
  if existsb invalid_title_char (list_ascii_of_string value)
  then Raise ValueError
  else Ok (avoid_duplicate_name names value).

(** The runtime that iterates a set in insertion order and names sheets as
    openpyxl 3 does. *)
Definition insertion_order : runtime :=
  {| set_iter := fun A _ _ d => d;
     set_iter_perm := fun A _ _ d => Permutation_refl d;
     sheet_title := openpyxl_title |}.

Section SetDifference.
Variable rt : runtime.
Variable A : Type.
Variable eqb : A -> A -> bool.

Definition mem (x : A) (l : list A) : bool := existsb (eqb x) l.

(** Building a set keeps the first of equal elements. *)
Fixpoint dedup (l : list A) (seen : list A) : list A :=
  match l with
  | [] => []
  | x :: l' => if mem x seen then dedup l' seen
               else x :: dedup l' (seen ++ [x])
  end.

(** [set(a) - set(b)], in the order it is iterated. *)
Definition set_difference (a b : list A) : list A :=
  set_iter rt a b (dedup (filter (fun x => negb (mem x b)) a) []).
End SetDifference.

Definition item_eqb (x y : text * pyval) : bool :=
  text_eqb (fst x) (fst y) && py_eqb (snd x) (snd y).

(** [dict(pairs)] *)
Definition dict_of_pairs (l : list (text * pyval)) : list (text * pyval) :=
  fold_left (fun d kv => assign (fst kv) (snd kv) d) l [].

(** A value used as a dict key: [None] and [str] are what the script uses;
    lists and dicts are unhashable. *)
Definition as_key (v : pyval) : result text :=
  match v with
  | PNone => Ok None
  | PStr s => Ok (Some s)
  | _ => Raise TypeError
  end.

(** The three components every differ returns:
    [(missing list, mismatch dict, additional list)]. *)
Definition diff : Type :=
  (list pyval * list (text * pyval) * list pyval)%type.

Definition no_diff : diff := ([], [], []).

(** [(a, b, c)] *)
Definition triple (a b c : pyval) : pyval := PTuple [a; b; c].

(** [[f(x) for x in l]] and [[x for x in l if p(x)]] with bodies that may
    raise. *)
Definition mapM {A B} (f : A -> result B) (l : list A) : result (list B) :=
  foldM (fun acc x => y <- f x ;; Ok (acc ++ [y])) l [].

Definition filterM {A} (p : A -> result bool) (l : list A)
  : result (list A) :=
  foldM (fun acc x => b <- p x ;; Ok (if b then acc ++ [x] else acc)) l [].

(** [l[0]] *)
Definition first {A} (l : list A) : result A :=
  match l with
  | [] => Raise IndexError
  | x :: _ => Ok x
  end.

(** [d[k] = v] with a computed key *)
Definition setitem (d : list (text * pyval)) (k v : pyval)
  : result (list (text * pyval)) :=
  k' <- as_key k ;; Ok (assign k' v d).

(** The accumulation idiom of the differs:
    [if k in d.keys(): d[k].append(t) else: d[k] = [t]]. *)
Definition append_or_create (d : list (text * pyval)) (k t : pyval)
  : result (list (text * pyval)) :=
  k' <- as_key k ;;
  match lookup k' d with
  | Some v => v' <- append v t ;; Ok (assign k' v' d)
  | None => Ok (assign k' (PList [t]) d)
  end.

(** The same idiom where the [else] branch stores the bare tuple:
    [if k in d.keys(): d[k].append(t) else: d[k] = t]. *)
Definition append_or_store (d : list (text * pyval)) (k t : pyval)
  : result (list (text * pyval)) :=
  k' <- as_key k ;;
  match lookup k' d with
  | Some v => v' <- append v t ;; Ok (assign k' v' d)
  | None => Ok (assign k' t d)
  end.

(** The part shared by the differs of list-shaped categories: the entries
    of test that equal no entry of base, the entries missing from test and
    additional in test by name, and the mismatch candidates left once the
    additional ones are removed. *)
Definition split_by_name (key : string) (base test : list pyval)
  : result (list pyval * list pyval * list pyval) :=
  let diff_test := filter (fun i => negb (py_in i base)) test in
  names_test <- mapM (itemgetter key) test ;;
  names_base <- mapM (itemgetter key) base ;;
  miss <- filterM (fun i => n <- getitem i (Some key) ;;
                            Ok (negb (py_in n names_test))) base ;;
  add <- filterM (fun i => n <- getitem i (Some key) ;;
                           Ok (negb (py_in n names_base))) test ;;
  diff_test <- foldM (fun l x => list_remove x l) add diff_test ;;
  Ok (miss, diff_test, add).

(** [[d for d in base if d[key] == name][0]] *)
Definition base_entry (key : string) (base : list pyval) (name : pyval)
  : result pyval :=
  same <- filterM (fun d => n <- getitem d (Some key) ;; Ok (py_eqb n name))
            base ;;
  first same.

(* ================================================================== *)
(** ** Domains *)

(** Locals of [get_domain_properties] that are read after the iteration
    that assigned them. *)
Record domain_locals : Type := {
  dl_domain_dict : list (text * pyval);
  dl_cv_dict : list (text * pyval);
  dl_name : option text;
  dl_max_value : option text
}.

Definition coded_value_step (st : domain_locals) (cv_prop : element)
  : result domain_locals :=
  if String.eqb (tag cv_prop) "Name" then
    Ok {| dl_domain_dict := dl_domain_dict st; dl_cv_dict := dl_cv_dict st;
          dl_name := Some (txt cv_prop); dl_max_value := dl_max_value st |}
  else if String.eqb (tag cv_prop) "Code" then
    name <- local "name" (dl_name st) ;;
    Ok {| dl_domain_dict := dl_domain_dict st;
          dl_cv_dict := assign name (of_text (txt cv_prop)) (dl_cv_dict st);
          dl_name := dl_name st; dl_max_value := dl_max_value st |}
  else Ok st.

Definition domain_prop_step (st : domain_locals) (domain_prop : element)
  : result domain_locals :=
  let t := tag domain_prop in
  if existsb (String.eqb t)
       ["DomainName"; "FieldType"; "MergePolicy"; "SplitPolicy"] then
    Ok {| dl_domain_dict :=
            assign (Some t) (of_text (txt domain_prop)) (dl_domain_dict st);
          dl_cv_dict := dl_cv_dict st;
          dl_name := dl_name st; dl_max_value := dl_max_value st |}
  else if String.eqb t "CodedValues" then
    st1 <- foldM (fun s cv => foldM coded_value_step (iter cv) s)
             (getchildren domain_prop) st ;;
    sorted_cv_dict <- sorted_items (dl_cv_dict st1) ;;
    Ok {| dl_domain_dict :=
            assign (Some "CodedValues")
              (PDict (dict_of_pairs sorted_cv_dict)) (dl_domain_dict st1);
          dl_cv_dict := dl_cv_dict st1;
          dl_name := dl_name st1; dl_max_value := dl_max_value st1 |}
  else if String.eqb t "MaxValue" then
    Ok {| dl_domain_dict := dl_domain_dict st; dl_cv_dict := dl_cv_dict st;
          dl_name := dl_name st; dl_max_value := Some (txt domain_prop) |}
  else if String.eqb t "MinValue" then
    let min_value := txt domain_prop in
    max_value <- local "max_value" (dl_max_value st) ;;
    Ok {| dl_domain_dict :=
            assign (Some "Range")
              (PStr (str_text min_value +++ " - " +++ str_text max_value))
              (dl_domain_dict st);
          dl_cv_dict := dl_cv_dict st;
          dl_name := dl_name st; dl_max_value := dl_max_value st |}
  else Ok st.

(** One [Domain] element: the loop state is [domain_list] with the locals
    that outlive the element. *)
Definition domain_elem_step
  (acc : list pyval * option text * option text) (elem : element)
  : result (list pyval * option text * option text) :=
  let '(domain_list, name, max_value) := acc in
  st <- foldM domain_prop_step (iter elem)
          {| dl_domain_dict := []; dl_cv_dict := [];
             dl_name := name; dl_max_value := max_value |} ;;
  Ok (domain_list ++ [PDict (dl_domain_dict st)],
      dl_name st, dl_max_value st).

(** [domain_list] is assigned only inside the loop over the [Domains]
    containers, afresh for each of them. *)
Definition domains_node_step
  (acc : option (list pyval) * option text * option text) (node : element)
  : result (option (list pyval) * option text * option text) :=
  let '(_, name, max_value) := acc in
  '(domain_list, name', max_value') <-
    foldM domain_elem_step (iter_tag "Domain" node) ([], name, max_value) ;;
  Ok (Some domain_list, name', max_value').

Definition get_domain_properties (tree : element) : result (list pyval) :=
  '(domain_list, _, _) <-
    foldM domains_node_step (iter_tag "Domains" tree) (None, None, None) ;;
  domain_list <- local "domain_list" domain_list ;;
  sort_by (itemgetter "DomainName") domain_list.

(** [swap_key_value(d)] *)
Definition swap_key_value (d : pyval) : result pyval :=
  its <- items d ;;
  d_swap <- foldM (fun acc kv => k <- as_key (snd kv) ;;
                                 Ok (assign k (of_text (fst kv)) acc))
              its [] ;;
  Ok (PDict d_swap).

Section Domains.
Variable rt : runtime.

(** [dict(set(a.items()) - set(b.items())) if bool(...) else ""] *)
Definition items_difference (a b : pyval) : result pyval :=
  ia <- items a ;;
  ib <- items b ;;
  let d := dict_of_pairs (set_difference rt item_eqb ia ib) in
  Ok (if truthy (PDict d) then PDict d else PStr "").

(** The body of the loop over a mismatching domain's items. The state is
    [domain_diff] and the local [adj]. *)
Definition domain_item_step (domain_name domain_base : pyval)
  (acc : list (text * pyval) * option string) (kv : text * pyval)
  : result (list (text * pyval) * option string) :=
  let '(domain_diff, adj) := acc in
  let '(key, val) := kv in
  if negb (text_eqb key (Some "CodedValues")) then
    b <- getitem domain_base key ;;
    if negb (py_eqb val b) then
      domain_diff' <-
        setitem domain_diff domain_name
          (PList [triple
                    (PStr ("Domain has mismatch " +++ str_text key
                             +++ " property"))
                    b val]) ;;
      Ok (domain_diff', adj)
    else Ok acc
  else
    b <- getitem domain_base key ;;
    if negb (py_eqb val b) then
      base_diff <- items_difference b val ;;
      test_diff <- items_difference val b ;;
      '(adj, base_diff, test_diff) <-
        (if negb (py_eqb base_diff (PStr ""))
            && py_eqb test_diff (PStr "") then
           base_diff' <- swap_key_value base_diff ;;
           test_diff' <- swap_key_value test_diff ;;
           Ok (Some "additional and missing", base_diff', test_diff')
         else if negb (py_eqb base_diff (PStr "")) then
           base_diff' <- swap_key_value base_diff ;;
           Ok (Some "missing", base_diff', test_diff)
         else if negb (py_eqb test_diff (PStr "")) then
           test_diff' <- swap_key_value test_diff ;;
           Ok (Some "additional", base_diff, test_diff')
         else Ok (adj, base_diff, test_diff)) ;;
      adj_now <- local "adj" adj ;;
      domain_diff' <-
        append_or_create domain_diff domain_name
          (triple (PStr ("Domain has " +++ adj_now +++ " CodedValues"))
             (PStr (py_str base_diff)) (PStr (py_str test_diff))) ;;
      Ok (domain_diff', adj)
    else Ok acc.

Definition domain_step (domain_list_base : list pyval)
  (acc : list (text * pyval) * option string) (domain : pyval)
  : result (list (text * pyval) * option string) :=
  domain_name <- getitem domain (Some "DomainName") ;;
  domain_base <- base_entry "DomainName" domain_list_base domain_name ;;
  its <- items domain ;;
  foldM (domain_item_step domain_name domain_base) its acc.

(** [compare_domains] once both documents are normalised. *)
Definition compare_domain_lists (domain_list_base domain_list_test
  : list pyval) : result diff :=
  if py_eqb (PList domain_list_base) (PList domain_list_test) then
    Ok no_diff
  else
    '(domain_miss, domain_diff_test, domain_add) <-
      split_by_name "DomainName" domain_list_base domain_list_test ;;
    '(domain_diff, _) <-
      foldM (domain_step domain_list_base) domain_diff_test ([], None) ;;
    Ok (domain_miss, domain_diff, domain_add).

Definition compare_domains (tree_base tree_test : element) : result diff :=
  domain_list_base <- get_domain_properties tree_base ;;
  domain_list_test <- get_domain_properties tree_test ;;
  compare_domain_lists domain_list_base domain_list_test.
End Domains.

(* ================================================================== *)
(** ** Feature classes and tables: the parser *)

(** [x.getparent().tag] *)
Definition parent_tag (p : option string) : result string :=
  match p with
  | Some t => Ok t
  | None => Raise AttributeError
  end.

(** [fld_prop.text.lower()] *)
Definition text_lower (t : text) : result string :=
  match t with
  | Some s => Ok (lower s)
  | None => Raise AttributeError
  end.

Definition field_prop_step (ignore_fld_alias : bool)
  (flds_dict : list (text * pyval)) (fld_prop : element)
  : result (list (text * pyval)) :=
  let flds_dict := assign (Some "Domain") (PStr "") flds_dict in
  let t := tag fld_prop in
  if existsb (String.eqb t)
       ["Type"; "IsNullable"; "Length"; "Precision"; "Scale"; "Required";
        "Editable"; "DefaultValue"] then
    Ok (assign (Some t) (of_text (txt fld_prop)) flds_dict)
  else if String.eqb t "Name" then
    n <- text_lower (txt fld_prop) ;;
    Ok (assign (Some t) (PStr n) flds_dict)
  else if String.eqb t "AliasName" && negb ignore_fld_alias then
    Ok (assign (Some t) (of_text (txt fld_prop)) flds_dict)
  else if String.eqb t "Domain" then
    Ok (fold_left
          (fun d domain_prop =>
             if String.eqb (tag domain_prop) "DomainName"
             then assign (Some "Domain") (of_text (txt domain_prop)) d
             else d)
          (getchildren fld_prop) flds_dict)
  else Ok flds_dict.

(** The record built from one [Field] element, after the optional removal
    of [Length]. *)
Definition field_record (ignore_len_non_text ignore_fld_alias : bool)
  (field : element) : result pyval :=
  flds_dict <- foldM (field_prop_step ignore_fld_alias)
                 (getchildren field) [] ;;
  ty <- getitem (PDict flds_dict) (Some "Type") ;;
  flds_dict <-
    (if negb (py_eqb ty (PStr "esriFieldTypeString"))
        && Bool.eqb ignore_len_non_text true
     then delitem (Some "Length") flds_dict
     else Ok flds_dict) ;;
  Ok (PDict flds_dict).

Definition subtype_record (subtype : element) : pyval :=
  PDict (fold_left
           (fun d s =>
              if existsb (String.eqb (tag s)) ["SubtypeName"; "SubtypeCode"]
              then assign (Some (tag s)) (of_text (txt s)) d
              else d)
           (iter subtype) []).

Record dataset_locals : Type := {
  dataset_dict : list (text * pyval);
  subtype_name_fld : text;
  subtype_default_code : text;
  flds_list : list pyval;
  subtype_list : list pyval
}.

Section DatasetParser.
(** The module-level constant [IGNORE_LEN_NON_TEXT_FIELDS], read by
    [get_dataset_properties]. *)
Variable ignore_len_non_text : bool.
Variables ignore_ds_alias ignore_fld_alias ignore_hasm ignore_hasz : bool.

Definition set_dataset_dict (st : dataset_locals) (k : string) (v : pyval)
  : dataset_locals :=
  {| dataset_dict := assign (Some k) v (dataset_dict st);
     subtype_name_fld := subtype_name_fld st;
     subtype_default_code := subtype_default_code st;
     flds_list := flds_list st;
     subtype_list := subtype_list st |}.

(** A test of the form [... and ds_prop.getparent().tag == "DataElement"]:
    the parent is looked at only when what precedes holds. *)
Definition and_parent_is_data_element (c : bool) (p : option string)
  : result bool :=
  if c then t <- parent_tag p ;; Ok (String.eqb t "DataElement")
  else Ok false.

Definition ds_prop_step (st : dataset_locals)
  (x : option string * element) : result dataset_locals :=
  let '(parent, ds_prop) := x in
  let t := tag ds_prop in
  let v := of_text (txt ds_prop) in
  c1 <- and_parent_is_data_element
          (existsb (String.eqb t)
             ["Name"; "Versioned"; "CanVersion"; "ConfigurationKeyword";
              "ShapeType"]) parent ;;
  if c1 then Ok (set_dataset_dict st t v) else
  c2 <- and_parent_is_data_element
          (String.eqb t "AliasName" && negb ignore_ds_alias) parent ;;
  if c2 then Ok (set_dataset_dict st t v) else
  c3 <- and_parent_is_data_element
          (String.eqb t "HasM" && negb ignore_hasm) parent ;;
  if c3 then Ok (set_dataset_dict st t v) else
  c4 <- and_parent_is_data_element
          (String.eqb t "HasZ" && negb ignore_hasz) parent ;;
  if c4 then Ok (set_dataset_dict st t v) else
  if String.eqb t "Subtype" then
    Ok {| dataset_dict := dataset_dict st;
          subtype_name_fld := subtype_name_fld st;
          subtype_default_code := subtype_default_code st;
          flds_list := flds_list st;
          subtype_list := subtype_list st ++ [subtype_record ds_prop] |}
  else if String.eqb t "SubtypeFieldName" then
    Ok {| dataset_dict := assign (Some t) v (dataset_dict st);
          subtype_name_fld := txt ds_prop;
          subtype_default_code := subtype_default_code st;
          flds_list := flds_list st;
          subtype_list := subtype_list st |}
  else if String.eqb t "DefaultSubtypeCode" then
    Ok {| dataset_dict := dataset_dict st;
          subtype_name_fld := subtype_name_fld st;
          subtype_default_code := txt ds_prop;
          flds_list := flds_list st;
          subtype_list := subtype_list st |}
  else if String.eqb t "Field" then
    flds_dict <- field_record ignore_len_non_text ignore_fld_alias
                   ds_prop ;;
    let flds_list' :=
      if negb (py_in flds_dict (flds_list st))
      then flds_list st ++ [flds_dict] else flds_list st in
    Ok {| dataset_dict :=
            assign (Some "Fields") (PList flds_list') (dataset_dict st);
          subtype_name_fld := subtype_name_fld st;
          subtype_default_code := subtype_default_code st;
          flds_list := flds_list';
          subtype_list := subtype_list st |}
  else Ok st.

(** The record of one [DataElement] of the requested type. [Fields] is the
    list object [flds_list]: the dict sees every later append, so the
    value stored at the first [Field] is the final list. *)
Definition dataset_record (elem : element) : result pyval :=
  st <- foldM ds_prop_step (iter_parent None elem)
          {| dataset_dict := [(Some "SubtypeFieldName", PStr "")];
             subtype_name_fld := Some "";
             subtype_default_code := Some "";
             flds_list := [];
             subtype_list := [] |} ;;
  let d := assign (Some "Subtypes") (PList (subtype_list st))
             (dataset_dict st) in
  let d := assign (Some "SubtypeInfo")
             (PDict [(subtype_name_fld st,
                      of_text (subtype_default_code st))]) d in
  Ok (PDict d).

Definition get_dataset_properties (tree : element) (ds_type : string)
  : result (list pyval) :=
  foldM (fun dataset_list elem =>
           a <- first_attrib elem ;;
           if String.eqb a ds_type then
             d <- dataset_record elem ;;
             sort_by (itemgetter "Name") (dataset_list ++ [d])
           else Ok dataset_list)
    (iter_tag "DataElement" tree) [].
End DatasetParser.

(* ================================================================== *)
(** ** Feature classes and tables: the differ *)

(** [compare_datasets] removes elements from list objects that belong to
    the test collection ([val.remove(...)]). The two normalised collections
    are therefore kept in a store; the dicts of [ds_list_test] are referred
    to by their position, and every read of a dataset goes through the
    store. *)
Record store : Type := {
  ds_list_base : list pyval;
  ds_list_test : list pyval
}.

Definition stM (A : Type) : Type := store -> result (A * store).

Definition ret {A} (a : A) : stM A := fun s => Ok (a, s).

Definition bindS {A B} (m : stM A) (k : A -> stM B) : stM B :=
  fun s => match m s with
           | Ok (a, s') => k a s'
           | Raise e => Raise e
           end.

Definition lift {A} (m : result A) : stM A :=
  fun s => match m with
           | Ok a => Ok (a, s)
           | Raise e => Raise e
           end.

Definition get_base : stM (list pyval) := fun s => Ok (ds_list_base s, s).
Definition get_test : stM (list pyval) := fun s => Ok (ds_list_test s, s).

Notation "x <~ m ;; k" := (bindS m (fun x => k))
  (at level 61, m at next level, right associativity) : py_scope.

Fixpoint foldS {A S} (body : S -> A -> stM S) (l : list A) (acc : S)
  : stM S :=
  match l with
  | [] => ret acc
  | x :: l' => acc' <~ body acc x ;; foldS body l' acc'
  end.

(** The dataset at position [i] of [ds_list_test]. *)
Definition deref (i : nat) : stM pyval :=
  fun s => match nth_error (ds_list_test s) i with
           | Some v => Ok (v, s)
           | None => Raise IndexError
           end.

Fixpoint update_nth {A} (i : nat) (f : A -> result A) (l : list A)
  : result (list A) :=
  match l, i with
  | [], _ => Raise IndexError
  | x :: l', O => y <- f x ;; Ok (y :: l')
  | x :: l', S j => r <- update_nth j f l' ;; Ok (x :: r)
  end.

(** [val.remove(x)] where [val] is the list object stored under [key] in
    the dataset at position [i] of [ds_list_test]. *)
Definition remove_in (key : text) (x : pyval) (ds : pyval) : result pyval :=
  d <- items ds ;;
  val <- getitem ds key ;;
  match val with
  | PList l => l' <- list_remove x l ;; Ok (PDict (assign key (PList l') d))
  | _ => Raise AttributeError
  end.

Definition test_remove (i : nat) (key : text) (x : pyval) : stM unit :=
  fun s => match update_nth i (remove_in key x) (ds_list_test s) with
           | Ok l => Ok (tt, {| ds_list_base := ds_list_base s;
                                ds_list_test := l |})
           | Raise e => Raise e
           end.

Definition indices {A} (l : list A) : list nat := seq 0 (List.length l).

(** [l.remove(x)] on a list of references into [ds_list_test]: the first
    reference whose dict equals [x] goes. *)
Fixpoint ref_remove (test : list pyval) (x : pyval) (l : list nat)
  : result (list nat) :=
  match l with
  | [] => Raise ValueError
  | i :: l' =>
      match nth_error test i with
      | Some y => if py_eqb y x then Ok l'
                  else r <- ref_remove test x l' ;; Ok (i :: r)
      | None => Raise IndexError
      end
  end.

(** [list(d.keys())[0]] and [list(d.values())[0]] *)
Definition first_key (d : pyval) : result pyval :=
  its <- items d ;; kv <- first its ;; Ok (of_text (fst kv)).
Definition first_value (d : pyval) : result pyval :=
  its <- items d ;; kv <- first its ;; Ok (snd kv).

Section DatasetDiffer.
(** The label of the category: ["Feature Class"] or ["Table"]. *)
Variable name : string.

Definition subtype_info_branch (ds_name : pyval) (ds_base val : pyval)
  (ds_diff : list (text * pyval)) : result (list (text * pyval)) :=
  subtype_info_base <- getitem ds_base (Some "SubtypeInfo") ;;
  kb <- first_key subtype_info_base ;;
  kt <- first_key val ;;
  if py_eqb kb kt then
    vb <- first_value subtype_info_base ;;
    vt <- first_value val ;;
    if negb (py_eqb vb vt) then
      append_or_store ds_diff ds_name
        (triple (PStr (name +++ " has mismatch DefaultSubtypeCode property"))
           kb kt)
    else Ok ds_diff
  else Ok ds_diff.

Definition name_not_in (key : string) (names : list pyval) (i : pyval)
  : result bool :=
  n <- getitem i (Some key) ;; Ok (negb (py_in n names)).

Definition subtypes_branch (i : nat) (ds_name : pyval) (ds_base val : pyval)
  (ds_diff : list (text * pyval)) : stM (list (text * pyval)) :=
  st_base <~ lift (getitem ds_base (Some "Subtypes")) ;;
  val_list <~ lift (py_iter val) ;;
  st_names_test <~ lift (mapM (itemgetter "SubtypeName") val_list) ;;
  st_base_list <~ lift (py_iter st_base) ;;
  st_names_base <~ lift (mapM (itemgetter "SubtypeName") st_base_list) ;;
  st_miss <~ lift (filterM (name_not_in "SubtypeName" st_names_test)
                     st_base_list) ;;
  st_add <~ lift (filterM (name_not_in "SubtypeName" st_names_base)
                    val_list) ;;
  ds_diff <~
    foldS (fun ds_diff st =>
             _ <~ test_remove i (Some "Subtypes") st ;;
             lift (n <- getitem st (Some "SubtypeName") ;;
                   append_or_store ds_diff ds_name
                     (triple (PStr "Additional subtype") (PStr "") n)))
      st_add ds_diff ;;
  lift (foldM (fun ds_diff st =>
                 n <- getitem st (Some "SubtypeName") ;;
                 append_or_create ds_diff ds_name
                   (triple (PStr "Missing subtype") n (PStr "")))
          st_miss ds_diff).

(** The four innermost loops of the [Fields] branch: every pair of a test
    field and a base field of the same name, every pair of equal keys. *)
Definition field_pair_step (ds_name : pyval) (fld_name : pyval)
  (fld_prop : list (text * pyval)) (ds_diff : list (text * pyval))
  (base_item : text * pyval) : result (list (text * pyval)) :=
  let '(base_key, base_val) := base_item in
  foldM (fun ds_diff test_item =>
           let '(test_key, test_val) := test_item in
           if text_eqb base_key test_key then
             if negb (py_eqb base_val test_val) then
               append_or_create ds_diff ds_name
                 (triple
                    (PStr (py_str fld_name
                             +++ " field has different values for "
                             +++ str_text base_key))
                    (PStr (py_str base_val)) (PStr (py_str test_val)))
             else Ok ds_diff
           else Ok ds_diff)
    fld_prop ds_diff.

Definition field_step (ds_name : pyval) (flds_base_list : list pyval)
  (ds_diff : list (text * pyval)) (fld_prop : pyval)
  : result (list (text * pyval)) :=
  fld_name <- getitem fld_prop (Some "Name") ;;
  foldM (fun ds_diff flds_base =>
           n <- getitem flds_base (Some "Name") ;;
           if py_eqb n fld_name then
             base_items <- items flds_base ;;
             test_items <- items fld_prop ;;
             foldM (field_pair_step ds_name fld_name test_items)
               base_items ds_diff
           else Ok ds_diff)
    flds_base_list ds_diff.

Definition fields_branch (i : nat) (ds_name : pyval) (ds_base val : pyval)
  (ds_diff : list (text * pyval)) : stM (list (text * pyval)) :=
  flds_base <~ lift (getitem ds_base (Some "Fields")) ;;
  val_list <~ lift (py_iter val) ;;
  flds_names_test <~ lift (mapM (itemgetter "Name") val_list) ;;
  flds_base_list <~ lift (py_iter flds_base) ;;
  flds_names_base <~ lift (mapM (itemgetter "Name") flds_base_list) ;;
  flds_miss <~ lift (filterM (name_not_in "Name" flds_names_test)
                       flds_base_list) ;;
  flds_add <~ lift (filterM (name_not_in "Name" flds_names_base)
                      val_list) ;;
  ds_diff <~
    foldS (fun ds_diff fld =>
             _ <~ test_remove i (Some "Fields") fld ;;
             lift (n <- getitem fld (Some "Name") ;;
                   append_or_create ds_diff ds_name
                     (triple (PStr "Additional field") (PStr "") n)))
      flds_add ds_diff ;;
  ds_diff <~
    lift (foldM (fun ds_diff fld =>
                   n <- getitem fld (Some "Name") ;;
                   append_or_create ds_diff ds_name
                     (triple (PStr "Missing field") n (PStr "")))
            flds_miss ds_diff) ;;
  (* [for fld_prop in val]: the list as it is after the removals *)
  ds <~ deref i ;;
  val_now <~ lift (bind (getitem ds (Some "Fields")) py_iter) ;;
  lift (foldM (field_step ds_name flds_base_list) val_now ds_diff).

Definition property_branch (ds_name : pyval) (ds_base : pyval) (key : text)
  (val : pyval) (ds_diff : list (text * pyval))
  : result (list (text * pyval)) :=
  b <- getitem ds_base key ;;
  if negb (py_eqb val b) then
    append_or_create ds_diff ds_name
      (triple (PStr (name +++ " has mismatch " +++ str_text key
                       +++ " property")) b val)
  else Ok ds_diff.

(** One round of [for key, val in ds.items()]: [val] is the object stored
    under [key], read as it is now. *)
Definition dataset_item_step (i : nat) (ds_name : pyval) (ds_base : pyval)
  (ds_diff : list (text * pyval)) (key : text)
  : stM (list (text * pyval)) :=
  ds <~ deref i ;;
  val <~ lift (getitem ds key) ;;
  if text_eqb key (Some "SubtypeInfo") then
    lift (subtype_info_branch ds_name ds_base val ds_diff)
  else if text_eqb key (Some "Subtypes") then
    subtypes_branch i ds_name ds_base val ds_diff
  else if text_eqb key (Some "Fields") then
    fields_branch i ds_name ds_base val ds_diff
  else
    lift (property_branch ds_name ds_base key val ds_diff).

Definition dataset_step (ds_diff : list (text * pyval)) (i : nat)
  : stM (list (text * pyval)) :=
  ds <~ deref i ;;
  ds_name <~ lift (getitem ds (Some "Name")) ;;
  base <~ get_base ;;
  same <~ lift (filterM (fun d => n <- getitem d (Some "Name") ;;
                                  Ok (py_eqb n ds_name)) base) ;;
  ds_base <~ lift (first same) ;;
  its <~ lift (items ds) ;;
  foldS (dataset_item_step i ds_name ds_base) (keys its) ds_diff.

(** [compare_datasets] once both documents are normalised; the result
    comes with the store as the function leaves it. *)
Definition compare_dataset_lists : stM diff :=
  base <~ get_base ;;
  test <~ get_test ;;
  if py_eqb (PList base) (PList test) then ret no_diff
  else
    let ds_diff_test :=
      filter (fun i => negb (py_in (nth i test PNone) base))
        (indices test) in
    ds_names_test <~ lift (mapM (itemgetter "Name") test) ;;
    ds_names_base <~ lift (mapM (itemgetter "Name") base) ;;
    ds_miss <~ lift (filterM (name_not_in "Name" ds_names_test) base) ;;
    ds_add <~ lift (filterM (name_not_in "Name" ds_names_base) test) ;;
    ds_diff_test <~
      lift (foldM (fun l ds => ref_remove test ds l) ds_add ds_diff_test) ;;
    ds_diff <~ foldS dataset_step ds_diff_test [] ;;
    ret (ds_miss, ds_diff, ds_add).
End DatasetDiffer.

Definition compare_datasets (ignore_len_non_text : bool)
  (tree_base tree_test : element) (ds_type name : string)
  (ignore_ds_alias ignore_fld_alias ignore_hasm ignore_hasz : bool)
  : result diff :=
  base <- get_dataset_properties ignore_len_non_text ignore_ds_alias
            ignore_fld_alias ignore_hasm ignore_hasz tree_base ds_type ;;
  test <- get_dataset_properties ignore_len_non_text ignore_ds_alias
            ignore_fld_alias ignore_hasm ignore_hasz tree_test ds_type ;;
  '(r, _) <- compare_dataset_lists name
               {| ds_list_base := base; ds_list_test := test |} ;;
  Ok r.

(* ================================================================== *)
(** ** Relationship classes *)

Definition rc_tags : list string :=
  ["Name"; "Versioned"; "CanVersion"; "ConfigurationKeyword"; "HasOID";
   "OIDFieldName"; "Fields"; "Cardinality"; "IsComposite";
   "OriginClassNames"; "DestinationClassNames"; "KeyType"; "ClassKey";
   "IsReflexive"; "OriginClassKeys"; "RelationshipRules";
   "IsAttachmentRelationship"].

Definition rc_record (elem : element) : pyval :=
  PDict (fold_left
           (fun rc_dict rc_prop =>
              if existsb (String.eqb (tag rc_prop)) rc_tags
              then assign (Some (tag rc_prop)) (of_text (txt rc_prop)) rc_dict
              else rc_dict)
           (getchildren elem) []).

Definition get_rc_properties (tree : element) (ds_type : string)
  : result (list pyval) :=
  foldM (fun rc_list elem =>
           a <- first_attrib elem ;;
           if String.eqb a ds_type then
             sort_by (itemgetter "Name") (rc_list ++ [rc_record elem])
           else Ok rc_list)
    (iter_tag "DataElement" tree) [].

Section RelationshipClasses.
Variable name : string.

Definition rc_step (rc_list_base : list pyval)
  (rc_diff : list (text * pyval)) (rc : pyval)
  : result (list (text * pyval)) :=
  rc_name <- getitem rc (Some "Name") ;;
  rc_base <- base_entry "Name" rc_list_base rc_name ;;
  its <- items rc ;;
  foldM (fun rc_diff kv =>
           let '(key, val) := kv in
           b <- getitem rc_base key ;;
           if negb (py_eqb val b) then
             setitem rc_diff rc_name
               (PList [triple
                         (PStr (name +++ " has mismatch " +++ str_text key
                                  +++ " property"))
                         b val])
           else Ok rc_diff)
    its rc_diff.

Definition compare_rc_lists (rc_list_base rc_list_test : list pyval)
  : result diff :=
  if py_eqb (PList rc_list_base) (PList rc_list_test) then Ok no_diff
  else
    '(rc_miss, rc_diff_test, rc_add) <-
      split_by_name "Name" rc_list_base rc_list_test ;;
    rc_diff <- foldM (rc_step rc_list_base) rc_diff_test [] ;;
    Ok (rc_miss, rc_diff, rc_add).

Definition compare_relationship_classes (tree_base tree_test : element)
  (ds_type : string) : result diff :=
  rc_list_base <- get_rc_properties tree_base ds_type ;;
  rc_list_test <- get_rc_properties tree_test ds_type ;;
  compare_rc_lists rc_list_base rc_list_test.
End RelationshipClasses.

(* ================================================================== *)
(** ** Feature datasets *)

(** [l.sort()] on a list of texts. *)
Definition sort_texts (l : list pyval) : result (list pyval) :=
  sort_by (fun x => Ok x) l.

Definition fds_grandchild_step (fds_dict : list (text * pyval))
  (grandchild : element) : result (list (text * pyval)) :=
  is_fc <- (if String.eqb (tag grandchild) "DataElement"
            then a <- first_attrib grandchild ;;
                 Ok (String.eqb a "esri:DEFeatureClass")
            else Ok false) ;;
  if is_fc then
    d <- foldM (fun d greatgrandchild =>
                  if String.eqb (tag greatgrandchild) "Name" then
                    c <- getitem (PDict d) (Some "Children") ;;
                    c' <- append c (of_text (txt greatgrandchild)) ;;
                    Ok (assign (Some "Children") c' d)
                  else Ok d)
           (getchildren grandchild) fds_dict ;;
    c <- bind (getitem (PDict d) (Some "Children")) py_iter ;;
    c' <- sort_texts c ;;
    Ok (assign (Some "Children") (PList c') d)
  else Ok fds_dict.

Definition fds_child_step (fds_dict : list (text * pyval)) (child : element)
  : result (list (text * pyval)) :=
  if existsb (String.eqb (tag child))
       ["DatasetType"; "Name"; "Versioned"; "CanVersion"; "Extent";
        "SpatialReference"] then
    Ok (assign (Some (tag child)) (of_text (txt child)) fds_dict)
  else if String.eqb (tag child) "Children" then
    foldM fds_grandchild_step (getchildren child) fds_dict
  else Ok fds_dict.

(** [fds_list] holds references: [Some v] is the finished dict of an earlier
    [DataElement], [None] is the dict [fds_dict] of the current one, which
    later rounds of the inner loop still change. *)
Definition resolve (fds_dict : list (text * pyval)) (r : option pyval)
  : pyval :=
  match r with
  | Some v => v
  | None => PDict fds_dict
  end.

Definition fds_prop_step
  (acc : list (text * pyval) * list (option pyval)) (fds_prop : element)
  : result (list (text * pyval) * list (option pyval)) :=
  let '(fds_dict, fds_list) := acc in
  if existsb (fun i => String.eqb (tag i) "DatasetType"
                       && text_eqb (txt i) (Some "esriDTFeatureDataset"))
       (getchildren fds_prop) then
    fds_dict <- foldM fds_child_step (getchildren fds_prop) fds_dict ;;
    fds_list <- sort_by (fun r => getitem (resolve fds_dict r) (Some "Name"))
                  (fds_list ++ [None]) ;;
    Ok (fds_dict, fds_list)
  else Ok acc.

Definition get_fds_properties (tree : element) (ds_type : string)
  : result (list pyval) :=
  fds_list <-
    foldM (fun fds_list elem =>
             a <- first_attrib elem ;;
             if String.eqb a ds_type then
               '(fds_dict, fds_list) <-
                 foldM fds_prop_step (iter elem)
                   ([(Some "Children", PList [])], fds_list) ;;
               Ok (map (fun r => Some (resolve fds_dict r)) fds_list)
             else Ok fds_list)
      (iter_tag "DataElement" tree) [] ;;
  Ok (map (resolve []) fds_list).

Section FeatureDatasets.
Variable name : string.

Definition mismatch_property (d : list (text * pyval)) (entity : pyval)
  (key : text) (b val : pyval) : result (list (text * pyval)) :=
  append_or_create d entity
    (triple (PStr (name +++ " has mismatch " +++ str_text key
                     +++ " property")) b val).

Definition fds_step (fds_list_base : list pyval)
  (fds_diff : list (text * pyval)) (fds : pyval)
  : result (list (text * pyval)) :=
  fds_name <- getitem fds (Some "Name") ;;
  fds_base <- base_entry "Name" fds_list_base fds_name ;;
  its <- items fds ;;
  foldM (fun fds_diff kv =>
           let '(key, val) := kv in
           if negb (text_eqb key (Some "Children")) then
             b <- getitem fds_base key ;;
             if negb (py_eqb val b)
             then mismatch_property fds_diff fds_name key b val
             else Ok fds_diff
           else Ok fds_diff)
    its fds_diff.

Definition compare_fds_lists (fds_list_base fds_list_test : list pyval)
  : result diff :=
  if py_eqb (PList fds_list_base) (PList fds_list_test) then Ok no_diff
  else
    '(fds_miss, fds_diff_test, fds_add) <-
      split_by_name "Name" fds_list_base fds_list_test ;;
    fds_diff <- foldM (fds_step fds_list_base) fds_diff_test [] ;;
    Ok (fds_miss, fds_diff, fds_add).

Definition compare_fds (tree_base tree_test : element) (ds_type : string)
  : result diff :=
  fds_list_base <- get_fds_properties tree_base ds_type ;;
  fds_list_test <- get_fds_properties tree_test ds_type ;;
  compare_fds_lists fds_list_base fds_list_test.
End FeatureDatasets.

(* ================================================================== *)
(** ** Topologies *)

(** The id-to-name table of the feature classes; [name] is the local that
    the [DSID] branch reads. *)
Definition fc_dict_step (acc : list (text * pyval) * option text)
  (elem : element) : result (list (text * pyval) * option text) :=
  a <- first_attrib elem ;;
  if String.eqb a "esri:DEFeatureClass" then
    foldM (fun acc prop =>
             let '(fc_dict, name) := acc in
             if String.eqb (tag prop) "Name" then Ok (fc_dict, Some (txt prop))
             else if String.eqb (tag prop) "DSID" then
               n <- local "name" name ;;
               Ok (assign (txt prop) (of_text n) fc_dict, name)
             else Ok acc)
      (getchildren elem) acc
  else Ok acc.

Definition topo_rule_record (fc_dict : list (text * pyval))
  (topo_rules : element) : result pyval :=
  d <- foldM (fun rule_dict topo_rule =>
                let t := tag topo_rule in
                if String.eqb t "TopologyRuleType" then
                  Ok (assign (Some t) (of_text (txt topo_rule)) rule_dict)
                else if existsb (String.eqb t)
                          ["OriginClassID"; "DestinationClassID"] then
                  n <- getitem (PDict fc_dict) (txt topo_rule) ;;
                  Ok (assign (Some t) n rule_dict)
                else if existsb (String.eqb t)
                          ["OriginSubtype"; "DestinationSubtype"] then
                  Ok (assign (Some t) (of_text (txt topo_rule)) rule_dict)
                else Ok rule_dict)
         (getchildren topo_rules) [] ;;
  Ok (PDict d).

(** The sort key of a rule. *)
Definition rule_key (x : pyval) : result pyval :=
  a <- getitem x (Some "OriginClassID") ;;
  b <- getitem x (Some "TopologyRuleType") ;;
  c <- getitem x (Some "DestinationClassID") ;;
  d <- getitem x (Some "OriginSubtype") ;;
  e <- getitem x (Some "DestinationSubtype") ;;
  Ok (PTuple [a; b; c; d; e]).

Record topo_locals : Type := {
  topo_dict : list (text * pyval);
  fc_list : list pyval;
  rule_list : list pyval
}.

Definition topo_prop_step (fc_dict : list (text * pyval))
  (st : topo_locals) (topo_prop : element) : result topo_locals :=
  let t := tag topo_prop in
  if existsb (String.eqb t)
       ["Name"; "ClusterTolerance"; "ZClusterTolerance";
        "MaxGeneratedErrorCount"] then
    Ok {| topo_dict := assign (Some t) (of_text (txt topo_prop))
                         (topo_dict st);
          fc_list := fc_list st; rule_list := rule_list st |}
  else if String.eqb t "FeatureClassNames" then
    l <- foldM (fun fc_list fc =>
                  sort_texts (if String.eqb (tag fc) "Name"
                              then fc_list ++ [of_text (txt fc)]
                              else fc_list))
           (iter topo_prop) (fc_list st) ;;
    Ok {| topo_dict := topo_dict st; fc_list := l;
          rule_list := rule_list st |}
  else if String.eqb t "TopologyRules" then
    l <- foldM (fun rule_list topo_rules =>
                  r <- topo_rule_record fc_dict topo_rules ;;
                  Ok (rule_list ++ [r]))
           (getchildren topo_prop) (rule_list st) ;;
    Ok {| topo_dict := topo_dict st; fc_list := fc_list st;
          rule_list := l |}
  else Ok st.

Definition topo_record (fc_dict : list (text * pyval)) (elem : element)
  : result pyval :=
  st <- foldM (topo_prop_step fc_dict) (getchildren elem)
          {| topo_dict := []; fc_list := []; rule_list := [] |} ;;
  let d := assign (Some "FeatureClassNames") (PList (fc_list st))
             (topo_dict st) in
  rules <- sort_by rule_key (rule_list st) ;;
  Ok (PDict (assign (Some "TopologyRules") (PList rules) d)).

Definition get_topo_properties (tree : element) (ds_type : string)
  : result (list pyval) :=
  '(fc_dict, _) <-
    foldM fc_dict_step (iter_tag "DataElement" tree) ([], None) ;;
  foldM (fun topo_list elem =>
           a <- first_attrib elem ;;
           if String.eqb a ds_type then
             d <- topo_record fc_dict elem ;;
             sort_by (itemgetter "Name") (topo_list ++ [d])
           else Ok topo_list)
    (iter_tag "DataElement" tree) [].

Section Topologies.
Variable rt : runtime.
Variable name : string.

(** [if n not in d.keys(): d[n] = [t] else: d[n].append(t)], once for
    every element of [l]. *)
Definition report_each (mk : pyval -> pyval) (topo_name : pyval)
  (l : list pyval) (topo_diff : list (text * pyval))
  : result (list (text * pyval)) :=
  foldM (fun d x => append_or_create d topo_name (mk x)) l topo_diff.

Definition rule_text (rule : pyval) : pyval :=
  PStr (remove_char squote (py_str rule)).

Definition topo_item_step (topo_name topo_base : pyval)
  (topo_diff : list (text * pyval)) (kv : text * pyval)
  : result (list (text * pyval)) :=
  let '(key, val) := kv in
  if negb (existsb (text_eqb key)
             [Some "FeatureClassNames"; Some "TopologyRules"]) then
    b <- getitem topo_base key ;;
    if negb (py_eqb val b)
    then mismatch_property name topo_diff topo_name key b val
    else Ok topo_diff
  else if text_eqb key (Some "FeatureClassNames") then
    b <- getitem topo_base key ;;
    if negb (py_eqb val b) then
      bl <- py_iter b ;;
      vl <- py_iter val ;;
      let miss_fcs := set_difference rt py_eqb bl vl in
      let add_fcs := set_difference rt py_eqb vl bl in
      d <- report_each
             (fun fc => triple (PStr "Missing feature class in topology")
                          fc PNone)
             topo_name miss_fcs topo_diff ;;
      report_each
        (fun fc => triple (PStr "Additional feature class in topology")
                     PNone fc)
        topo_name add_fcs d
    else Ok topo_diff
  else if text_eqb key (Some "TopologyRules") then
    b <- getitem topo_base key ;;
    if negb (py_eqb val b) then
      bl <- py_iter b ;;
      vl <- py_iter val ;;
      let miss_rules := filter (fun rule => negb (py_in rule vl)) bl in
      let add_rules := filter (fun rule => negb (py_in rule bl)) vl in
      d <- report_each
             (fun rule => triple (PStr "Missing topology rule")
                            (rule_text rule) PNone)
             topo_name miss_rules topo_diff ;;
      report_each
        (fun rule => triple (PStr "Additional topology rule")
                       PNone (rule_text rule))
        topo_name add_rules d
    else Ok topo_diff
  else Ok topo_diff.

Definition topo_step (topo_list_base : list pyval)
  (topo_diff : list (text * pyval)) (topo : pyval)
  : result (list (text * pyval)) :=
  topo_name <- getitem topo (Some "Name") ;;
  topo_base <- base_entry "Name" topo_list_base topo_name ;;
  its <- items topo ;;
  foldM (topo_item_step topo_name topo_base) its topo_diff.

Definition compare_topo_lists (topo_list_base topo_list_test : list pyval)
  : result diff :=
  if py_eqb (PList topo_list_base) (PList topo_list_test) then Ok no_diff
  else
    '(topo_miss, topo_diff_test, topo_add) <-
      split_by_name "Name" topo_list_base topo_list_test ;;
    topo_diff <- foldM (topo_step topo_list_base) topo_diff_test [] ;;
    Ok (topo_miss, topo_diff, topo_add).

Definition compare_topo (tree_base tree_test : element) (ds_type : string)
  : result diff :=
  topo_list_base <- get_topo_properties tree_base ds_type ;;
  topo_list_test <- get_topo_properties tree_test ds_type ;;
  compare_topo_lists topo_list_base topo_list_test.
End Topologies.

(* ================================================================== *)
(** ** Attribute rules *)

Definition attr_rule_tags : list string :=
  ["Type"; "FieldName"; "SubtypeCode"; "Description"; "UserEditable";
   "IsEnabled"; "ReferencesExternalService"; "ExcludeFromClientEvaluation";
   "ScriptExpression"; "TriggeringEvents"].

(** Locals of [get_attr_rules_properties] that outlive the iteration that
    assigns them. *)
Record attr_locals : Type := {
  attr_rules_dict : list (text * pyval);
  al_ds_name : option text;
  al_key : option string;
  al_sorted_dict : option pyval
}.

Definition attr_rule_step (st : attr_locals) (a : element)
  : result attr_locals :=
  st1 <-
    (if String.eqb (tag a) "AttributeRule" then
       ds_name <- local "ds_name" (al_ds_name st) ;;
       let r_dict := [(Some "DatasetName", of_text ds_name)] in
       let '(r_dict, key) :=
         fold_left
           (fun acc i =>
              let '(r_dict, key) := acc in
              if String.eqb (tag i) "Name" then
                (r_dict, Some (str_text ds_name +++ ": " +++ str_text (txt i)))
              else if existsb (String.eqb (tag i)) attr_rule_tags then
                (assign (Some (tag i)) (of_text (txt i)) r_dict, key)
              else acc)
           (getchildren a) (r_dict, al_key st) in
       sorted <- sorted_items r_dict ;;
       Ok {| attr_rules_dict := attr_rules_dict st;
             al_ds_name := al_ds_name st;
             al_key := key;
             al_sorted_dict := Some (PDict (dict_of_pairs sorted)) |}
     else Ok st) ;;
  sorted_dict <- local "sorted_dict" (al_sorted_dict st1) ;;
  key <- local "key" (al_key st1) ;;
  Ok {| attr_rules_dict := assign (Some key) sorted_dict (attr_rules_dict st1);
        al_ds_name := al_ds_name st1;
        al_key := al_key st1;
        al_sorted_dict := al_sorted_dict st1 |}.

Definition attr_prop_step (st : attr_locals) (prop : element)
  : result attr_locals :=
  let st :=
    if String.eqb (tag prop) "Name" then
      {| attr_rules_dict := attr_rules_dict st;
         al_ds_name := Some (txt prop);
         al_key := al_key st;
         al_sorted_dict := al_sorted_dict st |}
    else st in
  if String.eqb (tag prop) "AttributeRules"
  then foldM attr_rule_step (getchildren prop) st
  else Ok st.

(** [{key: d[key] for key in sorted(d.keys())}] *)
Definition sort_dict_by_key (d : list (text * pyval))
  : result (list (text * pyval)) :=
  keys_sorted <- sort_by (fun k => Ok (of_text k)) (keys d) ;;
  foldM (fun acc k => v <- getitem (PDict d) k ;; Ok (assign k v acc))
    keys_sorted [].

Definition get_attr_rules_properties (tree : element)
  (ds_type : list string) : result (list (text * pyval)) :=
  st <- foldM (fun st elem =>
                 a <- first_attrib elem ;;
                 if existsb (String.eqb a) ds_type
                 then foldM attr_prop_step (getchildren elem) st
                 else Ok st)
          (iter_tag "DataElement" tree)
          {| attr_rules_dict := []; al_ds_name := None; al_key := None;
             al_sorted_dict := None |} ;;
  sort_dict_by_key (attr_rules_dict st).

(** [i.split(":")], then ["".join(l[1:]).strip()] *)
Definition rule_label (i : text) : result string :=
  match i with
  | Some s => Ok (strip (String.concat "" (tl (split_char ":" s))))
  | None => Raise AttributeError
  end.

Section AttributeRules.
Variable rt : runtime.
(** The [name] argument; the function does not use it. *)
Variable name : string.

Definition attr_prop_diff (i : text) (prop_test : pyval)
  (acc : list (text * pyval) * option string) (kv : text * pyval)
  : result (list (text * pyval) * option string) :=
  let '(attr_diff, domain_name) := acc in
  let '(key, val) := kv in
  t <- getitem prop_test key ;;
  if negb (py_eqb val t) then
    if negb (mem_key i attr_diff) then
      dn <- rule_label i ;;
      Ok (assign i
            (PList [triple (PStr (dn +++ " has mismatch " +++ str_text key
                                    +++ " property")) val t])
            attr_diff,
          Some dn)
    else
      l <- getitem (PDict attr_diff) i ;;
      dn <- local "domain_name" domain_name ;;
      l' <- append l
              (triple (PStr (dn +++ " has mismatch " +++ str_text key
                               +++ " property")) val t) ;;
      Ok (assign i l' attr_diff, domain_name)
  else Ok acc.

Definition attr_key_step (attr_rules_list_base attr_rules_list_test
  : list (text * pyval))
  (acc : list (text * pyval) * option string) (i : text)
  : result (list (text * pyval) * option string) :=
  prop_base <- getitem (PDict attr_rules_list_base) i ;;
  prop_test <- getitem (PDict attr_rules_list_test) i ;;
  if negb (py_eqb prop_base prop_test) then
    its <- items prop_base ;;
    foldM (attr_prop_diff i prop_test) its acc
  else Ok acc.

(** [compare_attr_rules] once both documents are normalised. [attr_miss]
    and [attr_add] are assigned only when the key lists differ. *)
Definition compare_attr_rule_dicts (attr_rules_list_base
  attr_rules_list_test : list (text * pyval)) : result diff :=
  if dict_eqb attr_rules_list_base attr_rules_list_test then Ok no_diff
  else
    base_keys <- sort_by (fun k => Ok (of_text k))
                   (keys attr_rules_list_base) ;;
    test_keys <- sort_by (fun k => Ok (of_text k))
                   (keys attr_rules_list_test) ;;
    let '(attr_miss, attr_add) :=
      if negb (py_eqb (PList (map of_text base_keys))
                 (PList (map of_text test_keys)))
      then (Some (map of_text
                    (set_difference rt text_eqb base_keys test_keys)),
            Some (map of_text
                    (set_difference rt text_eqb test_keys base_keys)))
      else (None, None) in
    let attr_diff_items :=
      filter (fun i => existsb (text_eqb i) test_keys) base_keys in
    '(attr_diff, _) <-
      foldM (attr_key_step attr_rules_list_base attr_rules_list_test)
        attr_diff_items ([], None) ;;
    attr_miss <- local "attr_miss" attr_miss ;;
    attr_add <- local "attr_add" attr_add ;;
    Ok (attr_miss, attr_diff, attr_add).

Definition compare_attr_rules (tree_base tree_test : element)
  (ds_type : list string) : result diff :=
  attr_rules_list_base <- get_attr_rules_properties tree_base ds_type ;;
  attr_rules_list_test <- get_attr_rules_properties tree_test ds_type ;;
  compare_attr_rule_dicts attr_rules_list_base attr_rules_list_test.
End AttributeRules.

(* ================================================================== *)
(** ** The workbook *)

(** What the script uses of an openpyxl worksheet: cell values, the bold
    header, merged ranges and the cells aligned to the centre. *)
Record worksheet : Type := {
  ws_title : string;
  ws_cells : list (nat * nat * pyval);
  ws_bold : list (nat * nat);
  ws_merged : list (nat * nat * nat * nat);
  ws_centered : list (nat * nat)
}.

Definition workbook : Type := list worksheet.

(** [ws.cell(row, column).value] *)
Fixpoint cell_value (row col : nat) (cells : list (nat * nat * pyval))
  : pyval :=
  match cells with
  | [] => PNone
  | (r, c, v) :: cells' =>
      if Nat.eqb r row && Nat.eqb c col then v else cell_value row col cells'
  end.

Definition illegal_character (c : ascii) : bool :=
  let n := nat_of_ascii c in
  ((n <=? 8) || ((11 <=? n) && (n <=? 12)) || ((14 <=? n) && (n <=? 31)))%nat.

Fixpoint has_illegal (s : string) : bool :=
  match s with
  | EmptyString => false
  | String c s' => illegal_character c || has_illegal s'
  end.

(** The longest string a cell holds: 32767 characters. *)
Definition cell_limit : nat := 32 * 1024 - 1.

(** openpyxl binds [None] and strings (cut at 32767 characters, refused
    when they hold a control character); lists, tuples and dicts cannot be
    converted. *)
Definition bind_value (v : pyval) : result pyval :=
  match v with
  | PNone => Ok PNone
  | PStr s =>
      let s' := substring 0 cell_limit s in
      if has_illegal s' then Raise IllegalCharacterError else Ok (PStr s')
  | _ => Raise ValueError
  end.

(** [ws.cell(row, column).value = v] *)
Definition set_cell (row col : nat) (v : pyval) (ws : worksheet)
  : result worksheet :=
  v' <- bind_value v ;;
  Ok {| ws_title := ws_title ws;
        ws_cells := (row, col, v')
                      :: filter (fun x => match x with
                                          | (r, c, _) =>
                                              negb (Nat.eqb r row
                                                    && Nat.eqb c col)
                                          end) (ws_cells ws);
        ws_bold := ws_bold ws;
        ws_merged := ws_merged ws;
        ws_centered := ws_centered ws |}.

(** [ws = wb.create_sheet(sheet_name)] and the header row; [names] are
    the titles of the sheets the workbook has. *)
Definition new_sheet (rt : runtime) (names : list string)
  (sheet_name item_type : string) : result worksheet :=
  title <- sheet_title rt names sheet_name ;;
  let ws := {| ws_title := title; ws_cells := [];
               ws_bold := [(1, 1); (1, 2); (1, 3); (1, 4)];
               ws_merged := []; ws_centered := [] |} in
  ws <- set_cell 1 1 (PStr (item_type +++ " Name")) ws ;;
  ws <- set_cell 1 2 (PStr "Difference") ws ;;
  ws <- set_cell 1 3 (PStr "Base") ws ;;
  set_cell 1 4 (PStr "Test") ws.

(** A row of a missing ([value_col = 3]) or additional ([value_col = 4])
    entity. *)
Definition entity_row (item_type dict_key label : string) (value_col : nat)
  (acc : worksheet * nat) (item : pyval) : result (worksheet * nat) :=
  let '(ws, row) := acc in
  v <- (if truthy (PStr dict_key) then getitem item (Some dict_key)
        else Ok item) ;;
  ws <- set_cell row 1 v ws ;;
  ws <- set_cell row 2 (PStr (label +++ " " +++ item_type)) ws ;;
  ws <- set_cell row value_col (cell_value row 1 (ws_cells ws)) ws ;;
  Ok (ws, row + 1).

Definition mismatch_rows (acc : worksheet * nat) (kv : text * pyval)
  : result (worksheet * nat) :=
  let '(ws, row) := acc in
  let '(key, val_list) := kv in
  ws <- set_cell row 1 (of_text key) ws ;;
  let start_row := row in
  vals <- py_iter val_list ;;
  '(ws, row) <-
    foldM (fun acc val =>
             let '(ws, row) := acc in
             its <- py_iter val ;;
             '(ws, _) <-
               foldM (fun acc item =>
                        let '(ws, col) := acc in
                        ws <- set_cell row col item ws ;;
                        Ok (ws, col + 1))
                 its (ws, 2) ;;
             Ok (ws, row + 1))
      vals (ws, row) ;;
  if (start_row + 1 <? row)%nat then
    Ok ({| ws_title := ws_title ws;
           ws_cells := ws_cells ws;
           ws_bold := ws_bold ws;
           ws_merged := ws_merged ws ++ [(start_row, 1, row - 1, 1)];
           ws_centered := ws_centered ws ++ [(start_row, 1)] |}, row)
  else Ok (ws, row).

(** [write_results_to_xls]: the sheet is created first, so it is part of
    the workbook from then on. *)
Definition write_results_to_xls (rt : runtime) (wb : workbook)
  (sheet_name item_type dict_key : string) (d : diff) : result workbook :=
  let '(miss_list, diff_dict, adds_list) := d in
  ws <- new_sheet rt (map ws_title wb) sheet_name item_type ;;
  acc <- foldM (entity_row item_type dict_key "Missing" 3) miss_list
           (ws, 2) ;;
  acc <- foldM mismatch_rows diff_dict acc ;;
  '(ws, _) <- foldM (entity_row item_type dict_key "Additional" 4)
                adds_list acc ;;
  Ok (wb ++ [ws]).

(* ================================================================== *)
(** ** The script *)

(** [if miss or diff or add] *)
Definition has_diff (d : diff) : bool :=
  let '(miss, dif, add) := d in
  truthy (PList miss) || truthy (PDict dif) || truthy (PList add).

(** Configuration constant of the module. *)
Definition IGNORE_LEN_NON_TEXT_FIELDS : bool := true.

Definition ignore_dict_init : list (text * bool) :=
  [(Some "Feature Class/Table Alias", false); (Some "Field Alias", false);
   (Some "Has M", false); (Some "Has Z", false); (Some "Domains", false);
   (Some "Topology", false)].

(** The value-table parameter: the options named in [ignore_str] are set,
    the unknown ones are reported with [arcpy.AddWarning]. *)
Definition read_ignore_str (ignore_str : string)
  : list (text * bool) * list string :=
  if truthy (PStr ignore_str) then
    fold_left
      (fun acc i =>
         let '(ignore_dict, warnings) := acc in
         let i := remove_char squote i in
         if mem_key (Some i) ignore_dict
         then (assign (Some i) true ignore_dict, warnings)
         else (ignore_dict, warnings ++ [i +++ " Ignore Property unknown"]))
      (split_char ";" ignore_str) (ignore_dict_init, [])
  else (ignore_dict_init, []).

Definition option_of (k : string) (d : list (text * bool)) : result bool :=
  match lookup (Some k) d with
  | Some b => Ok b
  | None => Raise KeyError
  end.

(** The module's variables when the script ends. The results of the
    skippable categories are bound only when the category is compared;
    [saved] is the workbook given to [wb.save(out_xls)], if any. *)
Record globals : Type := {
  warnings : list string;
  fds_result : diff;
  fc_result : diff;
  tbl_result : diff;
  rc_result : diff;
  domain_result : option diff;
  topo_result : option diff;
  attr_result : diff;
  wb : workbook;
  save_wb : bool;
  saved : option workbook
}.

Section Script.
Variable rt : runtime.

(** [if miss or diff or add: save_wb = True; write_results_to_xls(...)] *)
Definition report (acc : workbook * bool)
  (sheet_name item_type dict_key : string) (d : diff)
  : result (workbook * bool) :=
  let '(wb, save_wb) := acc in
  if has_diff d then
    wb' <- write_results_to_xls rt wb sheet_name item_type dict_key d ;;
    Ok (wb', true)
  else Ok acc.

(** The module body, from the parameters to the end. [tree_base] and
    [tree_test] are the documents [etree.parse] returned. *)
Definition main (tree_base tree_test : element) (ignore_str : string)
  : result globals :=
  let '(ignore_dict, warnings) := read_ignore_str ignore_str in
  ignore_ds_alias <- option_of "Feature Class/Table Alias" ignore_dict ;;
  ignore_fld_alias <- option_of "Field Alias" ignore_dict ;;
  ignore_hasm <- option_of "Has M" ignore_dict ;;
  ignore_hasz <- option_of "Has Z" ignore_dict ;;
  ignore_domains <- option_of "Domains" ignore_dict ;;
  ignore_topology <- option_of "Topology" ignore_dict ;;
  let acc : workbook * bool := ([], false) in
  fds <- compare_fds "Feature Dataset" tree_base tree_test
           "esri:DEFeatureDataset" ;;
  acc <- report acc "Feature Datasets" "Feature Dataset" "Name" fds ;;
  fc <- compare_datasets IGNORE_LEN_NON_TEXT_FIELDS tree_base tree_test
          "esri:DEFeatureClass" "Feature Class"
          ignore_ds_alias ignore_fld_alias ignore_hasm ignore_hasz ;;
  acc <- report acc "Feature Classes" "Feature Class" "Name" fc ;;
  (* the seventh positional argument is [ignore_hasm]; [ignore_hasz]
     keeps its default [True] *)
  tbl <- compare_datasets IGNORE_LEN_NON_TEXT_FIELDS tree_base tree_test
           "esri:DETable" "Table"
           ignore_ds_alias ignore_fld_alias ignore_domains true ;;
  acc <- report acc "Tables" "Table" "Name" tbl ;;
  rc <- compare_relationship_classes "Relationship Class" tree_base
          tree_test "esri:DERelationshipClass" ;;
  acc <- report acc "Relationship Classes" "Relationship Class" "Name" rc ;;
  '(dom, acc) <-
    (if negb ignore_domains then
       d <- compare_domains rt tree_base tree_test ;;
       acc <- report acc "Domains" "Domain" "DomainName" d ;;
       Ok (Some d, acc)
     else Ok (None, acc)) ;;
  '(topo, acc) <-
    (if negb ignore_topology then
       d <- compare_topo rt "Topology" tree_base tree_test
              "esri:DETopology" ;;
       acc <- report acc "Topologies" "Topology" "Name" d ;;
       Ok (Some d, acc)
     else Ok (None, acc)) ;;
  attr <- compare_attr_rules rt tree_base tree_test
            ["esri:DEFeatureClass"; "esri:DETable"] ;;
  acc <- report acc "Attribute Rules" "Attribute Rule" "" attr ;;
  let '(wb, save_wb) := acc in
  Ok {| warnings := warnings;
        fds_result := fds; fc_result := fc; tbl_result := tbl;
        rc_result := rc; domain_result := dom; topo_result := topo;
        attr_result := attr;
        wb := wb; save_wb := save_wb;
        saved := if save_wb then Some wb else None |}.
End Script.

(* ================================================================== *)
(** * Properties *)

(** ** Reasoning in the error monad *)

Lemma bind_ok {A B} (m : result A) (k : A -> result B) (b : B) :
  bind m k = Ok b -> exists a, m = Ok a /\ k a = Ok b.
Proof. destruct m as [a|e]; simpl; intros H; [eauto | discriminate]. Qed.

Lemma bind_raise {A B} (m : result A) (k : A -> result B) (e : exn) :
  m = Raise e -> bind m k = Raise e.
Proof. intros ->. reflexivity. Qed.

Lemma foldM_app {A S} (body : S -> A -> result S) (l1 l2 : list A) (s : S) :
  foldM body (l1 ++ l2) s = (s' <- foldM body l1 s ;; foldM body l2 s').
Proof.
  revert s. induction l1 as [|x l1 IH]; intros s; simpl; [reflexivity|].
  destruct (body s x) as [s'|e]; simpl; [apply IH | reflexivity].
Qed.

(** Takes an equation [bind m k = Ok b] apart. *)
Ltac inv_bind H :=
  let a := fresh "a" in
  let Ha := fresh "Ha" in
  apply bind_ok in H; destruct H as (a & Ha & H).

Tactic Notation "unbind" hyp(H) "as" ident(a) ident(Ha) :=
  apply bind_ok in H; destruct H as (a & Ha & H).

(** A loop invariant for [foldM]. *)
Lemma foldM_invariant {A S} (I : S -> Prop) (body : S -> A -> result S)
  (l : list A) :
  (forall s x s', In x l -> I s -> body s x = Ok s' -> I s') ->
  forall s s', I s -> foldM body l s = Ok s' -> I s'.
Proof.
  induction l as [|x l IH]; simpl; intros Hb s s' Hs H.
  - now injection H as <-.
  - inv_bind H. eapply IH; [ | | exact H].
    + intros; eapply Hb; eauto.
    + eapply Hb; eauto.
Qed.

(* ================================================================== *)
(** ** Well-formed values and reflexivity of [==] *)

(** Induction on values, with the hypothesis for every element of a list,
    tuple or dict. *)
Section PyvalInduction.
Variable P : pyval -> Prop.
Hypothesis HNone : P PNone.
Hypothesis HStr : forall s, P (PStr s).
Hypothesis HList : forall l, Forall P l -> P (PList l).
Hypothesis HTuple : forall l, Forall P l -> P (PTuple l).
Hypothesis HDict :
  forall d, Forall (fun kv => P (snd kv)) d -> P (PDict d).

Fixpoint pyval_induction (v : pyval) : P v :=
  match v with
  | PNone => HNone
  | PStr s => HStr s
  | PList l =>
      HList ((fix go (l : list pyval) : Forall P l :=
                match l with
                | [] => Forall_nil P
                | x :: l' => Forall_cons x (pyval_induction x) (go l')
                end) l)
  | PTuple l =>
      HTuple ((fix go (l : list pyval) : Forall P l :=
                 match l with
                 | [] => Forall_nil P
                 | x :: l' => Forall_cons x (pyval_induction x) (go l')
                 end) l)
  | PDict d =>
      HDict ((fix go (d : list (text * pyval))
                : Forall (fun kv => P (snd kv)) d :=
                match d with
                | [] => Forall_nil _
                | (k, w) :: d' =>
                    Forall_cons (k, w) (pyval_induction w) (go d')
                end) d)
  end.
End PyvalInduction.

(** No key occurs twice. *)
Fixpoint distinct (ks : list text) : bool :=
  match ks with
  | [] => true
  | k :: ks' => negb (existsb (text_eqb k) ks') && distinct ks'
  end.

(** A value as Python can hold it: in every dict, every key once. *)
Fixpoint wf (v : pyval) : bool :=
  match v with
  | PNone | PStr _ => true
  | PList l | PTuple l => forallb wf l
  | PDict d =>
      distinct (keys d)
      && forallb (fun kv => match kv with (_, w) => wf w end) d
  end.

Lemma seq_eqb_refl (l : list pyval) :
  Forall (fun v => wf v = true -> py_eqb v v = true) l ->
  forallb wf l = true -> seq_eqb l l = true.
Proof.
  induction 1 as [|x l Hx _ IH]; simpl; intros Hwf; [reflexivity|].
  apply andb_true_iff in Hwf as [Hw Hl].
  now rewrite Hx, IH.
Qed.

Lemma lookup_none_of_absent {V} (k : text) (d : list (text * V)) :
  existsb (text_eqb k) (keys d) = false -> lookup k d = None.
Proof.
  induction d as [|[k' v] d IH]; simpl; [reflexivity|].
  intros H. apply orb_false_iff in H as [H1 H2].
  rewrite H1. auto.
Qed.

(** Looking a later item up in a longer dict with distinct keys finds that
    item. *)
Lemma items_in_suffix (pre d : list (text * pyval)) :
  Forall (fun kv => wf (snd kv) = true -> py_eqb (snd kv) (snd kv) = true) d ->
  forallb (fun kv => match kv with (_, w) => wf w end) d = true ->
  distinct (keys (pre ++ d)) = true ->
  items_in (pre ++ d) d = true.
Proof.
  revert pre. induction d as [|[k v] d IH]; intros pre Hall Hwf Hd;
    [reflexivity|].
  simpl. inversion Hall as [|? ? Hv Hrest]; subst. simpl in Hv.
  simpl in Hwf. apply andb_true_iff in Hwf as [Hw Hwf].
  assert (Hk : lookup k (pre ++ (k, v) :: d) = Some v).
  { clear - Hd. induction pre as [|[k' v'] pre IHp]; simpl in *.
    - now rewrite text_eqb_refl.
    - apply andb_true_iff in Hd as [Hn Hd].
      apply negb_true_iff in Hn.
      unfold keys in Hn. rewrite map_app, existsb_app in Hn.
      apply orb_false_iff in Hn as [_ Hn]. simpl in Hn.
      apply orb_false_iff in Hn as [Hn _].
      destruct (text_eqb k k') eqn:E.
      + apply text_eqb_eq in E. subst k'.
        now rewrite text_eqb_refl in Hn.
      + now apply IHp. }
  rewrite Hk, (Hv Hw). simpl.
  specialize (IH (pre ++ [(k, v)])).
  rewrite <- app_assoc in IH. simpl in IH. now apply IH.
Qed.

Lemma py_eqb_refl (v : pyval) : wf v = true -> py_eqb v v = true.
Proof.
  induction v as [ | s | l IH | l IH | d IH] using pyval_induction;
    simpl wf; intros Hwf.
  - reflexivity.
  - apply String.eqb_refl.
  - rewrite py_eqb_list. now apply seq_eqb_refl.
  - rewrite py_eqb_tuple. now apply seq_eqb_refl.
  - rewrite py_eqb_dict. unfold dict_eqb.
    apply andb_true_iff in Hwf as [Hd Hw].
    rewrite Nat.eqb_refl. simpl.
    now apply (items_in_suffix []).
Qed.

Lemma dict_eqb_refl (d : list (text * pyval)) :
  wf (PDict d) = true -> dict_eqb d d = true.
Proof. intros H. rewrite <- py_eqb_dict. now apply py_eqb_refl. Qed.

(* ================================================================== *)
(** ** Sample documents *)

Definition xsi (ty : string) : list (string * string) := [("type", ty)].

(** A leaf element with a text. *)
Definition leaf (t s : string) : element := Element t [] (Some s) [].

(** An element that only has children. *)
Definition node (t : string) (c : list element) : element :=
  Element t [] None c.

Definition data_element (ty : string) (c : list element) : element :=
  Element "DataElement" (xsi ty) None c.

(** A workspace export: data elements, then the domains. *)
Definition workspace (ds doms : list element) : element :=
  node "Workspace"
    [node "WorkspaceDefinition"
       [node "Domains" doms; node "DatasetDefinitions" ds]].

(** Two relationship classes of the same name that differ in two
    properties. *)
Definition rc_elem (cardinality composite : string) : element :=
  data_element "esri:DERelationshipClass"
    [leaf "CatalogPath" "/RC=ParcelToOwner"; leaf "Name" "ParcelToOwner";
     leaf "Cardinality" cardinality; leaf "IsComposite" composite;
     leaf "KeyType" "esriRelKeyTypeSingle"].

Definition rc_doc_base : element :=
  workspace [rc_elem "esriRelCardinalityOneToOne" "false"] [].
Definition rc_doc_test : element :=
  workspace [rc_elem "esriRelCardinalityOneToMany" "true"] [].

(** Two range domains of the same name that differ in two scalar
    properties. *)
Definition range_domain (field_type merge : string) : element :=
  node "Domain"
    [leaf "DomainName" "Lanes"; leaf "FieldType" field_type;
     leaf "MergePolicy" merge; leaf "SplitPolicy" "esriSPTDefaultValue";
     leaf "MaxValue" "8"; leaf "MinValue" "1"].

Definition lanes_doc_base : element :=
  workspace [] [range_domain "esriFieldTypeSmallInteger" "esriMPTDefaultValue"].
Definition lanes_doc_test : element :=
  workspace [] [range_domain "esriFieldTypeInteger" "esriMPTSumValues"].

(** A table with one attribute rule. *)
Definition rule_doc (description : string) : element :=
  workspace
    [data_element "esri:DETable"
       [leaf "CatalogPath" "/OC=Inspections"; leaf "Name" "Inspections";
        node "AttributeRules"
          [node "AttributeRule"
             [leaf "ID" "1"; leaf "Name" "SetDate"; leaf "Type" "esriARTCalculation";
              leaf "FieldName" "INSPECTED"; leaf "Description" description;
              leaf "IsEnabled" "true"]]]]
    [].

(* ================================================================== *)
(** ** Identical collections *)

(** C1: for every category differ (domains, feature datasets, feature
    classes and tables, relationship classes, topologies, attribute rules)
    and every valid normalised collection, diffing the collection against
    itself returns the empty triple [([], {}, [])]; the dataset differ also
    leaves the store as it found it. *)
Theorem diff_of_identical_collections_is_empty
  (rt : runtime) (name : string)
  (X : list pyval) (D : list (text * pyval)) :
  wf (PList X) = true ->
  wf (PDict D) = true ->
  compare_domain_lists rt X X = Ok no_diff
  /\ compare_fds_lists name X X = Ok no_diff
  /\ compare_dataset_lists name {| ds_list_base := X; ds_list_test := X |}
     = Ok (no_diff, {| ds_list_base := X; ds_list_test := X |})
  /\ compare_rc_lists name X X = Ok no_diff
  /\ compare_topo_lists rt name X X = Ok no_diff
  /\ compare_attr_rule_dicts rt D D = Ok no_diff.
Proof.
  intros HX HD.
  pose proof (py_eqb_refl (PList X) HX) as EX.
  pose proof (dict_eqb_refl D HD) as ED.
  unfold compare_domain_lists, compare_fds_lists, compare_rc_lists,
    compare_topo_lists, compare_attr_rule_dicts, compare_dataset_lists,
    bindS, get_base, get_test, ret.
  cbn [ds_list_base ds_list_test].
  rewrite EX, ED. repeat split; reflexivity.
Qed.

Lemma diff_of_identical_collections_is_empty_witness :
  let X := [PDict [(Some "Name", PStr "Roads");
                   (Some "Fields",
                    PList [PDict [(Some "Domain", PStr "");
                                  (Some "Name", PStr "speed")]])]] in
  let D := [(Some "Roads: SetDate",
             PDict [(Some "DatasetName", PStr "Roads")])] in
  compare_domain_lists insertion_order X X = Ok no_diff
  /\ compare_fds_lists "Feature Dataset" X X = Ok no_diff
  /\ compare_dataset_lists "Feature Dataset"
       {| ds_list_base := X; ds_list_test := X |}
     = Ok (no_diff, {| ds_list_base := X; ds_list_test := X |})
  /\ compare_rc_lists "Feature Dataset" X X = Ok no_diff
  /\ compare_topo_lists insertion_order "Feature Dataset" X X = Ok no_diff
  /\ compare_attr_rule_dicts insertion_order D D = Ok no_diff.
Proof.
  intros X D.
  apply (diff_of_identical_collections_is_empty insertion_order
           "Feature Dataset" X D); reflexivity.
Defined.

(* ================================================================== *)
(** ** One triple per differing property *)

(** The relationship-class differ assigns a fresh one-element list at every
    differing property, so no mismatch list ever holds two triples. *)
Lemma rc_mismatch_lists_are_singletons (name : string)
  (base test miss add : list pyval) (rc_diff : list (text * pyval)) :
  compare_rc_lists name base test = Ok (miss, rc_diff, add) ->
  Forall (fun kv => exists t, snd kv = PList [t]) rc_diff.
Proof.
  unfold compare_rc_lists.
  destruct (py_eqb (PList base) (PList test)).
  - intros H. injection H as <- <- <-. constructor.
  - intros H. inv_bind H. destruct a as [[m dt] ad].
    inv_bind H. injection H as <- <- <-.
    revert Ha0.
    apply (foldM_invariant
             (fun d => Forall (fun kv => exists t, snd kv = PList [t]) d));
      [ | constructor].
    intros d rc d' _ Hd Hstep. unfold rc_step in Hstep.
    inv_bind Hstep. inv_bind Hstep. inv_bind Hstep.
    revert Hstep.
    apply (foldM_invariant
             (fun d => Forall (fun kv => exists t, snd kv = PList [t]) d));
      [ | exact Hd].
    intros d1 [key val] d2 _ Hd1 Hitem.
    inv_bind Hitem.
    destruct (negb (py_eqb val a3)); [ | now injection Hitem as <-].
    unfold setitem in Hitem. inv_bind Hitem. injection Hitem as <-.
    clear - Hd1. induction d1 as [|[k v] d1 IH]; simpl.
    + repeat constructor. eexists; reflexivity.
    + inversion Hd1; subst.
      destruct (text_eqb a4 k); constructor; auto.
      eexists; reflexivity.
Qed.

(** C3: two relationship classes of one name differ in [Cardinality] and in
    [IsComposite], two domains of one name differ in [FieldType] and in
    [MergePolicy]; in both cases the mismatch list holds a single triple,
    the one of the property compared last. *)
Theorem two_differing_properties_yield_one_triple :
  compare_relationship_classes "Relationship Class" rc_doc_base rc_doc_test
    "esri:DERelationshipClass"
  = Ok ([],
        [(Some "ParcelToOwner",
          PList [triple
                   (PStr "Relationship Class has mismatch IsComposite property")
                   (PStr "false") (PStr "true")])],
        [])
  /\ compare_domains insertion_order lanes_doc_base lanes_doc_test
     = Ok ([],
           [(Some "Lanes",
             PList [triple (PStr "Domain has mismatch MergePolicy property")
                      (PStr "esriMPTDefaultValue")
                      (PStr "esriMPTSumValues")])],
           []).
Proof. split; vm_compute; reflexivity. Qed.

(* ================================================================== *)
(** ** Attribute rules with the same keys *)

Lemma sort_by_text_refl (ks : list text) (l : list text) :
  sort_by (fun k => Ok (of_text k)) ks = Ok l ->
  py_eqb (PList (map of_text l)) (PList (map of_text l)) = true.
Proof.
  intros _. apply py_eqb_refl. simpl.
  induction l as [|[s|] l IH]; simpl; auto.
Qed.

(** Whenever the two normalised rule dicts have the same keys and are not
    equal, [compare_attr_rules] does not return: [attr_miss] and [attr_add]
    were never assigned. *)
Lemma attr_rules_same_keys_raise (rt : runtime)
  (base test : list (text * pyval)) :
  keys base = keys test ->
  dict_eqb base test = false ->
  is_ok (compare_attr_rule_dicts rt base test) = false.
Proof.
  intros Hk Hne. unfold compare_attr_rule_dicts. rewrite Hne, <- Hk.
  destruct (sort_by (fun k => Ok (of_text k)) (keys base)) as [l|e] eqn:E;
    cbn [bind]; [ | reflexivity].
  rewrite (sort_by_text_refl _ E). cbn [negb].
  destruct (foldM _ _ _) as [[d o]|e]; reflexivity.
Qed.

(** C4: the two documents hold the same rule [Inspections: SetDate] with
    different descriptions; [compare_attr_rules] raises
    [UnboundLocalError] for [attr_miss] instead of returning a triple. *)
Theorem attr_rules_property_mismatch_raises (rt : runtime) :
  compare_attr_rules rt (rule_doc "Stamp the date") (rule_doc "Stamps date")
    ["esri:DEFeatureClass"; "esri:DETable"]
  = Raise (UnboundLocalError "attr_miss").
Proof. vm_compute. reflexivity. Qed.

(* ================================================================== *)
(** ** Documents without a [Domains] element *)

Lemma iter_tag_nil (t : string) (tree : element) :
  Forall (fun e => tag e <> t) (iter tree) -> iter_tag t tree = [].
Proof.
  unfold iter_tag. induction 1 as [|x l Hx _ IH]; simpl; [reflexivity|].
  apply String.eqb_neq in Hx. now rewrite Hx.
Qed.

(** C10: for every document tree with no element tagged [Domains],
    [get_domain_properties] raises [UnboundLocalError] for [domain_list]
    rather than returning an empty list; [compare_domains] then raises
    whichever of its two documents is the one without the element. *)
Theorem domains_element_is_required (tree : element) :
  Forall (fun e => tag e <> "Domains") (iter tree) ->
  get_domain_properties tree = Raise (UnboundLocalError "domain_list")
  /\ (forall rt other,
        compare_domains rt tree other
        = Raise (UnboundLocalError "domain_list"))
  /\ (forall rt other, is_ok (compare_domains rt other tree) = false).
Proof.
  intros H. apply iter_tag_nil in H.
  assert (E : get_domain_properties tree
              = Raise (UnboundLocalError "domain_list")).
  { unfold get_domain_properties. rewrite H. reflexivity. }
  split; [exact E|]. split; intros rt other; unfold compare_domains.
  - now rewrite E.
  - rewrite E. destruct (get_domain_properties other); reflexivity.
Qed.

Definition doc_without_domains : element :=
  node "Workspace"
    [node "WorkspaceDefinition"
       [node "DatasetDefinitions"
          [data_element "esri:DETable" [leaf "Name" "Inspections"]]]].

Lemma domains_element_is_required_witness :
  get_domain_properties doc_without_domains
  = Raise (UnboundLocalError "domain_list")
  /\ (forall rt other,
        compare_domains rt doc_without_domains other
        = Raise (UnboundLocalError "domain_list"))
  /\ (forall rt other,
        is_ok (compare_domains rt other doc_without_domains) = false).
Proof.
  apply (domains_element_is_required doc_without_domains).
  repeat constructor; discriminate.
Defined.

(* ================================================================== *)
(** ** When the workbook is saved *)

Definition option_list {A} (o : option A) : list A :=
  match o with
  | Some a => [a]
  | None => []
  end.

(** The results of the comparisons the script ran, in the order it ran
    them. *)
Definition performed (g : globals) : list diff :=
  [fds_result g; fc_result g; tbl_result g; rc_result g]
    ++ option_list (domain_result g) ++ option_list (topo_result g)
    ++ [attr_result g].

(** The six options as the script reads them from its parameter. *)
Record options : Type := {
  opt_ds_alias : bool;
  opt_fld_alias : bool;
  opt_hasm : bool;
  opt_hasz : bool;
  opt_domains : bool;
  opt_topology : bool
}.

Definition options_read (ignore_str : string) (o : options) : Prop :=
  let ignore_dict := fst (read_ignore_str ignore_str) in
  option_of "Feature Class/Table Alias" ignore_dict = Ok (opt_ds_alias o)
  /\ option_of "Field Alias" ignore_dict = Ok (opt_fld_alias o)
  /\ option_of "Has M" ignore_dict = Ok (opt_hasm o)
  /\ option_of "Has Z" ignore_dict = Ok (opt_hasz o)
  /\ option_of "Domains" ignore_dict = Ok (opt_domains o)
  /\ option_of "Topology" ignore_dict = Ok (opt_topology o).

(** The results the script holds at its end are what the seven differs
    return on the two documents, called as the script calls them: the
    tables with [ignore_domains] in the place of [ignore_hasm], the
    domains and the topologies unless their option is set. *)
Definition compared (rt : runtime) (tree_base tree_test : element)
  (o : options) (g : globals) : Prop :=
  compare_fds "Feature Dataset" tree_base tree_test "esri:DEFeatureDataset"
  = Ok (fds_result g)
  /\ compare_datasets IGNORE_LEN_NON_TEXT_FIELDS tree_base tree_test
       "esri:DEFeatureClass" "Feature Class"
       (opt_ds_alias o) (opt_fld_alias o) (opt_hasm o) (opt_hasz o)
     = Ok (fc_result g)
  /\ compare_datasets IGNORE_LEN_NON_TEXT_FIELDS tree_base tree_test
       "esri:DETable" "Table"
       (opt_ds_alias o) (opt_fld_alias o) (opt_domains o) true
     = Ok (tbl_result g)
  /\ compare_relationship_classes "Relationship Class" tree_base tree_test
       "esri:DERelationshipClass"
     = Ok (rc_result g)
  /\ (if opt_domains o then domain_result g = None
      else exists d, compare_domains rt tree_base tree_test = Ok d
                     /\ domain_result g = Some d)
  /\ (if opt_topology o then topo_result g = None
      else exists d, compare_topo rt "Topology" tree_base tree_test
                       "esri:DETopology" = Ok d
                     /\ topo_result g = Some d)
  /\ compare_attr_rules rt tree_base tree_test
       ["esri:DEFeatureClass"; "esri:DETable"]
     = Ok (attr_result g).

(** Every comparison the script makes returns the empty triple. *)
Definition nothing_differs (rt : runtime) (tree_base tree_test : element)
  (o : options) : Prop :=
  compare_fds "Feature Dataset" tree_base tree_test "esri:DEFeatureDataset"
  = Ok no_diff
  /\ compare_datasets IGNORE_LEN_NON_TEXT_FIELDS tree_base tree_test
       "esri:DEFeatureClass" "Feature Class"
       (opt_ds_alias o) (opt_fld_alias o) (opt_hasm o) (opt_hasz o)
     = Ok no_diff
  /\ compare_datasets IGNORE_LEN_NON_TEXT_FIELDS tree_base tree_test
       "esri:DETable" "Table"
       (opt_ds_alias o) (opt_fld_alias o) (opt_domains o) true
     = Ok no_diff
  /\ compare_relationship_classes "Relationship Class" tree_base tree_test
       "esri:DERelationshipClass"
     = Ok no_diff
  /\ (opt_domains o = false ->
      compare_domains rt tree_base tree_test = Ok no_diff)
  /\ (opt_topology o = false ->
      compare_topo rt "Topology" tree_base tree_test "esri:DETopology"
      = Ok no_diff)
  /\ compare_attr_rules rt tree_base tree_test
       ["esri:DEFeatureClass"; "esri:DETable"]
     = Ok no_diff.

Lemma has_diff_false (d : diff) : has_diff d = false <-> d = no_diff.
Proof.
  destruct d as [[miss dif] add]. unfold no_diff. simpl.
  destruct miss, dif, add; simpl; split; intros H;
    try discriminate; reflexivity.
Qed.

Lemma write_results_adds_a_sheet (rt : runtime) (w w' : workbook)
  (sheet_name item_type dict_key : string) (d : diff) :
  write_results_to_xls rt w sheet_name item_type dict_key d = Ok w' ->
  List.length w' = S (List.length w).
Proof.
  unfold write_results_to_xls. destruct d as [[miss dif] add].
  intros H. do 3 inv_bind H. destruct a1 as [ws n].
  inv_bind H. destruct a1 as [ws' n'].
  injection H as <-. rewrite length_app. simpl. lia.
Qed.

Lemma report_spec (rt : runtime) (acc acc' : workbook * bool)
  (sheet_name item_type dict_key : string) (d : diff) :
  report rt acc sheet_name item_type dict_key d = Ok acc' ->
  snd acc' = snd acc || has_diff d
  /\ List.length (fst acc')
     = List.length (fst acc) + List.length (filter has_diff [d]).
Proof.
  unfold report. destruct acc as [w b]. simpl.
  destruct (has_diff d) eqn:E.
  - intros H. inv_bind H. injection H as <-. simpl.
    apply write_results_adds_a_sheet in Ha.
    rewrite orb_true_r. split; [reflexivity | lia].
  - intros H. injection H as <-. simpl.
    rewrite orb_false_r. split; [reflexivity | lia].
Qed.

(** A result that is empty is not reported. *)
Lemma report_nothing (rt : runtime) (acc : workbook * bool)
  (sheet_name item_type dict_key : string) :
  report rt acc sheet_name item_type dict_key no_diff = Ok acc.
Proof. now destruct acc. Qed.

(** The results the script ends with are those of the differs. *)
Lemma main_compared (rt : runtime) (tree_base tree_test : element)
  (ignore_str : string) (g : globals) :
  main rt tree_base tree_test ignore_str = Ok g ->
  exists o, options_read ignore_str o /\ compared rt tree_base tree_test o g.
Proof.
  unfold main, options_read.
  destruct (read_ignore_str ignore_str) as [ignore_dict ws] eqn:Eread.
  cbn [fst]. intros H.
  unbind H as a H1. unbind H as fa H2. unbind H as hm H3.
  unbind H as hz H4. unbind H as dm H5. unbind H as tp H6.
  unbind H as fds Hfds. unbind H as acc1 R1.
  unbind H as fc Hfc. unbind H as acc2 R2.
  unbind H as tbl Htbl. unbind H as acc3 R3.
  unbind H as rc Hrc. unbind H as acc4 R4.
  unbind H as x5 R5. destruct x5 as [dom acc5].
  unbind H as x6 R6. destruct x6 as [topo acc6].
  unbind H as attr Hattr. unbind H as acc7 R7.
  destruct acc7 as [w b]. injection H as <-.
  exists {| opt_ds_alias := a; opt_fld_alias := fa; opt_hasm := hm;
            opt_hasz := hz; opt_domains := dm; opt_topology := tp |}.
  unfold compared.
  cbn [opt_ds_alias opt_fld_alias opt_hasm opt_hasz opt_domains opt_topology
       fds_result fc_result tbl_result rc_result domain_result topo_result
       attr_result].
  split; [repeat split; assumption|].
  do 4 (split; [assumption|]).
  split; [|split; [|assumption]].
  - destruct dm; cbn [negb] in R5.
    + now injection R5 as <- _.
    + unbind R5 as d Hd. unbind R5 as acc R. injection R5 as <- _.
      now exists d.
  - destruct tp; cbn [negb] in R6.
    + now injection R6 as <- _.
    + unbind R6 as d Hd. unbind R6 as acc R. injection R6 as <- _.
      now exists d.
Qed.

(** The flag and the number of sheets after the whole script, in terms of
    the results of the comparisons it ran. *)
Lemma main_flag_and_sheets (rt : runtime) (tree_base tree_test : element)
  (ignore_str : string) (g : globals) :
  main rt tree_base tree_test ignore_str = Ok g ->
  save_wb g = existsb has_diff (performed g)
  /\ List.length (wb g) = List.length (filter has_diff (performed g))
  /\ saved g = (if save_wb g then Some (wb g) else None)
  /\ (ignore_str = "" -> List.length (performed g) = 7).
Proof.
  unfold main.
  destruct (read_ignore_str ignore_str) as [ignore_dict ws] eqn:Eread.
  intros H.
  unbind H as ignore_ds_alias H1. unbind H as ignore_fld_alias H2.
  unbind H as ignore_hasm H3. unbind H as ignore_hasz H4.
  unbind H as ignore_domains Hdom. unbind H as ignore_topology Htopo.
  unbind H as fds Hfds.
  unbind H as acc1 R1. apply report_spec in R1 as [F1 L1].
  cbn [fst snd List.length orb] in F1, L1.
  unbind H as fc Hfc.
  unbind H as acc2 R2. apply report_spec in R2 as [F2 L2].
  unbind H as tbl Htbl.
  unbind H as acc3 R3. apply report_spec in R3 as [F3 L3].
  unbind H as rc Hrc.
  unbind H as acc4 R4. apply report_spec in R4 as [F4 L4].
  unbind H as x5 R5. destruct x5 as [dom acc5].
  unbind H as x6 R6. destruct x6 as [topo acc6].
  unbind H as attr Hattr.
  unbind H as acc7 R7. apply report_spec in R7 as [F7 L7].
  destruct acc7 as [w b]. injection H as <-.
  unfold performed. cbn [fds_result fc_result tbl_result rc_result
    domain_result topo_result attr_result wb save_wb saved fst snd] in *.
  assert (F5 : snd acc5 = snd acc4 || existsb has_diff (option_list dom)
               /\ List.length (fst acc5)
                  = List.length (fst acc4)
                    + List.length (filter has_diff (option_list dom))
               /\ (ignore_domains = false -> dom <> None)).
  { destruct (negb ignore_domains) eqn:E.
    - unbind R5 as d Hd. unbind R5 as acc R. injection R5 as <- <-.
      apply report_spec in R as [F L]. simpl.
      rewrite orb_false_r. repeat split; auto. discriminate.
    - injection R5 as <- <-. simpl. rewrite orb_false_r.
      repeat split; auto.
      intros ->. discriminate. }
  assert (F6 : snd acc6 = snd acc5 || existsb has_diff (option_list topo)
               /\ List.length (fst acc6)
                  = List.length (fst acc5)
                    + List.length (filter has_diff (option_list topo))
               /\ (ignore_topology = false -> topo <> None)).
  { destruct (negb ignore_topology) eqn:E.
    - unbind R6 as d Hd. unbind R6 as acc R. injection R6 as <- <-.
      apply report_spec in R as [F L]. simpl.
      rewrite orb_false_r. repeat split; auto. discriminate.
    - injection R6 as <- <-. simpl. rewrite orb_false_r.
      repeat split; auto.
      intros ->. discriminate. }
  destruct F5 as (F5 & L5 & D5). destruct F6 as (F6 & L6 & D6).
  repeat split.
  - rewrite F7, F6, F5, F4, F3, F2, F1.
    cbn [existsb app]. rewrite !existsb_app. cbn [existsb].
    rewrite !orb_false_r, !orb_assoc. reflexivity.
  - change ([fds; fc; tbl; rc] ++ option_list dom ++ option_list topo
                ++ [attr])
      with ([fds] ++ [fc] ++ [tbl] ++ [rc] ++ option_list dom
              ++ option_list topo ++ [attr]).
    rewrite !filter_app, !length_app. lia.
  - intros ->. cbn in Eread. injection Eread as <- <-.
    cbn in Hdom, Htopo. injection Hdom as <-. injection Htopo as <-.
    destruct dom; [ | now elim D5]. destruct topo; [ | now elim D6].
    reflexivity.
Qed.

(** When no comparison finds a difference the script runs to its end
    with an empty workbook and the flag unset. *)
Lemma main_without_differences (rt : runtime)
  (tree_base tree_test : element) (ignore_str : string) (o : options) :
  options_read ignore_str o ->
  nothing_differs rt tree_base tree_test o ->
  exists g,
    main rt tree_base tree_test ignore_str = Ok g
    /\ wb g = [] /\ save_wb g = false /\ saved g = None.
Proof.
  unfold options_read, nothing_differs, main.
  destruct (read_ignore_str ignore_str) as [ignore_dict ws]. cbn [fst].
  intros (O1 & O2 & O3 & O4 & O5 & O6) (C1 & C2 & C3 & C4 & C5 & C6 & C7).
  rewrite O1, O2, O3, O4, O5, O6. cbn [bind].
  rewrite C1. cbn [bind]. rewrite report_nothing. cbn [bind].
  rewrite C2. cbn [bind]. rewrite report_nothing. cbn [bind].
  rewrite C3. cbn [bind]. rewrite report_nothing. cbn [bind].
  rewrite C4. cbn [bind]. rewrite report_nothing. cbn [bind].
  destruct (opt_domains o) eqn:Ed; cbn [negb bind];
    [|rewrite (C5 eq_refl); cbn [bind]; rewrite report_nothing;
      cbn [bind]];
    (destruct (opt_topology o) eqn:Et; cbn [negb bind];
     [|rewrite (C6 eq_refl); cbn [bind]; rewrite report_nothing;
       cbn [bind]]);
    rewrite C7; cbn [bind]; rewrite report_nothing; cbn [bind];
    eexists; (split; [reflexivity|]); repeat split.
Qed.

(** C5, as far as it holds. Whenever the script runs to its end, the
    results it holds are those of the seven differs on the two documents
    (six or five when [Domains] or [Topology] is ignored), and the
    workbook is saved exactly when one of them is not the empty triple;
    the saved workbook has one sheet per such result, so it is never
    empty. When every comparison returns the empty triple, the script
    does run to its end, the flag stays false and nothing is saved. *)
Theorem workbook_saved_iff_a_category_differs
  (rt : runtime) (tree_base tree_test : element) (ignore_str : string) :
  (forall g,
      main rt tree_base tree_test ignore_str = Ok g ->
      (exists o, options_read ignore_str o
                 /\ compared rt tree_base tree_test o g)
      /\ (saved g <> None
          <-> exists d, In d (performed g) /\ d <> no_diff)
      /\ (save_wb g = true <-> saved g <> None)
      /\ (forall w, saved g = Some w ->
                    w = wb g /\ w <> []
                    /\ List.length w
                       = List.length (filter has_diff (performed g)))
      /\ (ignore_str = "" -> List.length (performed g) = 7))
  /\ (forall o,
        options_read ignore_str o ->
        nothing_differs rt tree_base tree_test o ->
        exists g,
          main rt tree_base tree_test ignore_str = Ok g
          /\ save_wb g = false /\ saved g = None).
Proof.
  split.
  - intros g H. split; [now apply main_compared|].
    apply main_flag_and_sheets in H as (F & L & S & N).
    assert (E : existsb has_diff (performed g) = true
                <-> exists d, In d (performed g) /\ d <> no_diff).
    { rewrite existsb_exists.
      split; intros (d & Hin & Hd); exists d; split; auto.
      - intros Hn. apply has_diff_false in Hn. congruence.
      - destruct (has_diff d) eqn:Hd'; [reflexivity|].
        apply has_diff_false in Hd'. contradiction. }
    destruct (save_wb g) eqn:Es; rewrite S.
    + split; [|split; [|split; [|exact N]]].
      * rewrite <- E, <- F. split; [reflexivity | discriminate].
      * split; [discriminate | reflexivity].
      * intros w Hw. injection Hw as <-.
        split; [reflexivity|]. split; [|exact L].
        intros Hnil. rewrite Hnil in L. cbn [List.length] in L.
        symmetry in L. apply length_zero_iff_nil in L.
        assert (X : existsb has_diff (performed g) = true) by congruence.
        apply existsb_exists in X as (d & Hin & Hd).
        assert (Hf : In d (filter has_diff (performed g)))
          by (apply filter_In; auto).
        rewrite L in Hf. contradiction.
    + split; [|split; [|split; [|exact N]]].
      * rewrite <- E, <- F. split; [intros C; now elim C | discriminate].
      * split; [discriminate | intros C; now elim C].
      * discriminate.
  - intros o Ho Hn.
    destruct (main_without_differences Ho Hn) as (g & Hg & _ & Hs & Hv).
    now exists g.
Qed.

(** A document with one feature class and the [Status] domain. *)
Definition status_domain (second : string) : element :=
  node "Domain"
    [leaf "DomainName" "Status"; leaf "FieldType" "esriFieldTypeInteger";
     leaf "MergePolicy" "esriMPTDefaultValue";
     leaf "SplitPolicy" "esriSPTDefaultValue";
     node "CodedValues"
       [node "CodedValue" [leaf "Name" "Active"; leaf "Code" "1"];
        node "CodedValue" [leaf "Name" second; leaf "Code" "2"]]].

Definition status_doc (second : string) : element :=
  workspace [] [status_domain second].

(** A table with an attribute rule, and the [Status] domain. *)
Definition inspections_doc (description second : string) : element :=
  workspace
    [data_element "esri:DETable"
       [leaf "CatalogPath" "/OC=Inspections"; leaf "Name" "Inspections";
        node "AttributeRules"
          [node "AttributeRule"
             [leaf "ID" "1"; leaf "Name" "SetDate";
              leaf "Type" "esriARTCalculation";
              leaf "FieldName" "INSPECTED"; leaf "Description" description;
              leaf "IsEnabled" "true"]]]]
    [status_domain second].

(** C5, as stated, fails: the domains of the two documents differ, so one
    of the seven comparisons returns a result that is not empty; the
    comparison of the attribute rules, which comes last, raises, and the
    script ends before it saves a workbook. *)
Lemma a_category_differs_and_nothing_is_saved :
  let base := inspections_doc "Sets the date" "Inactive" in
  let test := inspections_doc "Sets the day" "Retired" in
  (exists d, compare_domains insertion_order base test = Ok d
             /\ d <> no_diff)
  /\ main insertion_order base test ""
     = Raise (UnboundLocalError "attr_miss")
  /\ forall g, main insertion_order base test "" <> Ok g.
Proof.
  intros base test.
  assert (E : main insertion_order base test ""
              = Raise (UnboundLocalError "attr_miss"))
    by (vm_compute; reflexivity).
  split; [|split; [exact E | intros g; rewrite E; discriminate]].
  eexists. split; [vm_compute; reflexivity | discriminate].
Qed.

Lemma workbook_saved_iff_a_category_differs_witness :
  (exists g,
      main insertion_order (status_doc "Inactive") (status_doc "Retired") ""
      = Ok g
      /\ (exists d, In d (performed g) /\ d <> no_diff)
      /\ (exists w, saved g = Some w /\ List.length w = 1)
      /\ List.length (performed g) = 7)
  /\ (exists g,
        main insertion_order (status_doc "Inactive") (status_doc "Inactive")
          ""
        = Ok g
        /\ save_wb g = false /\ saved g = None).
Proof.
  split.
  - destruct (main insertion_order (status_doc "Inactive")
                (status_doc "Retired") "") as [g|e] eqn:E;
      [ | vm_compute in E; discriminate].
    exists g. split; [reflexivity|].
    destruct (proj1 (workbook_saved_iff_a_category_differs insertion_order
                       (status_doc "Inactive") (status_doc "Retired") "")
                g E)
      as (_ & A & B & C & N).
    assert (S : saved g <> None).
    { vm_compute in E. injection E as <-. discriminate. }
    split; [now apply A|]. split; [|now apply N].
    destruct (saved g) as [w|] eqn:Ew; [|now elim S].
    exists w. split; [reflexivity|].
    destruct (C w eq_refl) as (_ & _ & L). rewrite L.
    vm_compute in E. injection E as <-. reflexivity.
  - apply (proj2 (workbook_saved_iff_a_category_differs insertion_order
                    (status_doc "Inactive") (status_doc "Inactive") "")
             {| opt_ds_alias := false; opt_fld_alias := false;
                opt_hasm := false; opt_hasz := false;
                opt_domains := false; opt_topology := false |}).
    + repeat split.
    + repeat split; try (intros _); vm_compute; reflexivity.
Defined.

(* ================================================================== *)
(** ** What [compare_datasets] does to the two collections *)

Lemma filterM_acc {A} (p : A -> result bool) (l acc r : list A) :
  foldM (fun acc x => b <- p x ;; Ok (if b then acc ++ [x] else acc)) l acc
  = Ok r ->
  forall x, In x r -> In x acc \/ (In x l /\ p x = Ok true).
Proof.
  revert acc. induction l as [|y l IH]; simpl; intros acc H x Hx.
  - injection H as <-. now left.
  - unbind H as acc' Hy. unbind Hy as b Hb. injection Hy as <-.
    destruct (IH _ H x Hx) as [Hin | [Hin Hp]].
    + destruct b; [ | now left].
      apply in_app_or in Hin as [Hin | [<- | []]]; [now left | right; auto].
    + right; auto.
Qed.

Lemma filterM_In {A} (p : A -> result bool) (l r : list A) (x : A) :
  filterM p l = Ok r -> In x r -> In x l /\ p x = Ok true.
Proof.
  intros H Hx. destruct (filterM_acc _ _ _ H x Hx) as [[] | ?]; assumption.
Qed.

Lemma base_entry_In (key : string) (base : list pyval) (n b : pyval) :
  base_entry key base n = Ok b -> In b base.
Proof.
  unfold base_entry. intros H. unbind H as same Hs.
  destruct same as [|x same]; simpl in H; [discriminate|].
  injection H as <-.
  apply (filterM_In _ _ x Hs). now left.
Qed.

Section Frame.
(** The base collection the differ was started with. *)
Variable B : list pyval.

(** [x] is additional: some dataset of base has, under [list_key], a list
    none of whose entries carries the name of [x]. *)
Definition additional (list_key name_key : string) (x : pyval) : Prop :=
  exists b vb lb names n,
    In b B
    /\ getitem b (Some list_key) = Ok vb
    /\ py_iter vb = Ok lb
    /\ mapM (itemgetter name_key) lb = Ok names
    /\ getitem x (Some name_key) = Ok n
    /\ py_in n names = false.

(** What [remove] takes out: an entry equal to an additional one. *)
Definition dropped (list_key name_key : string) (y : pyval) : Prop :=
  exists x, py_eqb y x = true /\ additional list_key name_key x.

(** [pruned P l l']: [l'] is [l] without some entries that satisfy [P]. *)
Inductive pruned (P : pyval -> Prop) : list pyval -> list pyval -> Prop :=
| pruned_nil : pruned P [] []
| pruned_keep (x : pyval) (l l' : list pyval) :
    pruned P l l' -> pruned P (x :: l) (x :: l')
| pruned_drop (y : pyval) (l l' : list pyval) :
    P y -> pruned P l l' -> pruned P (y :: l) l'.

(** The list-valued properties the differ removes from, with the key that
    names their entries. *)
Definition list_properties : list (string * string) :=
  [("Fields", "Name"); ("Subtypes", "SubtypeName")].

(** An item of a test dataset before and after: same key, and the same
    value unless it is the [Fields] or [Subtypes] list, which may have lost
    additional entries. *)
Definition item_pruned (kv kv' : text * pyval) : Prop :=
  fst kv' = fst kv
  /\ (snd kv' = snd kv
      \/ exists list_key name_key l l',
           In (list_key, name_key) list_properties
           /\ fst kv = Some list_key
           /\ snd kv = PList l /\ snd kv' = PList l'
           /\ pruned (dropped list_key name_key) l l').

Definition dataset_pruned (d d' : pyval) : Prop :=
  d' = d
  \/ exists its its',
       d = PDict its /\ d' = PDict its' /\ Forall2 item_pruned its its'.

(** The store before and after: base untouched, test pruned. *)
Definition frame (s s' : store) : Prop :=
  ds_list_base s' = ds_list_base s
  /\ Forall2 dataset_pruned (ds_list_test s) (ds_list_test s').

Lemma pruned_refl P l : pruned P l l.
Proof. induction l; constructor; auto. Qed.

Lemma pruned_trans P l1 l2 l3 :
  pruned P l1 l2 -> pruned P l2 l3 -> pruned P l1 l3.
Proof.
  intros H. revert l3. induction H; intros l3 H3.
  - exact H3.
  - inversion H3; subst; constructor; auto.
  - apply pruned_drop; auto.
Qed.

Lemma item_pruned_refl kv : item_pruned kv kv.
Proof. split; [reflexivity | now left]. Qed.

Lemma item_pruned_trans a b c :
  item_pruned a b -> item_pruned b c -> item_pruned a c.
Proof.
  intros [K1 V1] [K2 V2]. split; [congruence|].
  destruct V1 as [E1 | (lk & nk & l & l' & Hin & Hk & Hl & Hl' & Hp)].
  - destruct V2 as [E2 | (lk & nk & l & l' & Hin & Hk & Hl & Hl' & Hp)].
    + left; congruence.
    + right. exists lk, nk, l, l'. repeat split; auto; congruence.
  - destruct V2 as [E2 | (lk2 & nk2 & m & m' & Hin2 & Hk2 & Hm & Hm' & Hp2)].
    + right. exists lk, nk, l, l'. repeat split; auto; congruence.
    + right. rewrite K1, Hk in Hk2. injection Hk2 as <-.
      assert (nk2 = nk).
      { clear - Hin Hin2. unfold list_properties in *. simpl in *.
        destruct Hin as [E | [E | []]], Hin2 as [E2 | [E2 | []]];
          congruence. }
      subst nk2. rewrite Hl' in Hm. injection Hm as <-.
      exists lk, nk, l, m'. repeat split; auto.
      eapply pruned_trans; eauto.
Qed.

Lemma Forall2_refl_of {A} (R : A -> A -> Prop) (l : list A) :
  (forall x, R x x) -> Forall2 R l l.
Proof. intros H. induction l; constructor; auto. Qed.

Lemma Forall2_trans_of {A} (R : A -> A -> Prop) (l1 l2 l3 : list A) :
  (forall a b c, R a b -> R b c -> R a c) ->
  Forall2 R l1 l2 -> Forall2 R l2 l3 -> Forall2 R l1 l3.
Proof.
  intros HT H. revert l3. induction H; intros l3 H3; inversion H3; subst;
    constructor; eauto.
Qed.

Lemma dataset_pruned_refl d : dataset_pruned d d.
Proof. now left. Qed.

Lemma dataset_pruned_trans a b c :
  dataset_pruned a b -> dataset_pruned b c -> dataset_pruned a c.
Proof.
  intros [-> | (i1 & i1' & -> & -> & F1)]; [auto|].
  intros [-> | (i2 & i2' & E & -> & F2)].
  - right. eauto.
  - injection E as <-. right. exists i1, i2'. repeat split.
    eapply Forall2_trans_of; eauto using item_pruned_trans.
Qed.

Lemma frame_refl s : frame s s.
Proof.
  split; [reflexivity|].
  apply Forall2_refl_of, dataset_pruned_refl.
Qed.

Lemma frame_trans s1 s2 s3 : frame s1 s2 -> frame s2 s3 -> frame s1 s3.
Proof.
  intros [B1 T1] [B2 T2]. split; [congruence|].
  eapply Forall2_trans_of; eauto using dataset_pruned_trans.
Qed.

(** A computation that, started on the base collection [B], only prunes. *)
Definition prunes {A} (m : stM A) : Prop :=
  forall s a s', ds_list_base s = B -> m s = Ok (a, s') -> frame s s'.

Lemma prunes_ret {A} (a : A) : prunes (ret a).
Proof. intros s x s' _ H. injection H as <- <-. apply frame_refl. Qed.

Lemma prunes_lift {A} (m : result A) : prunes (lift m).
Proof.
  intros s x s' _ H. unfold lift in H. destruct m; [ | discriminate].
  injection H as <- <-. apply frame_refl.
Qed.

Lemma prunes_bind {A C} (m : stM A) (k : A -> stM C) :
  prunes m -> (forall a, prunes (k a)) -> prunes (bindS m k).
Proof.
  intros Hm Hk s c s' HB H. unfold bindS in H.
  destruct (m s) as [[a s1]|e] eqn:E; [ | discriminate].
  pose proof (Hm _ _ _ HB E) as F1.
  eapply frame_trans; [exact F1|].
  eapply Hk; [ | exact H]. destruct F1 as [F1 _]. congruence.
Qed.

(** Binding a pure step keeps what it returned at hand. *)
Lemma prunes_bind_lift {A C} (m : result A) (k : A -> stM C) :
  (forall a, m = Ok a -> prunes (k a)) -> prunes (bindS (lift m) k).
Proof.
  intros Hk s c s' HB H. unfold bindS, lift in H.
  destruct m as [a|e]; [ | discriminate].
  eapply Hk; eauto.
Qed.

Lemma prunes_bind_get_base {C} (k : list pyval -> stM C) :
  prunes (k B) -> prunes (bindS get_base k).
Proof.
  intros Hk s c s' HB H. unfold bindS, get_base in H. rewrite HB in H.
  eapply Hk; eauto.
Qed.

Lemma prunes_bind_get_test {C} (k : list pyval -> stM C) :
  (forall t, prunes (k t)) -> prunes (bindS get_test k).
Proof.
  intros Hk s c s' HB H. unfold bindS, get_test in H. eapply Hk; eauto.
Qed.

Lemma prunes_bind_deref {C} (i : nat) (k : pyval -> stM C) :
  (forall v, prunes (k v)) -> prunes (bindS (deref i) k).
Proof.
  intros Hk s c s' HB H. unfold bindS, deref in H.
  destruct (nth_error (ds_list_test s) i); [ | discriminate].
  eapply Hk; eauto.
Qed.

Lemma prunes_foldS {A S} (body : S -> A -> stM S) (l : list A) :
  (forall acc x, In x l -> prunes (body acc x)) ->
  forall acc, prunes (foldS body l acc).
Proof.
  induction l as [|x l IH]; intros Hb acc; simpl.
  - apply prunes_ret.
  - apply prunes_bind; [apply Hb; now left|].
    intros acc'. apply IH. intros; apply Hb; now right.
Qed.

Lemma list_remove_pruned (P : pyval -> Prop) (x : pyval)
  (l l' : list pyval) :
  (forall y, py_eqb y x = true -> P y) ->
  list_remove x l = Ok l' -> pruned P l l'.
Proof.
  intros HP. revert l'. induction l as [|y l IH]; simpl; intros l' H;
    [discriminate|].
  destruct (py_eqb y x) eqn:E.
  - injection H as <-. apply pruned_drop; [auto | apply pruned_refl].
  - unbind H as r Hr. injection H as <-. apply pruned_keep; auto.
Qed.

Lemma assign_item_pruned (list_key name_key : string)
  (l l' : list pyval) (its : list (text * pyval)) :
  In (list_key, name_key) list_properties ->
  lookup (Some list_key) its = Some (PList l) ->
  pruned (dropped list_key name_key) l l' ->
  Forall2 item_pruned its (assign (Some list_key) (PList l') its).
Proof.
  intros Hin. induction its as [|[k v] its IH]; cbn [lookup assign];
    intros Hl Hp; [discriminate|].
  destruct (text_eqb (Some list_key) k) eqn:E.
  - apply text_eqb_eq in E. subst k. injection Hl as ->.
    constructor; [ | apply Forall2_refl_of, item_pruned_refl].
    split; [reflexivity|]. right.
    exists list_key, name_key, l, l'. repeat split; auto.
  - constructor; [apply item_pruned_refl | auto].
Qed.

Lemma remove_in_pruned (list_key name_key : string) (x ds ds' : pyval) :
  In (list_key, name_key) list_properties ->
  additional list_key name_key x ->
  remove_in (Some list_key) x ds = Ok ds' -> dataset_pruned ds ds'.
Proof.
  intros Hin Hadd H. unfold remove_in in H.
  unbind H as its Hits. unbind H as val Hval.
  destruct ds as [ | | | |d]; try discriminate.
  simpl in Hits. injection Hits as <-.
  simpl in Hval. destruct (lookup (Some list_key) d) as [w|] eqn:El;
    [ | discriminate].
  injection Hval as <-.
  destruct w as [ | |l| | ]; try discriminate.
  unbind H as l' Hl'. injection H as <-.
  right. exists d, (assign (Some list_key) (PList l') d).
  repeat split.
  eapply assign_item_pruned; eauto.
  eapply list_remove_pruned; [ | exact Hl'].
  intros y Hy. exists x. auto.
Qed.

Lemma update_nth_Forall2 {A} (R : A -> A -> Prop) (f : A -> result A)
  (i : nat) (l l' : list A) :
  (forall x, R x x) ->
  (forall x y, f x = Ok y -> R x y) ->
  update_nth i f l = Ok l' -> Forall2 R l l'.
Proof.
  intros Hr Hf. revert i l'.
  induction l as [|x l IH]; intros i l' H; simpl in H.
  - destruct i; discriminate.
  - destruct i as [|j].
    + unbind H as y Hy. injection H as <-.
      constructor; [auto | now apply Forall2_refl_of].
    + unbind H as r Hr'. injection H as <-.
      constructor; eauto.
Qed.

Lemma prunes_test_remove (list_key name_key : string) (i : nat)
  (x : pyval) :
  In (list_key, name_key) list_properties ->
  additional list_key name_key x ->
  prunes (test_remove i (Some list_key) x).
Proof.
  intros Hin Hadd s a s' _ H. unfold test_remove in H.
  destruct (update_nth i _ (ds_list_test s)) as [l|e] eqn:E;
    [ | discriminate].
  injection H as _ <-. split; [reflexivity|]. simpl.
  eapply update_nth_Forall2; [ | | exact E].
  - apply dataset_pruned_refl.
  - intros d d' Hd. eapply remove_in_pruned; eauto.
Qed.

(** The entries [filterM (name_not_in ...)] keeps are additional. *)
Lemma kept_is_additional (list_key name_key : string)
  (ds_base vb : pyval) (lb names val_list adds : list pyval) (x : pyval) :
  In ds_base B ->
  getitem ds_base (Some list_key) = Ok vb ->
  py_iter vb = Ok lb ->
  mapM (itemgetter name_key) lb = Ok names ->
  filterM (name_not_in name_key names) val_list = Ok adds ->
  In x adds -> additional list_key name_key x.
Proof.
  intros HB Hvb Hlb Hn Hf Hx.
  destruct (filterM_In _ _ _ Hf Hx) as [_ Hp].
  unfold name_not_in in Hp. unbind Hp as n Hgn. injection Hp as Hp.
  apply negb_true_iff in Hp.
  exists ds_base, vb, lb, names, n. repeat split; auto.
Qed.

Lemma prunes_subtypes_branch (i : nat) (ds_name ds_base val : pyval)
  (ds_diff : list (text * pyval)) :
  In ds_base B ->
  prunes (subtypes_branch i ds_name ds_base val ds_diff).
Proof.
  intros HB. unfold subtypes_branch.
  apply prunes_bind_lift; intros st_base Hst_base.
  apply prunes_bind_lift; intros val_list Hval.
  apply prunes_bind_lift; intros names_test Hnt.
  apply prunes_bind_lift; intros st_base_list Hbl.
  apply prunes_bind_lift; intros names_base Hnb.
  apply prunes_bind_lift; intros st_miss Hmiss.
  apply prunes_bind_lift; intros st_add Hadd.
  apply prunes_bind; [ | intros; apply prunes_lift].
  apply prunes_foldS. intros acc st Hin.
  apply prunes_bind; [ | intros; apply prunes_lift].
  apply (prunes_test_remove (name_key := "SubtypeName"));
    [right; now left|].
  eapply kept_is_additional; eauto.
Qed.

Lemma prunes_fields_branch (name : string) (i : nat)
  (ds_name ds_base val : pyval) (ds_diff : list (text * pyval)) :
  In ds_base B ->
  prunes (fields_branch i ds_name ds_base val ds_diff).
Proof.
  intros HB. unfold fields_branch.
  apply prunes_bind_lift; intros flds_base Hflds_base.
  apply prunes_bind_lift; intros val_list Hval.
  apply prunes_bind_lift; intros names_test Hnt.
  apply prunes_bind_lift; intros flds_base_list Hbl.
  apply prunes_bind_lift; intros names_base Hnb.
  apply prunes_bind_lift; intros flds_miss Hmiss.
  apply prunes_bind_lift; intros flds_add Hadd.
  apply prunes_bind.
  - apply prunes_foldS. intros acc fld Hin.
    apply prunes_bind; [ | intros; apply prunes_lift].
    apply (prunes_test_remove (name_key := "Name")); [now left|].
    eapply kept_is_additional; eauto.
  - intros d1. apply prunes_bind; [apply prunes_lift|]. intros d2.
    apply prunes_bind_deref. intros ds.
    apply prunes_bind; [apply prunes_lift|]. intros val_now.
    apply prunes_lift.
Qed.

Lemma prunes_dataset_step (name : string) (ds_diff : list (text * pyval))
  (i : nat) : prunes (dataset_step name ds_diff i).
Proof.
  unfold dataset_step.
  apply prunes_bind_deref. intros ds.
  apply prunes_bind_lift; intros ds_name Hname.
  apply prunes_bind_get_base.
  apply prunes_bind_lift; intros same Hsame.
  apply prunes_bind_lift; intros ds_base Hbase.
  assert (HB : In ds_base B).
  { apply (base_entry_In "Name" B ds_name). unfold base_entry.
    rewrite Hsame. exact Hbase. }
  apply prunes_bind_lift; intros its Hits.
  apply prunes_foldS. intros acc key _.
  unfold dataset_item_step.
  apply prunes_bind_deref. intros ds'.
  apply prunes_bind_lift; intros val Hval.
  destruct (text_eqb key (Some "SubtypeInfo")); [apply prunes_lift|].
  destruct (text_eqb key (Some "Subtypes"));
    [now apply prunes_subtypes_branch|].
  destruct (text_eqb key (Some "Fields"));
    [now apply prunes_fields_branch|].
  apply prunes_lift.
Qed.

Lemma prunes_compare_dataset_lists (name : string) :
  prunes (compare_dataset_lists name).
Proof.
  unfold compare_dataset_lists.
  apply prunes_bind_get_base.
  apply prunes_bind_get_test. intros test.
  destruct (py_eqb (PList B) (PList test)); [apply prunes_ret|].
  apply prunes_bind_lift; intros names_test _.
  apply prunes_bind_lift; intros names_base _.
  apply prunes_bind_lift; intros ds_miss _.
  apply prunes_bind_lift; intros ds_add _.
  apply prunes_bind_lift; intros ds_diff_test _.
  apply prunes_bind; [ | intros; apply prunes_ret].
  apply prunes_foldS. intros acc i _. apply prunes_dataset_step.
Qed.
End Frame.

(** A field as an export writes it; [extra] holds what follows [Scale]
    (for instance the [Domain] element, which comes last). *)
Definition field_elem (name type len : string) (extra : list element)
  : element :=
  Element "Field" (xsi "esri:Field") None
    ([leaf "Name" name; leaf "Type" type; leaf "IsNullable" "true";
      leaf "Length" len; leaf "Precision" "0"; leaf "Scale" "0"] ++ extra).

Definition field_domain (name : string) : element :=
  Element "Domain" (xsi "esri:CodedValueDomain") None
    [leaf "DomainName" name; leaf "FieldType" "esriFieldTypeInteger"].

(** The feature class [Roads] with the given fields. *)
Definition roads_doc (flds : list element) : element :=
  workspace
    [data_element "esri:DEFeatureClass"
       [leaf "CatalogPath" "/FC=Roads"; leaf "Name" "Roads";
        leaf "Versioned" "false"; leaf "CanVersion" "false";
        node "Fields" [node "FieldArray" flds];
        leaf "ShapeType" "esriGeometryPolyline"]]
    [].

Definition normalise (tree : element) : result (list pyval) :=
  get_dataset_properties IGNORE_LEN_NON_TEXT_FIELDS false false false false
    tree "esri:DEFeatureClass".

Definition roads_one_field : element :=
  roads_doc [field_elem "OWNER" "esriFieldTypeString" "50" []].

Definition roads_two_fields : element :=
  roads_doc [field_elem "OWNER" "esriFieldTypeString" "50" [];
             field_elem "LANES" "esriFieldTypeSmallInteger" "2" []].

(** C9, as stated, fails: test has a field that base lacks, and after the
    comparison the [Fields] list of the test dataset no longer holds it. *)
Lemma compare_datasets_changes_the_test_collection :
  exists base test r s',
    normalise roads_one_field = Ok base
    /\ normalise roads_two_fields = Ok test
    /\ compare_dataset_lists "Feature Class"
         {| ds_list_base := base; ds_list_test := test |} = Ok (r, s')
    /\ ds_list_base s' = base
    /\ ds_list_test s' <> test.
Proof.
  do 4 eexists. split; [vm_compute; reflexivity|].
  split; [vm_compute; reflexivity|].
  split; [vm_compute; reflexivity|].
  split; [reflexivity | discriminate].
Qed.

(** C9, amended: [compare_datasets] never changes the base collection; the
    test collection keeps its datasets, in order, with every property, and
    the only change is that the [Fields] and [Subtypes] lists of a test
    dataset lose entries equal to an additional one, that is one whose name
    no entry of a base dataset's list carries. *)
Theorem compare_datasets_only_prunes_test
  (name : string) (s s' : store) (r : diff) :
  compare_dataset_lists name s = Ok (r, s') ->
  ds_list_base s' = ds_list_base s
  /\ Forall2 (dataset_pruned (ds_list_base s))
       (ds_list_test s) (ds_list_test s').
Proof.
  intros H.
  exact (prunes_compare_dataset_lists (B := ds_list_base s) name
           s eq_refl H).
Qed.

Definition roads_store : store :=
  {| ds_list_base :=
       [PDict [(Some "Name", PStr "Roads");
               (Some "Fields",
                PList [PDict [(Some "Domain", PStr "");
                              (Some "Name", PStr "owner")]]);
               (Some "Subtypes", PList []);
               (Some "SubtypeInfo", PDict [(Some "", PStr "")])]];
     ds_list_test :=
       [PDict [(Some "Name", PStr "Roads");
               (Some "Fields",
                PList [PDict [(Some "Domain", PStr "");
                              (Some "Name", PStr "owner")];
                       PDict [(Some "Domain", PStr "");
                              (Some "Name", PStr "lanes")]]);
               (Some "Subtypes", PList []);
               (Some "SubtypeInfo", PDict [(Some "", PStr "")])]] |}.

Definition roads_store_after : store :=
  {| ds_list_base := ds_list_base roads_store;
     ds_list_test := ds_list_base roads_store |}.

Lemma compare_datasets_only_prunes_test_witness :
  compare_dataset_lists "Feature Class" roads_store
  = Ok (([], [(Some "Roads",
               PList [triple (PStr "Additional field") (PStr "")
                        (PStr "lanes")])], []),
        roads_store_after)
  /\ ds_list_base roads_store_after = ds_list_base roads_store
  /\ Forall2 (dataset_pruned (ds_list_base roads_store))
       (ds_list_test roads_store) (ds_list_test roads_store_after).
Proof.
  assert (E : compare_dataset_lists "Feature Class" roads_store
              = Ok (([], [(Some "Roads",
                           PList [triple (PStr "Additional field") (PStr "")
                                    (PStr "lanes")])], []),
                    roads_store_after))
    by (vm_compute; reflexivity).
  split; [exact E|].
  exact (compare_datasets_only_prunes_test "Feature Class" roads_store E).
Defined.

(* ================================================================== *)
(** ** The scenarios on sample documents *)

Definition compare_feature_classes (tree_base tree_test : element)
  : result diff :=
  compare_datasets IGNORE_LEN_NON_TEXT_FIELDS tree_base tree_test
    "esri:DEFeatureClass" "Feature Class" false false false false.



Lemma set_iter_one (rt : runtime) (A : Type) (a b : list A) (x : A) :
  set_iter rt a b [x] = [x].
Proof.
  apply Permutation_length_1_inv, Permutation_sym, set_iter_perm.
Qed.

Lemma set_iter_none (rt : runtime) (A : Type) (a b : list A) :
  set_iter rt a b [] = [].
Proof. apply Permutation_nil, Permutation_sym, set_iter_perm. Qed.

(** What the differ reports for the two [Status] domains, whatever the
    order in which the runtime iterates sets. *)
Lemma status_triple_reported (rt : runtime) :
  compare_domains rt (status_doc "Inactive") (status_doc "Retired")
  = Ok ([],
        [(Some "Status",
          PList [triple (PStr "Domain has missing CodedValues")
                   (PStr "{'2': 'Inactive'}") (PStr "{'Retired': '2'}")])],
        []).
Proof.
  unfold compare_domains.
  replace (get_domain_properties (status_doc "Inactive"))
    with (Ok [PDict
                [(Some "DomainName", PStr "Status");
                 (Some "FieldType", PStr "esriFieldTypeInteger");
                 (Some "MergePolicy", PStr "esriMPTDefaultValue");
                 (Some "SplitPolicy", PStr "esriSPTDefaultValue");
                 (Some "CodedValues",
                  PDict [(Some "Active", PStr "1");
                         (Some "Inactive", PStr "2")])]])
    by (vm_compute; reflexivity).
  replace (get_domain_properties (status_doc "Retired"))
    with (Ok [PDict
                [(Some "DomainName", PStr "Status");
                 (Some "FieldType", PStr "esriFieldTypeInteger");
                 (Some "MergePolicy", PStr "esriMPTDefaultValue");
                 (Some "SplitPolicy", PStr "esriSPTDefaultValue");
                 (Some "CodedValues",
                  PDict [(Some "Active", PStr "1");
                         (Some "Retired", PStr "2")])]])
    by (vm_compute; reflexivity).
  cbn. unfold set_difference. cbn. rewrite !set_iter_one. reflexivity.
Qed.

(** From documents to triples: [OWNER] in base and [owner] in test are
    normalised to the same name, so the differ reports neither a missing
    nor an additional field and compares the two records property by
    property. *)
Lemma owner_documents_compared :
  lower "OWNER" = lower "owner"
  /\ compare_feature_classes
       (roads_doc [field_elem "OWNER" "esriFieldTypeString" "50" []])
       (roads_doc [field_elem "owner" "esriFieldTypeString" "60" []])
     = Ok ([],
           [(Some "Roads",
             PList [triple
                      (PStr "owner field has different values for Length")
                      (PStr "50") (PStr "60")])],
           [])
  /\ compare_feature_classes
       (roads_doc [field_elem "OWNER" "esriFieldTypeString" "50" []])
       (roads_doc [field_elem "owner" "esriFieldTypeString" "50" []])
     = Ok no_diff.
Proof. repeat split; vm_compute; reflexivity. Qed.

(** From documents to triples: with [IGNORE_LEN_NON_TEXT_FIELDS] set, a
    text field and a non-text field both change their [Length]; only the
    text field's [Length] is reported. Without the flag both are. *)
Lemma length_documents_compared :
  compare_datasets true
    (roads_doc [field_elem "OWNER" "esriFieldTypeString" "50" [];
                field_elem "LANES" "esriFieldTypeSmallInteger" "2" []])
    (roads_doc [field_elem "OWNER" "esriFieldTypeString" "60" [];
                field_elem "LANES" "esriFieldTypeSmallInteger" "4" []])
    "esri:DEFeatureClass" "Feature Class" false false false false
  = Ok ([],
        [(Some "Roads",
          PList [triple (PStr "owner field has different values for Length")
                   (PStr "50") (PStr "60")])],
        [])
  /\ compare_datasets false
       (roads_doc [field_elem "OWNER" "esriFieldTypeString" "50" [];
                   field_elem "LANES" "esriFieldTypeSmallInteger" "2" []])
       (roads_doc [field_elem "OWNER" "esriFieldTypeString" "60" [];
                   field_elem "LANES" "esriFieldTypeSmallInteger" "4" []])
       "esri:DEFeatureClass" "Feature Class" false false false false
     = Ok ([],
           [(Some "Roads",
             PList [triple
                      (PStr "owner field has different values for Length")
                      (PStr "50") (PStr "60");
                    triple
                      (PStr "lanes field has different values for Length")
                      (PStr "2") (PStr "4")])],
           []).
Proof. split; vm_compute; reflexivity. Qed.


Definition roads_speed_base : element :=
  roads_doc [field_elem "SPEED" "esriFieldTypeInteger" "4"
               [field_domain "SpeedLimits"]].
Definition roads_speed_test : element :=
  roads_doc [field_elem "SPEED" "esriFieldTypeInteger" "4" []].


(** From documents to triples: the differ reports for [Roads] exactly the
    triple [("speed field has different values for Domain",
    "SpeedLimits", "")]. *)
Lemma speed_documents_compared :
  compare_feature_classes roads_speed_base roads_speed_test
  = Ok ([],
        [(Some "Roads",
          PList [triple (PStr "speed field has different values for Domain")
                   (PStr "SpeedLimits") (PStr "")])],
        []).
Proof. vm_compute. reflexivity. Qed.

(* ================================================================== *)
(** ** Dicts and the accumulation of triples *)

Lemma text_eqb_sym (a b : text) : text_eqb a b = text_eqb b a.
Proof.
  destruct a, b; simpl; auto using String.eqb_sym.
Qed.

Lemma text_eqb_neq (a b : text) : text_eqb a b = false <-> a <> b.
Proof.
  split.
  - intros H E. apply text_eqb_eq in E. congruence.
  - intros H. destruct (text_eqb a b) eqn:E; [ | reflexivity].
    apply text_eqb_eq in E. contradiction.
Qed.

Section DictFacts.
Variable V : Type.
Implicit Types (d : list (text * V)) (k : text) (v : V).

Lemma lookup_assign_same k v d : lookup k (assign k v d) = Some v.
Proof.
  induction d as [|[k' v'] d IH]; simpl.
  - now rewrite text_eqb_refl.
  - destruct (text_eqb k k') eqn:E; simpl; rewrite E; auto.
Qed.

Lemma lookup_assign_other k k' v d :
  text_eqb k k' = false -> lookup k (assign k' v d) = lookup k d.
Proof.
  intros H. induction d as [|[k2 v2] d IH]; simpl.
  - now rewrite H.
  - destruct (text_eqb k' k2) eqn:E; simpl.
    + apply text_eqb_eq in E. subst k2. now rewrite H.
    + now rewrite IH.
Qed.

Lemma assign_assign k v1 v2 d :
  assign k v2 (assign k v1 d) = assign k v2 d.
Proof.
  induction d as [|[k' v'] d IH]; simpl.
  - now rewrite text_eqb_refl.
  - destruct (text_eqb k k') eqn:E; simpl; rewrite E; [reflexivity|].
    now rewrite IH.
Qed.

Lemma keys_assign_present k v d :
  lookup k d <> None -> keys (assign k v d) = keys d.
Proof.
  induction d as [|[k' v'] d IH]; simpl; intros H.
  - now elim H.
  - destruct (text_eqb k k') eqn:E; simpl; [reflexivity|].
    f_equal. auto.
Qed.

Lemma assign_same_value k v d : lookup k d = Some v -> assign k v d = d.
Proof.
  induction d as [|[k' v'] d IH]; simpl; intros H; [discriminate|].
  destruct (text_eqb k k') eqn:E.
  - now injection H as ->.
  - f_equal. auto.
Qed.

Lemma lookup_of_item k v d :
  distinct (keys d) = true -> In (k, v) d -> lookup k d = Some v.
Proof.
  induction d as [|[k' v'] d IH]; simpl; intros Hd Hin; [contradiction|].
  apply andb_true_iff in Hd as [Hn Hd]. apply negb_true_iff in Hn.
  destruct Hin as [E | Hin].
  - injection E as -> ->. now rewrite text_eqb_refl.
  - destruct (text_eqb k k') eqn:E; [ | auto].
    apply text_eqb_eq in E. subst k'.
    assert (X : existsb (text_eqb k) (keys d) = true).
    { apply existsb_exists. exists k. split; [ | apply text_eqb_refl].
      unfold keys. change k with (fst (k, v)). now apply in_map. }
    congruence.
Qed.

Lemma lookup_some_In k v d : lookup k d = Some v -> In (k, v) d.
Proof.
  induction d as [|[k' v'] d IH]; simpl; intros H; [discriminate|].
  destruct (text_eqb k k') eqn:E.
  - apply text_eqb_eq in E. injection H as ->. subst. now left.
  - right; auto.
Qed.

Lemma lookup_none_keys k d :
  lookup k d = None <-> existsb (text_eqb k) (keys d) = false.
Proof.
  induction d as [|[k' v'] d IH]; simpl; [tauto|].
  destruct (text_eqb k k'); simpl; [ | exact IH].
  split; discriminate.
Qed.
End DictFacts.

(** The triples gathered so far for an entity. *)
Definition entry (d : list (text * pyval)) (k : text) : list pyval :=
  match lookup k d with
  | Some (PList l) => l
  | _ => []
  end.

(** The entity has no entry yet, or a list: [append] will work. *)
Definition appendable (d : list (text * pyval)) (k : text) : Prop :=
  match lookup k d with
  | Some (PList _) | None => True
  | Some _ => False
  end.

(** [d] after the triples [ts] were reported for [k], one by one. *)
Definition extend (d : list (text * pyval)) (k : text) (ts : list pyval)
  : list (text * pyval) :=
  match ts with
  | [] => d
  | _ :: _ => assign k (PList (entry d k ++ ts)) d
  end.

Lemma appendable_extend d k ts :
  appendable d k -> appendable (extend d k ts) k.
Proof.
  unfold extend. destruct ts; [auto|]. intros _.
  unfold appendable. now rewrite lookup_assign_same.
Qed.

Lemma entry_extend d k ts :
  appendable d k -> entry (extend d k ts) k = entry d k ++ ts.
Proof.
  unfold extend. destruct ts as [|t ts].
  - now rewrite app_nil_r.
  - intros _. unfold entry at 1. now rewrite lookup_assign_same.
Qed.

Lemma extend_extend d k ts1 ts2 :
  appendable d k ->
  extend (extend d k ts1) k ts2 = extend d k (ts1 ++ ts2).
Proof.
  intros Ha. destruct ts2 as [|t2 ts2].
  - now rewrite app_nil_r.
  - destruct ts1 as [|t1 ts1]; [reflexivity|].
    unfold extend at 1. rewrite entry_extend by exact Ha.
    cbn [extend app]. rewrite assign_assign, <- app_assoc. reflexivity.
Qed.

Lemma lookup_extend_other d k k' ts :
  text_eqb k' k = false -> lookup k' (extend d k ts) = lookup k' d.
Proof.
  intros H. unfold extend. destruct ts; [reflexivity|].
  now apply lookup_assign_other.
Qed.

Lemma append_or_create_extend d kv k t :
  as_key kv = Ok k -> appendable d k ->
  append_or_create d kv t = Ok (extend d k [t]).
Proof.
  intros Hk Ha. unfold append_or_create, extend, entry, appendable in *.
  rewrite Hk. cbn [bind].
  destruct (lookup k d) as [[ | |l| | ]|]; try contradiction; reflexivity.
Qed.

(** A loop that reports one triple per element. *)
Lemma report_loop_extend {A} (mk : A -> pyval) (kv : pyval) (k : text)
  (l : list A) (d : list (text * pyval)) :
  as_key kv = Ok k -> appendable d k ->
  foldM (fun d x => append_or_create d kv (mk x)) l d
  = Ok (extend d k (map mk l)).
Proof.
  intros Hk. revert d. induction l as [|x l IH]; intros d Ha; simpl.
  - reflexivity.
  - rewrite (@append_or_create_extend d kv k (mk x) Hk Ha). cbn [bind].
    rewrite IH by now apply appendable_extend.
    rewrite extend_extend by exact Ha. reflexivity.
Qed.

Lemma mapM_ok {A C} (f : A -> result C) (g : A -> C) (l : list A) :
  (forall x, In x l -> f x = Ok (g x)) -> mapM f l = Ok (map g l).
Proof.
  unfold mapM. intros H.
  enough (G : forall acc,
             foldM (fun acc x => y <- f x ;; Ok (acc ++ [y])) l acc
             = Ok (acc ++ map g l)) by apply (G []).
  induction l as [|x l IH]; intros acc; simpl.
  - now rewrite app_nil_r.
  - rewrite (H x) by now left. cbn [bind].
    rewrite IH by (intros; apply H; now right).
    now rewrite <- app_assoc.
Qed.

Lemma filterM_ok {A} (p : A -> result bool) (q : A -> bool) (l : list A) :
  (forall x, In x l -> p x = Ok (q x)) -> filterM p l = Ok (filter q l).
Proof.
  unfold filterM. intros H.
  enough (G : forall acc,
             foldM (fun acc x => b <- p x ;;
                                 Ok (if b then acc ++ [x] else acc)) l acc
             = Ok (acc ++ filter q l)) by apply (G []).
  induction l as [|x l IH]; intros acc; simpl.
  - now rewrite app_nil_r.
  - rewrite (H x) by now left. cbn [bind].
    rewrite IH by (intros; apply H; now right).
    destruct (q x); [now rewrite <- app_assoc | reflexivity].
Qed.

(** A loop each round of which reports the triples [g x]. *)
Lemma extend_loop {A} (body : list (text * pyval) -> A ->
                               result (list (text * pyval)))
  (g : A -> list pyval) (k : text) (l : list A) :
  (forall d x, In x l -> appendable d k ->
               body d x = Ok (extend d k (g x))) ->
  forall d, appendable d k ->
            foldM body l d = Ok (extend d k (flat_map g l)).
Proof.
  induction l as [|x l IH]; intros Hb d Ha; simpl.
  - reflexivity.
  - rewrite Hb by (auto; now left). cbn [bind].
    rewrite IH.
    + now rewrite extend_extend.
    + intros; apply Hb; auto. now right.
    + now apply appendable_extend.
Qed.

(* ================================================================== *)
(** ** What the [Fields] branch reports *)

(** A differing property of a field present on both sides: the field's
    name, the property, its base value and its test value. *)
Definition field_diff : Type := (pyval * text * pyval * pyval)%type.

(** The triple reported for it. *)
Definition render (x : field_diff) : pyval :=
  let '(fld_name, bk, bv, tv) := x in
  triple (PStr (py_str fld_name +++ " field has different values for "
                  +++ str_text bk))
    (PStr (py_str bv)) (PStr (py_str tv)).

(** What one item of a base field yields against the items of the test
    field: the test items of the same key and another value. *)
Definition key_diffs (fld_name : pyval)
  (test_items : list (text * pyval)) (base_item : text * pyval)
  : list field_diff :=
  flat_map (fun test_item =>
              if text_eqb (fst base_item) (fst test_item)
                 && negb (py_eqb (snd base_item) (snd test_item))
              then [(fld_name, fst base_item, snd base_item, snd test_item)]
              else [])
    test_items.

Definition items_of (f : pyval) : list (text * pyval) :=
  match f with
  | PDict d => d
  | _ => []
  end.

(** The value stored under [key], [None] when there is none. *)
Definition value_of (key : string) (f : pyval) : pyval :=
  match lookup (Some key) (items_of f) with
  | Some n => n
  | None => PNone
  end.

(** A record with a [str] under [key], as the parser builds fields. *)
Definition named (key : string) (f : pyval) : Prop :=
  exists d n, f = PDict d /\ lookup (Some key) d = Some (PStr n).

(** What a test field yields against the base fields of its name. *)
Definition field_diffs (flds_base_list : list pyval) (fld_prop : pyval)
  : list field_diff :=
  flat_map (fun flds_base =>
              if py_eqb (value_of "Name" flds_base) (value_of "Name" fld_prop)
              then flat_map (key_diffs (value_of "Name" fld_prop)
                               (items_of fld_prop))
                     (items_of flds_base)
              else [])
    flds_base_list.

Lemma map_flat_map {A B C} (f : B -> C) (g : A -> list B) (l : list A) :
  map f (flat_map g l) = flat_map (fun x => map f (g x)) l.
Proof.
  induction l as [|x l IH]; simpl; [reflexivity|].
  now rewrite map_app, IH.
Qed.

Lemma named_getitem (key : string) (f : pyval) :
  named key f -> getitem f (Some key) = Ok (value_of key f).
Proof.
  intros (d & n & -> & H). unfold value_of. simpl. now rewrite H.
Qed.

Lemma named_items (key : string) (f : pyval) :
  named key f -> items f = Ok (items_of f).
Proof. intros (d & n & -> & H). reflexivity. Qed.

Lemma field_pair_step_extend (ds_name fld_name : pyval) (k : text)
  (test_items d : list (text * pyval)) (base_item : text * pyval) :
  as_key ds_name = Ok k -> appendable d k ->
  field_pair_step ds_name fld_name test_items d base_item
  = Ok (extend d k (map render (key_diffs fld_name test_items base_item))).
Proof.
  intros Hk Ha. unfold field_pair_step, key_diffs.
  destruct base_item as [bk bv]. cbn [fst snd].
  rewrite map_flat_map.
  apply extend_loop; [ | exact Ha].
  intros d' [tk tv] _ Ha'. cbn [fst snd].
  destruct (text_eqb bk tk); cbn [andb]; [ | reflexivity].
  destruct (py_eqb bv tv); cbn [negb]; [reflexivity|].
  now apply append_or_create_extend.
Qed.

Lemma field_step_extend (ds_name : pyval) (k : text)
  (flds_base_list : list pyval) (d : list (text * pyval))
  (fld_prop : pyval) :
  as_key ds_name = Ok k -> appendable d k ->
  named "Name" fld_prop -> Forall (named "Name") flds_base_list ->
  field_step ds_name flds_base_list d fld_prop
  = Ok (extend d k (map render (field_diffs flds_base_list fld_prop))).
Proof.
  intros Hk Ha Hn Hb. unfold field_step, field_diffs.
  rewrite (named_getitem Hn). cbn [bind].
  rewrite map_flat_map.
  apply extend_loop; [ | exact Ha].
  intros d' fb Hin Ha'. rewrite Forall_forall in Hb.
  rewrite (named_getitem (Hb fb Hin)). cbn [bind].
  destruct (py_eqb (value_of "Name" fb) (value_of "Name" fld_prop));
    [ | reflexivity].
  rewrite (named_items (Hb fb Hin)), (named_items Hn). cbn [bind].
  rewrite map_flat_map.
  apply extend_loop; [ | exact Ha'].
  intros d'' item _ Ha''. now apply field_pair_step_extend.
Qed.

(* ================================================================== *)
(** ** Equal dicts agree on their items *)

Lemma items_in_In (e d : list (text * pyval)) (k : text) (v : pyval) :
  items_in e d = true -> In (k, v) d ->
  exists w, lookup k e = Some w /\ py_eqb v w = true.
Proof.
  induction d as [|[k' v'] d IH]; simpl; intros H Hin; [contradiction|].
  apply andb_true_iff in H as [H1 H2].
  destruct Hin as [E | Hin]; [ | auto].
  injection E as -> ->.
  destruct (lookup k e) as [w|]; [eauto | discriminate].
Qed.

Lemma py_eqb_dict_lookup (d : list (text * pyval)) (x : pyval)
  (k : text) (v : pyval) :
  py_eqb (PDict d) x = true -> lookup k d = Some v ->
  exists e w, x = PDict e /\ lookup k e = Some w /\ py_eqb v w = true.
Proof.
  intros H Hl. destruct x as [ | | | |e]; try discriminate.
  rewrite py_eqb_dict in H. unfold dict_eqb in H.
  apply andb_true_iff in H as [_ H].
  apply lookup_some_In in Hl.
  destruct (items_in_In e d k v H Hl) as (w & ? & ?).
  eauto.
Qed.

Lemma py_eqb_str (s : string) (w : pyval) :
  py_eqb (PStr s) w = true -> w = PStr s.
Proof.
  destruct w; try discriminate. simpl. intros H.
  apply String.eqb_eq in H. now subst.
Qed.

(** A record equal to a named one carries the same name. *)
Lemma py_eqb_named (key : string) (y x : pyval) :
  py_eqb y x = true -> named key y ->
  named key x /\ value_of key x = value_of key y.
Proof.
  intros H (d & n & -> & Hl).
  destruct (py_eqb_dict_lookup d x (Some key) H Hl)
    as (e & w & -> & He & Hw).
  apply py_eqb_str in Hw. subst w.
  split; [exists e, n; auto|].
  unfold value_of. simpl. now rewrite He, Hl.
Qed.

(* ================================================================== *)
(** ** Removing the additional entries *)

(** Removing, one after the other, the entries of [L] that satisfy [p]
    leaves the entries that do not, when [p] cannot tell equal entries
    apart. *)
Lemma remove_filter (p : pyval -> bool) (L pre : list pyval) :
  Forall (fun x => wf x = true) L ->
  (forall y x, In y (pre ++ L) -> In x L -> py_eqb y x = true ->
               p y = p x) ->
  Forall (fun y => p y = false) pre ->
  foldM (fun l x => list_remove x l) (filter p L) (pre ++ L)
  = Ok (pre ++ filter (fun x => negb (p x)) L).
Proof.
  revert pre. induction L as [|x L IH]; intros pre Hwf Hresp Hpre.
  - reflexivity.
  - inversion Hwf as [|? ? Hx HL]; subst.
    cbn [filter]. destruct (p x) eqn:Ep; cbn [negb].
    + cbn [foldM].
      assert (R : list_remove x (pre ++ x :: L) = Ok (pre ++ L)).
      { clear IH. induction pre as [|y pre IHp]; cbn [app list_remove].
        - now rewrite (py_eqb_refl _ Hx).
        - inversion Hpre as [|? ? Hy Hpre']; subst.
          destruct (py_eqb y x) eqn:E.
          + assert (p y = p x)
              by (apply Hresp; auto; [now left | now left]).
            congruence.
          + rewrite IHp; auto.
            intros y' x' Hy' Hx'. apply Hresp; auto. now right. }
      rewrite R. cbn [bind]. apply IH; auto.
      intros y x' Hy Hx'. apply Hresp.
      * apply in_app_or in Hy as [Hy|Hy]; apply in_or_app;
          [now left | right; now right].
      * now right.
    + replace (pre ++ x :: L) with ((pre ++ [x]) ++ L)
        by now rewrite <- app_assoc.
      rewrite IH; auto.
      * now rewrite <- app_assoc.
      * intros y x' Hy Hx'. apply Hresp.
        -- rewrite <- app_assoc in Hy. exact Hy.
        -- now right.
      * apply Forall_app. split; [exact Hpre | now constructor].
Qed.

(** [l] with the element at position [i] replaced. *)
Fixpoint replace_nth {A} (i : nat) (y : A) (l : list A) : list A :=
  match l, i with
  | [], _ => []
  | _ :: l', O => y :: l'
  | x :: l', S j => x :: replace_nth j y l'
  end.

Lemma update_nth_replace {A} (f : A -> result A) (i : nat) (l : list A)
  (x y : A) :
  nth_error l i = Some x -> f x = Ok y ->
  update_nth i f l = Ok (replace_nth i y l).
Proof.
  revert i. induction l as [|a l IH]; intros [|i]; simpl; try discriminate.
  - intros E Hf. injection E as ->. now rewrite Hf.
  - intros E Hf. now rewrite (IH i E Hf).
Qed.

Lemma nth_error_replace_nth {A} (i : nat) (l : list A) (x y : A) :
  nth_error l i = Some x -> nth_error (replace_nth i y l) i = Some y.
Proof.
  revert i. induction l as [|a l IH]; intros [|i]; simpl; try discriminate;
    auto.
Qed.

Lemma replace_nth_twice {A} (i : nat) (l : list A) (y z : A) :
  replace_nth i z (replace_nth i y l) = replace_nth i z l.
Proof.
  revert i. induction l as [|a l IH]; intros [|i]; simpl; auto.
  now rewrite IH.
Qed.

Lemma replace_nth_same {A} (i : nat) (l : list A) (x : A) :
  nth_error l i = Some x -> replace_nth i x l = l.
Proof.
  revert i. induction l as [|a l IH]; intros [|i]; simpl; try discriminate.
  - now intros [= ->].
  - intros E. now rewrite IH.
Qed.

(** The store with the dataset at position [i] of test replaced. *)
Definition store_with (s : store) (i : nat) (v : pyval) : store :=
  {| ds_list_base := ds_list_base s;
     ds_list_test := replace_nth i v (ds_list_test s) |}.

Lemma store_with_twice s i v w :
  store_with (store_with s i v) i w = store_with s i w.
Proof. unfold store_with. simpl. now rewrite replace_nth_twice. Qed.

Lemma store_with_same s i v :
  nth_error (ds_list_test s) i = Some v -> store_with s i v = s.
Proof.
  intros H. unfold store_with. rewrite (replace_nth_same _ _ H).
  now destruct s.
Qed.

Lemma test_remove_store (s : store) (i : nat) (key : text) (x : pyval)
  (dsd : list (text * pyval)) (L L' : list pyval) :
  nth_error (ds_list_test s) i = Some (PDict dsd) ->
  lookup key dsd = Some (PList L) ->
  list_remove x L = Ok L' ->
  test_remove i key x s
  = Ok (tt, store_with s i (PDict (assign key (PList L') dsd))).
Proof.
  intros Hn Hl Hr. unfold test_remove.
  rewrite (update_nth_replace _ _ _ Hn
             (y := PDict (assign key (PList L') dsd))).
  - reflexivity.
  - unfold remove_in. simpl. rewrite Hl. cbn [bind]. now rewrite Hr.
Qed.

(** The loop over the additional fields: every one is removed from the
    list in the store and reported. *)
Lemma additional_fields_loop (i : nat) (ds_name : pyval) (k : text)
  (dsd : list (text * pyval)) (adds : list pyval) :
  as_key ds_name = Ok k ->
  Forall (named "Name") adds ->
  forall (L L' : list pyval) (d : list (text * pyval)) (s : store),
    appendable d k ->
    nth_error (ds_list_test s) i = Some (PDict dsd) ->
    lookup (Some "Fields") dsd = Some (PList L) ->
    foldM (fun l x => list_remove x l) adds L = Ok L' ->
    foldS (fun ds_diff fld =>
             _ <~ test_remove i (Some "Fields") fld ;;
             lift (n <- getitem fld (Some "Name") ;;
                   append_or_create ds_diff ds_name
                     (triple (PStr "Additional field") (PStr "") n)))
      adds d s
    = Ok (extend d k
            (map (fun fld => triple (PStr "Additional field") (PStr "")
                               (value_of "Name" fld)) adds),
          store_with s i (PDict (assign (Some "Fields") (PList L') dsd))).
Proof.
  intros Hk Hadds. revert dsd.
  induction Hadds as [|fld adds Hfld _ IH]; intros dsd L L' d s Ha Hn Hl Hr.
  - cbn in Hr. injection Hr as <-. cbn [foldS map]. unfold ret, extend.
    rewrite (assign_same_value _ _ Hl), (store_with_same _ _ Hn).
    reflexivity.
  - cbn [foldM] in Hr. unbind Hr as L1 Hr1.
    cbn [foldS]. unfold bindS at 1. unfold bindS at 1.
    rewrite (test_remove_store _ _ _ _ Hn Hl Hr1).
    unfold lift. rewrite (named_getitem Hfld). cbn [bind].
    rewrite (@append_or_create_extend d ds_name k _ Hk Ha).
    rewrite (IH (assign (Some "Fields") (PList L1) dsd) L1 L').
    + rewrite extend_extend by exact Ha.
      rewrite store_with_twice, assign_assign. reflexivity.
    + now apply appendable_extend.
    + simpl. apply (nth_error_replace_nth _ _ _ Hn).
    + apply lookup_assign_same.
    + exact Hr.
Qed.

Lemma bindS_lift_ok {A C} (m : result A) (a : A) (k : A -> stM C)
  (s : store) :
  m = Ok a -> bindS (lift m) k s = k a s.
Proof. intros ->. reflexivity. Qed.

Lemma bindS_ok {A C} (m : stM A) (a : A) (k : A -> stM C) (s s' : store) :
  m s = Ok (a, s') -> bindS m k s = k a s'.
Proof. unfold bindS. intros ->. reflexivity. Qed.

Lemma lift_ok {A} (m : result A) (a : A) (s : store) :
  m = Ok a -> lift m s = Ok (a, s).
Proof. intros ->. reflexivity. Qed.

Lemma flat_map_singleton {A C} (f : A -> C) (l : list A) :
  flat_map (fun x => [f x]) l = map f l.
Proof. induction l; simpl; congruence. Qed.

(** The names found under [key] in a list of records. *)
Definition names_of (key : string) (F : list pyval) : list pyval :=
  map (value_of key) F.

(** [f[key] not in names], for the names of the list [F]. *)
Definition not_named_in (key : string) (F : list pyval) (f : pyval) : bool :=
  negb (py_in (value_of key f) (names_of key F)).

(** The test fields that stay in the list: those whose name base has. *)
Definition common_fields (Fb Ft : list pyval) : list pyval :=
  filter (fun f => negb (not_named_in "Name" Fb f)) Ft.

(** The differing properties of the fields common to both sides. *)
Definition common_diffs (Fb Ft : list pyval) : list field_diff :=
  flat_map (field_diffs Fb) (common_fields Fb Ft).

(** What the [Fields] branch reports for the base fields [Fb] and the test
    fields [Ft]: the additional fields, the missing fields, then the
    differing properties of the fields common to both. *)
Definition fields_report (Fb Ft : list pyval) : list pyval :=
  map (fun f => triple (PStr "Additional field") (PStr "")
                  (value_of "Name" f))
    (filter (not_named_in "Name" Fb) Ft)
  ++ map (fun f => triple (PStr "Missing field") (value_of "Name" f)
                     (PStr ""))
       (filter (not_named_in "Name" Ft) Fb)
  ++ map render (common_diffs Fb Ft).

Lemma names_ok (key : string) (F : list pyval) :
  Forall (named key) F -> mapM (itemgetter key) F = Ok (names_of key F).
Proof.
  intros H. apply mapM_ok. intros x Hx. rewrite Forall_forall in H.
  unfold itemgetter. now apply named_getitem, H.
Qed.

Lemma not_named_ok (key : string) (F G : list pyval) :
  Forall (named key) G ->
  filterM (name_not_in key (names_of key F)) G
  = Ok (filter (not_named_in key F) G).
Proof.
  intros H. apply filterM_ok. intros x Hx. rewrite Forall_forall in H.
  unfold name_not_in. rewrite (named_getitem (H x Hx)). reflexivity.
Qed.

Lemma Forall_filter {A} (P : A -> Prop) (q : A -> bool) (l : list A) :
  Forall P l -> Forall P (filter q l).
Proof.
  rewrite !Forall_forall. intros H x Hx. apply filter_In in Hx. now apply H.
Qed.

Lemma remove_additional (key : string) (Fb Ft : list pyval) :
  Forall (named key) Ft -> Forall (fun x => wf x = true) Ft ->
  foldM (fun l x => list_remove x l) (filter (not_named_in key Fb) Ft) Ft
  = Ok (filter (fun f => negb (not_named_in key Fb f)) Ft).
Proof.
  intros Hn Hwf.
  apply (@remove_filter (not_named_in key Fb) Ft []); auto.
  intros y x Hy _ E. rewrite Forall_forall in Hn. simpl in Hy.
  destruct (@py_eqb_named key y x E (Hn y Hy)) as [_ Hv].
  unfold not_named_in. now rewrite Hv.
Qed.

(** The [Fields] branch on well-formed fields: what it returns and what it
    leaves in the store. *)
Lemma fields_branch_spec (i : nat) (ds_name ds_base : pyval)
  (k : text) (Fb Ft : list pyval) (d dsd : list (text * pyval))
  (s : store) :
  getitem ds_base (Some "Fields") = Ok (PList Fb) ->
  Forall (named "Name") Fb ->
  Forall (named "Name") Ft ->
  Forall (fun x => wf x = true) Ft ->
  as_key ds_name = Ok k ->
  appendable d k ->
  nth_error (ds_list_test s) i = Some (PDict dsd) ->
  lookup (Some "Fields") dsd = Some (PList Ft) ->
  fields_branch i ds_name ds_base (PList Ft) d s
  = Ok (extend d k (fields_report Fb Ft),
        store_with s i
          (PDict (assign (Some "Fields") (PList (common_fields Fb Ft))
                    dsd))).
Proof.
  intros Hb HFb HFt Hwf Hk Ha Hn Hl. unfold fields_branch.
  rewrite (bindS_lift_ok _ _ Hb).
  rewrite (bindS_lift_ok (a := Ft)) by reflexivity.
  rewrite (bindS_lift_ok _ _ (names_ok HFt)).
  rewrite (bindS_lift_ok (a := Fb)) by reflexivity.
  rewrite (bindS_lift_ok _ _ (names_ok HFb)).
  rewrite (bindS_lift_ok _ _ (not_named_ok Ft HFb)).
  rewrite (bindS_lift_ok _ _ (not_named_ok Fb HFt)).
  erewrite bindS_ok.
  2:{ eapply additional_fields_loop; eauto.
      - now apply Forall_filter.
      - now apply remove_additional. }
  set (d1 := extend d k _).
  assert (Ha1 : appendable d1 k) by now apply appendable_extend.
  erewrite bindS_lift_ok.
  2:{ apply (extend_loop
               (fun d fld => n <- getitem fld (Some "Name") ;;
                             append_or_create d ds_name
                               (triple (PStr "Missing field") n (PStr "")))
               (fun fld => [triple (PStr "Missing field")
                              (value_of "Name" fld) (PStr "")]) k);
        [ | exact Ha1].
      intros d' fld Hin Ha'.
      assert (Hf : named "Name" fld).
      { apply filter_In in Hin as [Hin _].
        rewrite Forall_forall in HFb. now apply HFb. }
      rewrite (named_getitem Hf). cbn [bind].
      now apply append_or_create_extend. }
  rewrite flat_map_singleton.
  set (d2 := extend d1 k _).
  assert (Ha2 : appendable d2 k) by now apply appendable_extend.
  set (s1 := store_with s i _).
  erewrite bindS_ok.
  2:{ unfold deref, s1. simpl.
      rewrite (nth_error_replace_nth _ _ _ Hn). reflexivity. }
  erewrite bindS_lift_ok.
  2:{ simpl. rewrite lookup_assign_same. reflexivity. }
  erewrite lift_ok.
  2:{ apply (extend_loop (field_step ds_name Fb)
               (fun f => map render (field_diffs Fb f)) k);
        [ | exact Ha2].
      intros d' f Hin Ha'. apply field_step_extend; auto.
      unfold common_fields in Hin. apply filter_In in Hin as [Hin _].
      rewrite Forall_forall in HFt. now apply HFt. }
  unfold d2, d1, fields_report, common_diffs.
  rewrite !extend_extend by auto.
  rewrite map_flat_map. reflexivity.
Qed.

(* ================================================================== *)
(** ** Two datasets that differ in their fields only *)

(** A record with some value under [key]. *)
Definition keyed (key : string) (f : pyval) : Prop :=
  exists d n, f = PDict d /\ lookup (Some key) d = Some n.

Lemma keyed_getitem (key : string) (f : pyval) :
  keyed key f -> getitem f (Some key) = Ok (value_of key f).
Proof.
  intros (d & n & -> & H). unfold value_of. simpl. now rewrite H.
Qed.

Lemma wf_item (d : list (text * pyval)) (k : text) (v : pyval) :
  wf (PDict d) = true -> In (k, v) d -> wf v = true.
Proof.
  simpl. intros H Hin. apply andb_true_iff in H as [_ H].
  rewrite forallb_forall in H. apply (H (k, v) Hin).
Qed.

Lemma wf_distinct (d : list (text * pyval)) :
  wf (PDict d) = true -> distinct (keys d) = true.
Proof. simpl. intros H. now apply andb_true_iff in H as [H _]. Qed.

Lemma wf_lookup (d : list (text * pyval)) (k : text) (v : pyval) :
  wf (PDict d) = true -> lookup k d = Some v -> wf v = true.
Proof. intros H Hl. eapply wf_item; eauto using lookup_some_In. Qed.

Lemma wf_list_Forall (l : list pyval) :
  wf (PList l) = true -> Forall (fun x => wf x = true) l.
Proof.
  simpl. intros H. rewrite forallb_forall in H. now apply Forall_forall.
Qed.

Lemma py_in_self (x : pyval) (l : list pyval) :
  wf x = true -> In x l -> py_in x l = true.
Proof.
  intros Hw Hin. unfold py_in. apply existsb_exists.
  exists x. split; [exact Hin | now apply py_eqb_refl].
Qed.

Lemma items_in_false (e d : list (text * pyval)) (k : text) (v w : pyval) :
  In (k, v) d -> lookup k e = Some w -> py_eqb v w = false ->
  items_in e d = false.
Proof.
  induction d as [|[k' v'] d IH]; simpl; intros Hin Hl Hne; [contradiction|].
  destruct Hin as [E | Hin].
  - injection E as -> ->. now rewrite Hl, Hne.
  - rewrite (IH Hin Hl Hne). apply andb_false_r.
Qed.

Lemma dict_eqb_false (d e : list (text * pyval)) (k : text) (v w : pyval) :
  lookup k d = Some v -> lookup k e = Some w -> py_eqb v w = false ->
  py_eqb (PDict d) (PDict e) = false.
Proof.
  intros Hd He Hne. rewrite py_eqb_dict. unfold dict_eqb.
  rewrite (@items_in_false e d k v w); auto using lookup_some_In.
  apply andb_false_r.
Qed.

Lemma foldS_app {A S} (body : S -> A -> stM S) (l1 l2 : list A) (acc : S)
  (s : store) :
  foldS body (l1 ++ l2) acc s
  = bindS (foldS body l1 acc) (foldS body l2) s.
Proof.
  revert acc s. induction l1 as [|x l1 IH]; intros acc s; simpl.
  - reflexivity.
  - unfold bindS.
    destruct (body acc x s) as [[acc' s']|e]; [ | reflexivity].
    rewrite IH. reflexivity.
Qed.

(** A loop whose rounds change neither the accumulator nor the store. *)
Lemma foldS_idle {A S} (body : S -> A -> stM S) (l : list A) (acc : S)
  (s : store) :
  (forall x, In x l -> body acc x s = Ok (acc, s)) ->
  foldS body l acc s = Ok (acc, s).
Proof.
  induction l as [|x l IH]; intros H; simpl; [reflexivity|].
  unfold bindS. rewrite H by now left. apply IH.
  intros; apply H; now right.
Qed.

(** The shape the parser gives a dataset record, as far as the differ
    relies on it: a [str] name, named fields, subtypes that carry a
    [SubtypeName], a [SubtypeInfo] with an item. *)
Record dataset_shape (rbd : list (text * pyval)) (ds_name : string)
  (Fb : list pyval) : Prop := {
  shape_wf : wf (PDict rbd) = true;
  shape_name : lookup (Some "Name") rbd = Some (PStr ds_name);
  shape_fields : lookup (Some "Fields") rbd = Some (PList Fb);
  shape_field_names : Forall (named "Name") Fb;
  shape_subtypes :
    forall v, lookup (Some "Subtypes") rbd = Some v ->
              exists S, v = PList S /\ Forall (keyed "SubtypeName") S;
  shape_subtype_info :
    forall v, lookup (Some "SubtypeInfo") rbd = Some v ->
              exists x rest, v = PDict (x :: rest)
}.

Lemma of_text_eqb_refl (t : text) : py_eqb (of_text t) (of_text t) = true.
Proof. destruct t; simpl; auto using String.eqb_refl. Qed.


Lemma distinct_split (k : text) (ks : list text) :
  distinct ks = true -> In k ks ->
  exists ks1 ks2, ks = ks1 ++ k :: ks2 /\ ~ In k ks1 /\ ~ In k ks2.
Proof.
  induction ks as [|k' ks IH]; simpl; intros Hd Hin; [contradiction|].
  apply andb_true_iff in Hd as [Hn Hd]. apply negb_true_iff in Hn.
  assert (Hk' : ~ In k' ks).
  { intros Hin'.
    assert (existsb (text_eqb k') ks = true)
      by (apply existsb_exists; exists k'; auto using text_eqb_refl).
    congruence. }
  destruct Hin as [-> | Hin].
  - exists [], ks. auto.
  - destruct (IH Hd Hin) as (ks1 & ks2 & -> & H1 & H2).
    exists (k' :: ks1), ks2. repeat split; auto.
    intros [-> | H]; [ | contradiction].
    apply Hk'. apply in_or_app. right. now left.
Qed.

Lemma lookup_In_keys {V} (k : text) (v : V) (d : list (text * V)) :
  lookup k d = Some v -> In k (keys d).
Proof.
  intros H. apply lookup_some_In in H.
  unfold keys. change k with (fst (k, v)). now apply in_map.
Qed.


(* ================================================================== *)
(** ** Comparing a field with itself, and with a changed copy *)

Lemma flat_map_nil {A C} (f : A -> list C) (l : list A) :
  (forall x, In x l -> f x = []) -> flat_map f l = [].
Proof.
  induction l as [|x l IH]; simpl; intros H; [reflexivity|].
  rewrite H by now left. apply IH. intros; apply H; now right.
Qed.




(** Two items of one key in a dict with distinct keys are one item. *)
Lemma item_unique {V} (d : list (text * V)) (k : text) (v w : V) :
  distinct (keys d) = true -> In (k, v) d -> In (k, w) d -> v = w.
Proof.
  intros Hd Hv Hw.
  apply (lookup_of_item _ _ _ Hd) in Hv.
  apply (lookup_of_item _ _ _ Hd) in Hw. congruence.
Qed.

Lemma key_diffs_self (n : pyval) (d : list (text * pyval))
  (item : text * pyval) :
  wf (PDict d) = true -> In item d -> key_diffs n d item = [].
Proof.
  intros Hwf Hin. unfold key_diffs. apply flat_map_nil.
  intros [tk tv] Ht. destruct item as [bk bv]. cbn [fst snd].
  destruct (text_eqb bk tk) eqn:E; [ | reflexivity].
  apply text_eqb_eq in E. subst tk.
  assert (bv = tv)
    by (eapply item_unique; eauto using wf_distinct).
  subst tv. rewrite py_eqb_refl; [reflexivity|].
  eapply wf_item; eauto.
Qed.

Lemma field_compared_with_itself (n : pyval) (d : list (text * pyval)) :
  wf (PDict d) = true -> flat_map (key_diffs n d) d = [].
Proof.
  intros Hwf. apply flat_map_nil. intros item Hin.
  now apply key_diffs_self.
Qed.

Lemma lookup_app_none {V} (k : text) (a b : list (text * V)) :
  lookup k (a ++ b) = None <-> lookup k a = None /\ lookup k b = None.
Proof.
  induction a as [|[k' v'] a IH]; simpl; [tauto|].
  destruct (text_eqb k k'); [ | exact IH].
  split; [discriminate | intros [H _]; discriminate].
Qed.




Lemma named_value (key : string) (f : pyval) :
  named key f -> exists n, value_of key f = PStr n.
Proof.
  intros (d & n & -> & H). exists n. unfold value_of. simpl. now rewrite H.
Qed.

(** With distinct field names, a test field is compared with the one base
    field of its name. *)
Lemma field_diffs_of_twin (Fb : list pyval) (g f : pyval) :
  Forall (named "Name") Fb ->
  NoDup (names_of "Name" Fb) ->
  In g Fb ->
  value_of "Name" f = value_of "Name" g ->
  field_diffs Fb f
  = flat_map (key_diffs (value_of "Name" f) (items_of f)) (items_of g).
Proof.
  intros Hn Hnd Hin Hv.
  destruct (in_split _ _ Hin) as (A & B & ->).
  unfold names_of in Hnd. rewrite map_app in Hnd. cbn [map] in Hnd.
  apply NoDup_remove_2 in Hnd.
  rewrite Forall_forall in Hn.
  destruct (@named_value "Name" g (Hn g Hin)) as [n Hg].
  assert (Hother : forall h, In h (A ++ B) ->
            py_eqb (value_of "Name" h) (value_of "Name" f) = false).
  { intros h Hh.
    destruct (py_eqb (value_of "Name" h) (value_of "Name" f)) eqn:E;
      [ | reflexivity].
    exfalso. apply Hnd.
    assert (Hh' : In h (A ++ g :: B)).
    { apply in_app_or in Hh as [?|?]; apply in_or_app;
        [now left | right; now right]. }
    destruct (@named_value "Name" h (Hn h Hh')) as [m Hm].
    rewrite Hm in E. apply py_eqb_str in E.
    rewrite Hv, Hg in E. injection E as ->.
    rewrite <- map_app, Hg, <- Hm. now apply in_map. }
  unfold field_diffs. rewrite flat_map_app. cbn [flat_map].
  rewrite Hv at 1. rewrite py_eqb_refl by (rewrite Hg; reflexivity).
  rewrite (flat_map_nil _ A).
  - rewrite (flat_map_nil _ B); [now rewrite app_nil_r|].
    intros h Hh. rewrite Hother; [reflexivity|].
    apply in_or_app. now right.
  - intros h Hh. rewrite Hother; [reflexivity|].
    apply in_or_app. now left.
Qed.

Lemma filter_nil_of {A} (q : A -> bool) (l : list A) :
  (forall x, In x l -> q x = false) -> filter q l = [].
Proof.
  induction l as [|x l IH]; simpl; intros H; [reflexivity|].
  rewrite H by now left. apply IH. intros; apply H; now right.
Qed.

Lemma filter_all_of {A} (q : A -> bool) (l : list A) :
  (forall x, In x l -> q x = true) -> filter q l = l.
Proof.
  induction l as [|x l IH]; simpl; intros H; [reflexivity|].
  rewrite H by now left. f_equal. apply IH. intros; apply H; now right.
Qed.

(** A named field of the list is not "not named in" the list. *)
Lemma named_in_own_list (key : string) (F : list pyval) (f : pyval) :
  named key f -> In (value_of key f) (names_of key F) ->
  not_named_in key F f = false.
Proof.
  intros Hn Hin. unfold not_named_in.
  rewrite py_in_self; [reflexivity | | exact Hin].
  destruct (named_value Hn) as [n ->]. reflexivity.
Qed.

(* ================================================================== *)
(** ** A field that loses its domain *)


(* ================================================================== *)
(** ** Reading the report of the [Fields] branch *)




Lemma key_diffs_inv (n : pyval) (test_items : list (text * pyval))
  (base_item : text * pyval) (x : field_diff) :
  In x (key_diffs n test_items base_item) ->
  exists tv, x = (n, fst base_item, snd base_item, tv).
Proof.
  unfold key_diffs. intros H. apply in_flat_map in H as ([tk tv] & _ & H).
  cbn [fst snd] in H.
  destruct (text_eqb (fst base_item) tk && negb (py_eqb (snd base_item) tv));
    [ | contradiction].
  destruct H as [<- | []]. eauto.
Qed.


(** A diff comes from a base field of that name that has the property. *)
Lemma common_diffs_inv (Fb Ft : list pyval) (n : string) (key : text)
  (bv tv : pyval) :
  Forall (named "Name") Fb ->
  In (PStr n, key, bv, tv) (common_diffs Fb Ft) ->
  exists g, In g Fb /\ value_of "Name" g = PStr n
            /\ In (key, bv) (items_of g).
Proof.
  intros Hn H. unfold common_diffs in H.
  apply in_flat_map in H as (f & _ & H).
  unfold field_diffs in H. apply in_flat_map in H as (g & Hg & H).
  destruct (py_eqb (value_of "Name" g) (value_of "Name" f)) eqn:E;
    [ | contradiction].
  apply in_flat_map in H as (item & Hitem & H).
  apply key_diffs_inv in H as (tv' & H). injection H as Hf -> -> _.
  rewrite Forall_forall in Hn.
  destruct (named_value (Hn g Hg)) as [m Hm].
  rewrite Hm, <- Hf in E. apply py_eqb_str in E. injection E as ->.
  exists g. repeat split; auto. now destruct item.
Qed.





(* ================================================================== *)
(** ** The parser drops [Length] from non-text fields *)



Lemma delitem_other {V} (k k' : text) (d d' : list (text * V)) :
  delitem k d = Ok d' -> text_eqb k' k = false ->
  lookup k' d' = lookup k' d.
Proof.
  revert d'. induction d as [|[k2 v2] d IH]; simpl; intros d' H Hk;
    [discriminate|].
  destruct (text_eqb k k2) eqn:E.
  - injection H as <-. apply text_eqb_eq in E. subst k2. now rewrite Hk.
  - unbind H as r Hr. injection H as <-. simpl.
    destruct (text_eqb k' k2); [reflexivity | auto].
Qed.


Lemma py_eqb_str_l (v : pyval) (s : string) :
  py_eqb v (PStr s) = true -> v = PStr s.
Proof.
  destruct v; try discriminate. simpl. intros H.
  apply String.eqb_eq in H. now subst.
Qed.


(* ================================================================== *)
(** ** The theorems on the sample documents *)

(** The record the parser builds for [field_elem]. *)
Definition field_rec (domain name type : string) (len : option string)
  : list (text * pyval) :=
  [(Some "Domain", PStr domain); (Some "Name", PStr name);
   (Some "Type", PStr type); (Some "IsNullable", PStr "true")]
    ++ match len with
       | Some l => [(Some "Length", PStr l)]
       | None => []
       end
    ++ [(Some "Precision", PStr "0"); (Some "Scale", PStr "0")].

(** The record the parser builds for [roads_doc]. *)
Definition roads_rec (flds : list pyval) : list (text * pyval) :=
  [(Some "SubtypeFieldName", PStr ""); (Some "Name", PStr "Roads");
   (Some "Versioned", PStr "false"); (Some "CanVersion", PStr "false");
   (Some "Fields", PList flds);
   (Some "ShapeType", PStr "esriGeometryPolyline");
   (Some "Subtypes", PList []);
   (Some "SubtypeInfo", PDict [(Some "", PStr "")])].



Definition speed_rec : list (text * pyval) :=
  field_rec "SpeedLimits" "speed" "esriFieldTypeInteger" None.

Ltac solve_named :=
  repeat (constructor; [do 2 eexists; split; reflexivity|]); constructor.




(* ================================================================== *)
(** ** Two domains that differ in their coded values *)

Lemma foldM_idle {A S} (body : S -> A -> result S) (l : list A) (acc : S) :
  (forall x, In x l -> body acc x = Ok acc) -> foldM body l acc = Ok acc.
Proof.
  induction l as [|x l IH]; intros H; simpl; [reflexivity|].
  rewrite H by now left. cbn [bind]. apply IH.
  intros; apply H; now right.
Qed.








(* ================================================================== *)
(** * Further properties *)

(** ** [sort] rearranges a list and leaves text keys in order *)

Lemma insert_by_perm {A} (x : pyval * A) (l r : list (pyval * A)) :
  insert_by x l = Ok r -> Permutation r (x :: l).
Proof.
  revert r. induction l as [|y l IH]; intros r H; simpl in H.
  - injection H as <-. reflexivity.
  - destruct (py_lt (fst x) (fst y)) as [b|e]; simpl in H; [|discriminate].
    destruct b.
    + injection H as <-. reflexivity.
    + destruct (insert_by x l) as [r'|e] eqn:E; simpl in H; [|discriminate].
      injection H as <-. rewrite (IH _ eq_refl). apply perm_swap.
Qed.

Lemma insert_loop_perm {A} (ks acc r : list (pyval * A)) :
  foldM (fun acc x => insert_by x acc) ks acc = Ok r ->
  Permutation r (acc ++ ks).
Proof.
  revert acc. induction ks as [|x ks IH]; intros acc H; simpl in H.
  - injection H as <-. now rewrite app_nil_r.
  - destruct (insert_by x acc) as [acc'|e] eqn:E; simpl in H; [|discriminate].
    rewrite (IH _ H), (insert_by_perm _ _ E).
    change (x :: ks) with ([x] ++ ks). rewrite app_assoc.
    apply Permutation_app_tail. apply Permutation_cons_append.
Qed.

(** The first pass of [sort]: every element with its key. *)
Lemma sort_keys {A} (keyf : A -> result pyval) (l : list A)
  (acc ks : list (pyval * A)) :
  foldM (fun acc a => k <- keyf a ;; Ok (acc ++ [(k, a)])) l acc = Ok ks ->
  exists ks', ks = acc ++ ks' /\ map snd ks' = l /\
              Forall (fun ka => keyf (snd ka) = Ok (fst ka)) ks'.
Proof.
  revert acc. induction l as [|a l IH]; intros acc H; simpl in H.
  - injection H as <-. exists []. now rewrite app_nil_r.
  - destruct (keyf a) as [k|e] eqn:E; simpl in H; [|discriminate].
    destruct (IH _ H) as (ks' & -> & Hs & Hk).
    exists ((k, a) :: ks'). rewrite <- app_assoc. simpl.
    repeat split; [now rewrite Hs | constructor; assumption].
Qed.

Lemma sort_by_perm {A} (keyf : A -> result pyval) (l r : list A) :
  sort_by keyf l = Ok r -> Permutation r l.
Proof.
  unfold sort_by. intros H.
  apply bind_ok in H as (ks & Hks & H).
  apply bind_ok in H as (sorted & Hsorted & H). injection H as <-.
  apply sort_keys in Hks as (ks' & -> & Hs & _). simpl in Hsorted.
  apply insert_loop_perm in Hsorted. simpl in Hsorted.
  rewrite <- Hs. now apply Permutation_map.
Qed.

(** [a] may stand before [b]: the key of [b] is not smaller. *)
Definition in_order {A} (keyf : A -> result pyval) (a b : A) : Prop :=
  exists ka kb, keyf a = Ok ka /\ keyf b = Ok kb /\ py_lt kb ka = Ok false.

Lemma py_lt_text_asym (a b : text) :
  py_lt (of_text a) (of_text b) = Ok true ->
  py_lt (of_text b) (of_text a) = Ok false.
Proof.
  destruct a as [s|], b as [t|]; simpl; try discriminate.
  unfold String.ltb. rewrite (String.compare_antisym s t).
  destruct (String.compare t s); simpl; intros H; try discriminate.
  reflexivity.
Qed.

Definition keyed_in_order {A} (x y : pyval * A) : Prop :=
  py_lt (fst y) (fst x) = Ok false.

Lemma insert_by_sorted {A} (x : pyval * A) (l r : list (pyval * A)) :
  (exists t, fst x = of_text t) ->
  Forall (fun y => exists t, fst y = of_text t) l ->
  Sorted keyed_in_order l ->
  insert_by x l = Ok r ->
  Sorted keyed_in_order r /\
  (forall y, HdRel keyed_in_order y l -> keyed_in_order y x ->
             HdRel keyed_in_order y r).
Proof.
  intros [tx Hx]. revert r.
  induction l as [|y l IH]; intros r Ht Hs H; simpl in H.
  - injection H as <-. split; [repeat constructor|].
    intros y _ Hy. now constructor.
  - destruct (py_lt (fst x) (fst y)) as [b|e] eqn:Hlt; simpl in H;
      [|discriminate].
    inversion Ht as [|? ? [ty Hy] Ht']; subst.
    inversion Hs as [|? ? Hs' Hd]; subst.
    destruct b.
    + injection H as <-. split.
      * constructor; [assumption|]. constructor. unfold keyed_in_order.
        rewrite Hx, Hy in *. now apply py_lt_text_asym.
      * intros z _ Hz. now constructor.
    + destruct (insert_by x l) as [r'|e] eqn:E; simpl in H; [|discriminate].
      injection H as <-.
      destruct (IH r' Ht' Hs' eq_refl) as [Hr Hhd]. split.
      * constructor; [assumption|]. apply Hhd; assumption.
      * intros z Hz _. inversion Hz; subst. now constructor.
Qed.

Lemma insert_loop_sorted {A} (ks acc r : list (pyval * A)) :
  Forall (fun y => exists t, fst y = of_text t) (acc ++ ks) ->
  Sorted keyed_in_order acc ->
  foldM (fun acc x => insert_by x acc) ks acc = Ok r ->
  Sorted keyed_in_order r.
Proof.
  revert acc. induction ks as [|x ks IH]; intros acc Ht Hs H; simpl in H.
  - now injection H as <-.
  - destruct (insert_by x acc) as [acc'|e] eqn:E; simpl in H; [|discriminate].
    apply Forall_app in Ht as [Ha Hk].
    inversion Hk as [|? ? Hx Hk']; subst.
    apply (IH acc'); [ | | exact H].
    + apply Forall_app. split; [|assumption].
      apply insert_by_perm in E.
      apply (Permutation_Forall (Permutation_sym E)). now constructor.
    + exact (proj1 (@insert_by_sorted _ x acc acc' Hx Ha Hs E)).
Qed.

Lemma Sorted_map_snd {A} (keyf : A -> result pyval) (l : list (pyval * A)) :
  Forall (fun ka => keyf (snd ka) = Ok (fst ka)) l ->
  Sorted keyed_in_order l ->
  Sorted (in_order keyf) (map snd l).
Proof.
  induction l as [|x l IH]; intros Hk Hs; simpl; [constructor|].
  inversion Hk as [|? ? Hx Hk']; subst.
  inversion Hs as [|? ? Hs' Hd]; subst.
  constructor; [now apply IH|].
  destruct l as [|y l]; simpl; constructor.
  inversion Hd; subst. inversion Hk'; subst.
  exists (fst x), (fst y). auto.
Qed.

Lemma sort_by_sorted {A} (keyf : A -> result pyval) (l r : list A) :
  (forall a k, In a l -> keyf a = Ok k -> exists t, k = of_text t) ->
  sort_by keyf l = Ok r -> Sorted (in_order keyf) r.
Proof.
  unfold sort_by. intros Ht H.
  apply bind_ok in H as (ks & Hks & H).
  apply bind_ok in H as (sorted & Hsorted & H). injection H as <-.
  apply sort_keys in Hks as (ks' & -> & Hs & Hk). simpl in Hsorted.
  assert (Hks' : Forall (fun ka => keyf (snd ka) = Ok (fst ka)) sorted).
  { apply insert_loop_perm in Hsorted. simpl in Hsorted.
    now apply (Permutation_Forall (Permutation_sym Hsorted)). }
  apply Sorted_map_snd; [assumption|].
  apply (insert_loop_sorted ks' (acc := [])); [ | constructor | assumption].
  simpl. rewrite Forall_forall in *. intros [k a] Hin.
  apply (Ht a k); [rewrite <- Hs; now apply (in_map snd _ (k, a))|].
  now apply (Hk (k, a)).
Qed.

(** ** What the list parsers return *)

(** [elem.attrib.values()[0] == ds_type], for an element that has an
    attribute. *)
Definition of_type (ds_type : string) (e : element) : bool :=
  match attrib e with
  | (_, v) :: _ => String.eqb v ds_type
  | [] => false
  end.

(** The value under [key], if any, is a text of the document. *)
Definition text_valued (key : string) (d : list (text * pyval)) : Prop :=
  forall v, lookup (Some key) d = Some v -> exists t, v = of_text t.

Definition text_at (key : string) (x : pyval) : Prop :=
  forall k, itemgetter key x = Ok k -> exists t, k = of_text t.

Lemma text_valued_at (key : string) (d : list (text * pyval)) :
  text_valued key d -> text_at key (PDict d).
Proof.
  intros H k. unfold itemgetter, getitem.
  destruct (lookup (Some key) d) as [v|] eqn:E; [|discriminate].
  intros [= <-]. now apply H.
Qed.

Lemma text_valued_nil (key : string) : text_valued key [].
Proof. intros v. discriminate. Qed.

Lemma text_valued_assign (key : string) (k : text) (w : pyval)
  (d : list (text * pyval)) :
  text_valued key d ->
  (k = Some key -> exists t, w = of_text t) ->
  text_valued key (assign k w d).
Proof.
  intros Hd Hw v.
  destruct (text_eqb (Some key) k) eqn:E.
  - apply text_eqb_eq in E. subst k. rewrite lookup_assign_same.
    intros [= <-]. now apply Hw.
  - rewrite lookup_assign_other by exact E. apply Hd.
Qed.

(** The loop shared by the parsers of list-shaped categories: every
    [DataElement] of the requested type adds its record, and the list is
    sorted again. *)
Lemma collect_loop (rec : element -> result pyval) (key ty : string)
  (body : list pyval -> element -> result (list pyval)) :
  (forall lst elem,
     body lst elem
     = (a <- first_attrib elem ;;
        if String.eqb a ty
        then d <- rec elem ;; sort_by (itemgetter key) (lst ++ [d])
        else Ok lst)) ->
  (forall e d, rec e = Ok d -> text_at key d) ->
  forall elems acc l,
    Forall (text_at key) acc ->
    Sorted (in_order (itemgetter key)) acc ->
    foldM body elems acc = Ok l ->
    exists rs,
      Forall2 (fun e d => rec e = Ok d) (filter (of_type ty) elems) rs
      /\ Permutation l (acc ++ rs)
      /\ Sorted (in_order (itemgetter key)) l.
Proof.
  intros Hbody Hrec. induction elems as [|e elems IH]; intros acc l Ht Hs H.
  - simpl in H. injection H as <-. exists []. rewrite app_nil_r.
    repeat split; [constructor | reflexivity | assumption].
  - simpl in H. rewrite Hbody in H.
    unfold first_attrib, of_type in *. simpl.
    destruct (attrib e) as [|[n a] rest]; [discriminate|]. cbn [bind] in H.
    destruct (String.eqb a ty).
    + destruct (rec e) as [d|err] eqn:Hd; [|discriminate]. cbn [bind] in H.
      destruct (sort_by (itemgetter key) (acc ++ [d])) as [acc'|err] eqn:Hsort;
        [|discriminate]. cbn [bind] in H.
      assert (Ht' : Forall (text_at key) (acc ++ [d])).
      { apply Forall_app. split; [assumption|]. constructor; [|constructor].
        now apply (Hrec e). }
      pose proof (sort_by_perm _ _ Hsort) as Hp.
      destruct (IH acc' l) as (rs & Hrs & Hperm & Hsorted); [ | | exact H | ].
      * now apply (Permutation_Forall (Permutation_sym Hp)).
      * apply (sort_by_sorted (itemgetter key) (acc ++ [d])); [|exact Hsort].
        intros x k Hin Hk. rewrite Forall_forall in Ht'. now apply (Ht' x).
      * exists (d :: rs). repeat split; [now constructor | | assumption].
        rewrite Hperm, Hp, <- app_assoc. reflexivity.
    + apply (IH acc l); assumption.
Qed.

Lemma fold_left_invariant {A S} (I : S -> Prop) (f : S -> A -> S)
  (l : list A) :
  (forall s x, In x l -> I s -> I (f s x)) ->
  forall s, I s -> I (fold_left f l s).
Proof.
  induction l as [|x l IH]; intros Hf s Hs; simpl; [assumption|].
  apply IH; [intros; apply Hf; simpl; auto | apply Hf; simpl; auto].
Qed.

Lemma rc_record_text (key : string) (e : element) :
  text_at key (rc_record e).
Proof.
  unfold rc_record. apply text_valued_at.
  apply fold_left_invariant; [|apply text_valued_nil].
  intros d x _ Hd. destruct (existsb _ rc_tags); [|assumption].
  apply text_valued_assign; [assumption|]. intros _. eexists; reflexivity.
Qed.

Lemma Forall2_ok_map {A B} (f : A -> B) (l : list A) (rs : list B) :
  Forall2 (fun e d => Ok (f e) = Ok d) l rs -> rs = map f l.
Proof.
  induction 1 as [|e d es ds E _ IH]; simpl; [reflexivity|].
  injection E as <-. now rewrite IH.
Qed.

(** The relationship-class parser returns the records of exactly the
    [DataElement]s of the requested type, in ascending order of [Name]. *)
Theorem rc_parser_returns_the_matching_elements
  (tree : element) (ds_type : string) (l : list pyval) :
  get_rc_properties tree ds_type = Ok l ->
  Permutation l
    (map rc_record (filter (of_type ds_type) (iter_tag "DataElement" tree)))
  /\ Sorted (in_order (itemgetter "Name")) l.
Proof.
  intros H. unfold get_rc_properties in H.
  eapply (@collect_loop (fun e => Ok (rc_record e)) "Name" ds_type) in H.
  - destruct H as (rs & Hrs & Hperm & Hsorted).
    split; [|exact Hsorted]. simpl in Hperm.
    now rewrite Hperm, (Forall2_ok_map _ Hrs).
  - intros lst elem. reflexivity.
  - intros e d [= <-]. apply rc_record_text.
  - constructor.
  - constructor.
Qed.

Lemma rc_parser_returns_the_matching_elements_witness :
  Permutation
    [PDict [(Some "Name", PStr "ParcelToOwner");
            (Some "Cardinality", PStr "esriRelCardinalityOneToOne");
            (Some "IsComposite", PStr "false");
            (Some "KeyType", PStr "esriRelKeyTypeSingle")]]
    (map rc_record
       (filter (of_type "esri:DERelationshipClass")
          (iter_tag "DataElement" rc_doc_base)))
  /\ Sorted (in_order (itemgetter "Name"))
       [PDict [(Some "Name", PStr "ParcelToOwner");
               (Some "Cardinality", PStr "esriRelCardinalityOneToOne");
               (Some "IsComposite", PStr "false");
               (Some "KeyType", PStr "esriRelKeyTypeSingle")]].
Proof.
  apply (rc_parser_returns_the_matching_elements rc_doc_base
           "esri:DERelationshipClass").
  reflexivity.
Defined.

(** Takes a successful run of a step function apart, branch by branch. *)
Ltac step_cases H :=
  repeat match type of H with
         | bind ?m _ = Ok _ =>
             let c := fresh "c" in
             let E := fresh "E" in
             destruct m as [c|] eqn:E; cbn [bind] in H; [|discriminate H]
         | (if ?b then _ else _) = Ok _ =>
             let E := fresh "E" in destruct b eqn:E
         end.

Lemma ds_prop_step_name_text
  (ignore_len_non_text ignore_ds_alias ignore_fld_alias ignore_hasm
     ignore_hasz : bool)
  (st st' : dataset_locals) (x : option string * element) :
  text_valued "Name" (dataset_dict st) ->
  ds_prop_step ignore_len_non_text ignore_ds_alias ignore_fld_alias
    ignore_hasm ignore_hasz st x = Ok st' ->
  text_valued "Name" (dataset_dict st').
Proof.
  intros HI H. destruct x as [parent ds_prop]. unfold ds_prop_step in H.
  step_cases H; injection H as <-;
    cbn [dataset_dict set_dataset_dict]; try assumption;
    (apply text_valued_assign;
     [assumption | intros K; try discriminate K; eexists; reflexivity]).
Qed.

Lemma dataset_record_name_text
  (ignore_len_non_text ignore_ds_alias ignore_fld_alias ignore_hasm
     ignore_hasz : bool) (e : element) (d : pyval) :
  dataset_record ignore_len_non_text ignore_ds_alias ignore_fld_alias
    ignore_hasm ignore_hasz e = Ok d ->
  text_at "Name" d.
Proof.
  unfold dataset_record. intros H.
  apply bind_ok in H as (st & Hst & H). injection H as <-.
  apply text_valued_at.
  apply text_valued_assign; [|discriminate].
  apply text_valued_assign; [|discriminate].
  revert Hst.
  apply (foldM_invariant (fun s => text_valued "Name" (dataset_dict s))).
  - intros s x s' _. apply ds_prop_step_name_text.
  - intros v. discriminate.
Qed.

(** The feature-class and table parser returns one record for every
    [DataElement] of the requested type, in ascending order of [Name]. *)
Theorem dataset_parser_returns_the_matching_elements
  (ignore_len_non_text ignore_ds_alias ignore_fld_alias ignore_hasm
     ignore_hasz : bool)
  (tree : element) (ds_type : string) (l : list pyval) :
  get_dataset_properties ignore_len_non_text ignore_ds_alias
    ignore_fld_alias ignore_hasm ignore_hasz tree ds_type = Ok l ->
  exists rs,
    Forall2 (fun e d =>
               dataset_record ignore_len_non_text ignore_ds_alias
                 ignore_fld_alias ignore_hasm ignore_hasz e = Ok d)
      (filter (of_type ds_type) (iter_tag "DataElement" tree)) rs
    /\ Permutation l rs
    /\ Sorted (in_order (itemgetter "Name")) l.
Proof.
  intros H. unfold get_dataset_properties in H.
  eapply (@collect_loop
            (dataset_record ignore_len_non_text ignore_ds_alias
               ignore_fld_alias ignore_hasm ignore_hasz)
            "Name" ds_type) in H.
  - exact H.
  - intros lst elem. reflexivity.
  - intros e d. apply dataset_record_name_text.
  - constructor.
  - constructor.
Qed.

Lemma topo_record_name_text (fc_dict : list (text * pyval)) (e : element)
  (d : pyval) :
  topo_record fc_dict e = Ok d -> text_at "Name" d.
Proof.
  unfold topo_record. intros H.
  apply bind_ok in H as (st & Hst & H).
  apply bind_ok in H as (rules & _ & H). injection H as <-.
  apply text_valued_at.
  apply text_valued_assign; [|discriminate].
  apply text_valued_assign; [|discriminate].
  revert Hst.
  apply (foldM_invariant (fun s => text_valued "Name" (topo_dict s))).
  - intros s x s' _ HI Hstep. unfold topo_prop_step in Hstep.
    step_cases Hstep; injection Hstep as <-; cbn [topo_dict];
      try assumption.
    apply text_valued_assign; [assumption|]. intros _. eexists; reflexivity.
  - intros v. discriminate.
Qed.

(** The topology parser returns one record for every [DataElement] of the
    requested type, built with the id-to-name table of the document's
    feature classes, in ascending order of [Name]. *)
Theorem topo_parser_returns_the_matching_elements
  (tree : element) (ds_type : string) (l : list pyval) :
  get_topo_properties tree ds_type = Ok l ->
  exists fc_dict name rs,
    foldM fc_dict_step (iter_tag "DataElement" tree) ([], None)
    = Ok (fc_dict, name)
    /\ Forall2 (fun e d => topo_record fc_dict e = Ok d)
         (filter (of_type ds_type) (iter_tag "DataElement" tree)) rs
    /\ Permutation l rs
    /\ Sorted (in_order (itemgetter "Name")) l.
Proof.
  intros H. unfold get_topo_properties in H.
  apply bind_ok in H as ([fc_dict name] & Hfc & H).
  exists fc_dict, name.
  eapply (@collect_loop (topo_record fc_dict) "Name" ds_type) in H.
  - destruct H as (rs & H). exists rs. split; [exact Hfc | exact H].
  - intros lst elem. reflexivity.
  - intros e d. apply topo_record_name_text.
  - constructor.
  - constructor.
Qed.

(** ** The domain parser *)

Lemma coded_value_step_dict (st st' : domain_locals) (cv_prop : element) :
  coded_value_step st cv_prop = Ok st' ->
  dl_domain_dict st' = dl_domain_dict st.
Proof.
  unfold coded_value_step. intros H.
  step_cases H; injection H as <-; reflexivity.
Qed.

Lemma domain_prop_step_name_text (st st' : domain_locals) (x : element) :
  text_valued "DomainName" (dl_domain_dict st) ->
  domain_prop_step st x = Ok st' ->
  text_valued "DomainName" (dl_domain_dict st').
Proof.
  intros HI H. unfold domain_prop_step in H.
  step_cases H; injection H as <-; cbn [dl_domain_dict]; try assumption.
  - apply text_valued_assign; [assumption|]. intros _. eexists; reflexivity.
  - apply text_valued_assign; [|discriminate].
    revert E1.
    apply (foldM_invariant
             (fun s => text_valued "DomainName" (dl_domain_dict s)));
      [|assumption].
    intros s cv s' _ Hs.
    apply (foldM_invariant
             (fun s => text_valued "DomainName" (dl_domain_dict s)));
      [|assumption].
    intros s1 p s2 _ Hs1 Hp. now rewrite (coded_value_step_dict _ _ Hp).
  - apply text_valued_assign; [assumption|discriminate].
Qed.

(** The loop over the [Domain] elements of one container appends one record
    per element. *)
Lemma domain_elems_loop (elems : list element) (dl dl' : list pyval)
  (n n' m m' : option text) :
  foldM domain_elem_step elems (dl, n, m) = Ok (dl', n', m') ->
  exists rs, dl' = dl ++ rs /\ List.length rs = List.length elems
             /\ Forall (text_at "DomainName") rs.
Proof.
  revert dl n m. induction elems as [|e elems IH]; intros dl n m H.
  - simpl in H. injection H as <- <- <-. exists [].
    rewrite app_nil_r. repeat split. constructor.
  - simpl in H. apply bind_ok in H as ([[dl1 n1] m1] & Hstep & H).
    unfold domain_elem_step in Hstep.
    apply bind_ok in Hstep as (st & Hst & Hstep).
    injection Hstep as <- <- <-.
    destruct (IH _ _ _ H) as (rs & -> & Hlen & Hrs).
    exists (PDict (dl_domain_dict st) :: rs).
    rewrite <- app_assoc. simpl. repeat split; [now rewrite Hlen|].
    constructor; [|assumption]. apply text_valued_at.
    revert Hst.
    apply (foldM_invariant
             (fun s => text_valued "DomainName" (dl_domain_dict s))).
    + intros s x s' _. apply domain_prop_step_name_text.
    + intros v. discriminate.
Qed.

(** The domain parser keeps the domains of the last [Domains] container
    only: the list it returns has one entry for every [Domain] element
    below that container, in ascending order of [DomainName]. *)
Theorem domain_parser_reads_the_last_container
  (tree : element) (nodes : list element) (last : element)
  (l : list pyval) :
  iter_tag "Domains" tree = nodes ++ [last] ->
  get_domain_properties tree = Ok l ->
  List.length l = List.length (iter_tag "Domain" last)
  /\ Sorted (in_order (itemgetter "DomainName")) l.
Proof.
  intros Hn H. unfold get_domain_properties in H. rewrite Hn in H.
  rewrite foldM_app in H.
  apply bind_ok in H as ([[dl n] m] & Hloop & H).
  apply bind_ok in Hloop as ([[dl0 n0] m0] & _ & Hlast).
  simpl in Hlast. apply bind_ok in Hlast as ([[dl1 n1] m1] & Hlast & E).
  injection E as <- <- <-.
  unfold domains_node_step in Hlast.
  apply bind_ok in Hlast as ([[dl2 n2] m2] & Helems & E).
  injection E as <- <- <-.
  apply domain_elems_loop in Helems as (rs & -> & Hlen & Hrs).
  simpl in H. split.
  - rewrite <- Hlen. apply Permutation_length. now apply sort_by_perm in H.
  - apply (sort_by_sorted (itemgetter "DomainName") rs); [|exact H].
    intros x k Hin Hk. rewrite Forall_forall in Hrs. now apply (Hrs x).
Qed.

(** Two containers: the range domain of the first one is not returned. *)
Definition two_containers : element :=
  node "Workspace"
    [node "Domains" [range_domain "esriFieldTypeInteger" "esriMPTSumValues"];
     node "Domains"
       [node "Domain" [leaf "DomainName" "Surface"];
        node "Domain" [leaf "DomainName" "Material"]]].

Lemma domain_parser_reads_the_last_container_witness :
  get_domain_properties two_containers
  = Ok [PDict [(Some "DomainName", PStr "Material")];
        PDict [(Some "DomainName", PStr "Surface")]]
  /\ List.length [PDict [(Some "DomainName", PStr "Material")];
                  PDict [(Some "DomainName", PStr "Surface")]]
     = List.length
         (iter_tag "Domain"
            (node "Domains"
               [node "Domain" [leaf "DomainName" "Surface"];
                node "Domain" [leaf "DomainName" "Material"]]))
  /\ Sorted (in_order (itemgetter "DomainName"))
       [PDict [(Some "DomainName", PStr "Material")];
        PDict [(Some "DomainName", PStr "Surface")]].
Proof.
  split; [reflexivity|].
  apply (@domain_parser_reads_the_last_container two_containers
           [node "Domains"
              [range_domain "esriFieldTypeInteger" "esriMPTSumValues"]]
           (node "Domains"
              [node "Domain" [leaf "DomainName" "Surface"];
               node "Domain" [leaf "DomainName" "Material"]])); reflexivity.
Defined.

Lemma dataset_parser_returns_the_matching_elements_witness :
  exists l,
    normalise roads_two_fields = Ok l
    /\ exists rs,
         Forall2 (fun e d =>
                    dataset_record IGNORE_LEN_NON_TEXT_FIELDS false false
                      false false e = Ok d)
           (filter (of_type "esri:DEFeatureClass")
              (iter_tag "DataElement" roads_two_fields)) rs
         /\ Permutation l rs
         /\ Sorted (in_order (itemgetter "Name")) l.
Proof.
  eexists. split; [vm_compute; reflexivity|].
  apply (@dataset_parser_returns_the_matching_elements
           IGNORE_LEN_NON_TEXT_FIELDS false false false false
           roads_two_fields "esri:DEFeatureClass").
  vm_compute. reflexivity.
Defined.

(** A topology over two feature classes. *)
Definition topo_rule (rule_type origin destination : string) : element :=
  Element "TopologyRule" (xsi "esri:TopologyRule") None
    [leaf "TopologyRuleType" rule_type; leaf "OriginClassID" origin;
     leaf "OriginSubtype" "0"; leaf "DestinationClassID" destination;
     leaf "DestinationSubtype" "0"].

Definition topo_doc (tolerance : string) (fcs : list string)
  (rules : list element) : element :=
  workspace
    [data_element "esri:DEFeatureClass"
       [leaf "Name" "Roads"; leaf "DSID" "7"];
     data_element "esri:DEFeatureClass"
       [leaf "Name" "Parcels"; leaf "DSID" "9"];
     data_element "esri:DETopology"
       [leaf "Name" "Landbase_Topology"; leaf "ClusterTolerance" tolerance;
        node "FeatureClassNames" (map (leaf "Name") fcs);
        node "TopologyRules" rules]]
    [].

Definition landbase_doc : element :=
  topo_doc "0.001" ["Roads"; "Parcels"]
    [topo_rule "esriTRTLineNoDangles" "7" "7";
     topo_rule "esriTRTAreaNoOverlap" "9" "9"].

Lemma topo_parser_returns_the_matching_elements_witness :
  exists l,
    get_topo_properties landbase_doc "esri:DETopology" = Ok l
    /\ exists fc_dict name rs,
         foldM fc_dict_step (iter_tag "DataElement" landbase_doc) ([], None)
         = Ok (fc_dict, name)
         /\ Forall2 (fun e d => topo_record fc_dict e = Ok d)
              (filter (of_type "esri:DETopology")
                 (iter_tag "DataElement" landbase_doc)) rs
         /\ Permutation l rs
         /\ Sorted (in_order (itemgetter "Name")) l.
Proof.
  eexists. split; [vm_compute; reflexivity|].
  apply (@topo_parser_returns_the_matching_elements landbase_doc
           "esri:DETopology").
  vm_compute. reflexivity.
Defined.

(** ** A [DataElement] without attributes *)

Lemma is_ok_bind_false {A B} (m : result A) (k : A -> result B) :
  is_ok m = false -> is_ok (bind m k) = false.
Proof. destruct m; [discriminate | reflexivity]. Qed.

(** A loop with a round that always raises does not return. *)
Lemma foldM_fails {A S} (body : S -> A -> result S) (l : list A) (x : A) :
  In x l -> (forall s, is_ok (body s x) = false) ->
  forall s, is_ok (foldM body l s) = false.
Proof.
  intros Hin Hx. induction l as [|y l IH]; intros s; [contradiction|].
  simpl. destruct Hin as [-> | Hin].
  - apply is_ok_bind_false, Hx.
  - destruct (body s y); [apply IH; assumption | reflexivity].
Qed.

Lemma first_attrib_fails {B} (e : element) (k : string -> result B) :
  attrib e = [] -> is_ok (a <- first_attrib e ;; k a) = false.
Proof. unfold first_attrib. intros ->. reflexivity. Qed.

Lemma in_iter_tag (t : string) (tree e : element) :
  In e (iter tree) -> tag e = t -> In e (iter_tag t tree).
Proof.
  intros Hin Ht. unfold iter_tag. apply filter_In. split; [assumption|].
  rewrite Ht. apply String.eqb_refl.
Qed.

(** Every parser reads [elem.attrib.values()[0]] of every [DataElement] of
    the document: if one of them has no attribute, none of the parsers of
    the data elements returns, whatever type is asked for. *)
Theorem data_element_without_attribute_stops_every_parser
  (tree e : element) :
  In e (iter tree) -> tag e = "DataElement" -> attrib e = [] ->
  (forall ds_type, is_ok (get_fds_properties tree ds_type) = false)
  /\ (forall len_flag a b c d ds_type,
        is_ok (get_dataset_properties len_flag a b c d tree ds_type) = false)
  /\ (forall ds_type, is_ok (get_rc_properties tree ds_type) = false)
  /\ (forall ds_type, is_ok (get_topo_properties tree ds_type) = false)
  /\ (forall ds_types,
        is_ok (get_attr_rules_properties tree ds_types) = false).
Proof.
  intros Hin Ht Ha. pose proof (in_iter_tag _ _ Hin Ht) as Hin'.
  repeat split; intros.
  - unfold get_fds_properties. apply is_ok_bind_false.
    apply (foldM_fails _ _ e Hin'). intros s.
    now apply first_attrib_fails.
  - unfold get_dataset_properties.
    apply (foldM_fails _ _ e Hin'). intros s.
    now apply first_attrib_fails.
  - unfold get_rc_properties.
    apply (foldM_fails _ _ e Hin'). intros s.
    now apply first_attrib_fails.
  - unfold get_topo_properties. apply is_ok_bind_false.
    apply (foldM_fails _ _ e Hin'). intros s. unfold fc_dict_step.
    now apply first_attrib_fails.
  - unfold get_attr_rules_properties. apply is_ok_bind_false.
    apply (foldM_fails _ _ e Hin'). intros s.
    now apply first_attrib_fails.
Qed.

Definition doc_with_bare_element : element :=
  node "Workspace"
    [data_element "esri:DETable" [leaf "Name" "Inspections"];
     node "DataElement" [leaf "Name" "Orphan"]].

Lemma data_element_without_attribute_stops_every_parser_witness :
  (forall ds_type,
     is_ok (get_fds_properties doc_with_bare_element ds_type) = false)
  /\ (forall len_flag a b c d ds_type,
        is_ok (get_dataset_properties len_flag a b c d
                 doc_with_bare_element ds_type) = false)
  /\ (forall ds_type,
        is_ok (get_rc_properties doc_with_bare_element ds_type) = false)
  /\ (forall ds_type,
        is_ok (get_topo_properties doc_with_bare_element ds_type) = false)
  /\ (forall ds_types,
        is_ok (get_attr_rules_properties doc_with_bare_element ds_types)
        = false).
Proof.
  apply (@data_element_without_attribute_stops_every_parser
           doc_with_bare_element (node "DataElement" [leaf "Name" "Orphan"]));
    [simpl; auto 10 | reflexivity | reflexivity].
Defined.

(** ** Field records *)


Lemma lookup_assign_neq {V} (k k' : string) (v : V) (d : list (text * V)) :
  k' <> k -> lookup (Some k) (assign (Some k') v d) = lookup (Some k) d.
Proof.
  intros Hne. apply lookup_assign_other. simpl.
  apply String.eqb_neq. congruence.
Qed.

Lemma lookup_fold_assign {A V} (k k' : string) (p : A -> bool) (v : A -> V)
  (l : list A) (d : list (text * V)) :
  k' <> k ->
  lookup (Some k)
    (fold_left (fun d x => if p x then assign (Some k') (v x) d else d) l d)
  = lookup (Some k) d.
Proof.
  intros Hne. revert d. induction l as [|x l IH]; intros d; simpl;
    [reflexivity|].
  rewrite IH. destruct (p x); [now apply lookup_assign_neq | reflexivity].
Qed.

(** A child of a [Field] element only touches its own key and [Domain]. *)
Lemma field_prop_step_other (ignore_fld_alias : bool) (k : string)
  (d d' : list (text * pyval)) (c : element) :
  field_prop_step ignore_fld_alias d c = Ok d' ->
  tag c <> k -> "Domain" <> k ->
  lookup (Some k) d' = lookup (Some k) d.
Proof.
  intros H Ht Hd. unfold field_prop_step in H.
  step_cases H; injection H as <-;
    rewrite ?lookup_fold_assign, ?lookup_assign_neq by assumption;
    reflexivity.
Qed.

Lemma field_props_total (ignore_fld_alias : bool) (l : list element) :
  Forall (fun c => tag c = "Name" -> txt c <> None) l ->
  forall d, exists d', foldM (field_prop_step ignore_fld_alias) l d = Ok d'.
Proof.
  induction 1 as [|c l Hc _ IH]; intros d; simpl; [eauto|].
  assert (E : exists d1, field_prop_step ignore_fld_alias d c = Ok d1).
  { unfold field_prop_step.
    destruct (existsb _ _); [eauto|].
    destruct (String.eqb (tag c) "Name") eqn:En.
    - apply String.eqb_eq in En. specialize (Hc En).
      destruct (txt c); [simpl; eauto | congruence].
    - destruct (String.eqb (tag c) "AliasName" && negb ignore_fld_alias);
        [eauto|].
      destruct (String.eqb (tag c) "Domain"); eauto. }
  destruct E as [d1 ->]. cbn [bind]. apply IH.
Qed.

Lemma delitem_absent {V} (k : text) (d : list (text * V)) :
  lookup k d = None -> delitem k d = Raise KeyError.
Proof.
  induction d as [|[k' v] d IH]; simpl; [reflexivity|].
  destruct (text_eqb k k'); [discriminate|].
  intros H. now rewrite IH.
Qed.

Lemma type_after_field_prop_step (ignore_fld_alias : bool)
  (d d' : list (text * pyval)) (c : element) :
  field_prop_step ignore_fld_alias d c = Ok d' ->
  tag c = "Type" ->
  lookup (Some "Type") d' = Some (of_text (txt c)).
Proof.
  destruct c as [t a x ch]. simpl. intros H ->.
  injection H as <-. apply lookup_assign_same.
Qed.

(** With the flag set, the record of a [Field] element that is not of the
    text type and has no [Length] child cannot be built: either [Type] is
    missing, or [Length] is when it is to be deleted. *)
Lemma non_text_field_without_length (ignore_fld_alias : bool)
  (field : element) :
  Forall (fun c => tag c = "Name" -> txt c <> None) (getchildren field) ->
  Forall (fun c => tag c <> "Length") (getchildren field) ->
  Forall (fun c => tag c = "Type" -> txt c <> Some "esriFieldTypeString")
    (getchildren field) ->
  field_record IGNORE_LEN_NON_TEXT_FIELDS ignore_fld_alias field
  = Raise KeyError.
Proof.
  intros Hn Hl Ht. unfold field_record.
  destruct (@field_props_total ignore_fld_alias (getchildren field) Hn [])
    as [d Hd].
  rewrite Hd. cbn [bind].
  assert (HL : lookup (Some "Length") d = None).
  { revert Hd.
    apply (foldM_invariant (fun d => lookup (Some "Length") d = None));
      [|reflexivity].
    intros s c s' Hin Hs Hstep.
    rewrite (@field_prop_step_other ignore_fld_alias "Length" s s' c Hstep);
      [assumption| |].
    - rewrite Forall_forall in Hl. now apply Hl.
    - discriminate. }
  assert (HT : forall v, lookup (Some "Type") d = Some v ->
                         v <> PStr "esriFieldTypeString").
  { revert Hd.
    apply (foldM_invariant
             (fun d => forall v, lookup (Some "Type") d = Some v ->
                                 v <> PStr "esriFieldTypeString"));
      [|discriminate].
    intros s c s' Hin Hs Hstep v.
    destruct (String.eqb (tag c) "Type") eqn:E.
    - apply String.eqb_eq in E.
      rewrite (@type_after_field_prop_step ignore_fld_alias s s' c Hstep E).
      intros [= <-]. rewrite Forall_forall in Ht. specialize (Ht c Hin E).
      destruct (txt c); simpl; congruence.
    - apply String.eqb_neq in E.
      rewrite (@field_prop_step_other ignore_fld_alias "Type" s s' c Hstep);
        [apply Hs | assumption | discriminate]. }
  unfold getitem. destruct (lookup (Some "Type") d) as [v|] eqn:Ev;
    [|reflexivity].
  cbn [bind]. specialize (HT v eq_refl).
  destruct (py_eqb v (PStr "esriFieldTypeString")) eqn:E.
  - apply py_eqb_str_l in E. contradiction.
  - cbn. now rewrite (@delitem_absent pyval (Some "Length") d HL).
Qed.

Lemma and_parent_false (p : option string) :
  and_parent_is_data_element false p = Ok false.
Proof. reflexivity. Qed.

(** A [Field] element whose record cannot be built stops the parser of the
    whole document. *)
Lemma failing_field_stops_the_parser
  (ignore_len_non_text ignore_ds_alias ignore_fld_alias ignore_hasm
     ignore_hasz : bool)
  (tree elem field : element) (parent : option string) (ds_type : string) :
  In elem (iter_tag "DataElement" tree) ->
  of_type ds_type elem = true ->
  In (parent, field) (iter_parent None elem) ->
  tag field = "Field" ->
  is_ok (field_record ignore_len_non_text ignore_fld_alias field) = false ->
  is_ok (get_dataset_properties ignore_len_non_text ignore_ds_alias
           ignore_fld_alias ignore_hasm ignore_hasz tree ds_type) = false.
Proof.
  intros Hin Hty Hf Ht Hrec. unfold get_dataset_properties.
  apply (foldM_fails _ _ elem Hin). intros s.
  unfold of_type in Hty. unfold first_attrib.
  destruct (attrib elem) as [|[n a] rest]; [discriminate|].
  cbn [bind]. rewrite Hty. apply is_ok_bind_false.
  unfold dataset_record. apply is_ok_bind_false.
  apply (foldM_fails _ _ (parent, field) Hf). intros st.
  unfold ds_prop_step. rewrite Ht. cbn.
  now apply is_ok_bind_false.
Qed.

(** With [IGNORE_LEN_NON_TEXT_FIELDS] set, a [Field] element of a feature
    class or table that is not of the text type and has no [Length] child
    raises [KeyError], and the parser returns no collection for the
    document. *)
Theorem non_text_field_without_length_stops_the_parser
  (ignore_ds_alias ignore_fld_alias ignore_hasm ignore_hasz : bool)
  (tree elem field : element) (parent : option string) (ds_type : string) :
  In elem (iter_tag "DataElement" tree) ->
  of_type ds_type elem = true ->
  In (parent, field) (iter_parent None elem) ->
  tag field = "Field" ->
  Forall (fun c => tag c = "Name" -> txt c <> None) (getchildren field) ->
  Forall (fun c => tag c <> "Length") (getchildren field) ->
  Forall (fun c => tag c = "Type" -> txt c <> Some "esriFieldTypeString")
    (getchildren field) ->
  field_record IGNORE_LEN_NON_TEXT_FIELDS ignore_fld_alias field
  = Raise KeyError
  /\ is_ok (get_dataset_properties IGNORE_LEN_NON_TEXT_FIELDS
              ignore_ds_alias ignore_fld_alias ignore_hasm ignore_hasz
              tree ds_type) = false.
Proof.
  intros Hin Hty Hf Ht Hn Hl Htype.
  pose proof (@non_text_field_without_length ignore_fld_alias field
                Hn Hl Htype) as E.
  split; [exact E|].
  apply (@failing_field_stops_the_parser IGNORE_LEN_NON_TEXT_FIELDS
           ignore_ds_alias ignore_fld_alias ignore_hasm ignore_hasz
           tree elem field parent ds_type Hin Hty Hf Ht).
  now rewrite E.
Qed.

(** A date field written without [Length]. *)
Definition date_field : element :=
  Element "Field" (xsi "esri:Field") None
    [leaf "Name" "INSPECTED"; leaf "Type" "esriFieldTypeDate";
     leaf "IsNullable" "true"].

Lemma non_text_field_without_length_stops_the_parser_witness :
  field_record IGNORE_LEN_NON_TEXT_FIELDS false date_field = Raise KeyError
  /\ is_ok (get_dataset_properties IGNORE_LEN_NON_TEXT_FIELDS
              false false false false
              (roads_doc [date_field]) "esri:DEFeatureClass") = false.
Proof.
  apply (@non_text_field_without_length_stops_the_parser
           false false false false (roads_doc [date_field])
           (data_element "esri:DEFeatureClass"
              [leaf "CatalogPath" "/FC=Roads"; leaf "Name" "Roads";
               leaf "Versioned" "false"; leaf "CanVersion" "false";
               node "Fields" [node "FieldArray" [date_field]];
               leaf "ShapeType" "esriGeometryPolyline"])
           date_field (Some "FieldArray") "esri:DEFeatureClass").
  - simpl. auto.
  - reflexivity.
  - simpl. auto 20.
  - reflexivity.
  - repeat constructor; discriminate.
  - repeat constructor; discriminate.
  - repeat constructor; discriminate.
Defined.

(** ** The record of a feature class or table *)

Section DatasetRecord.
Variables ignore_len_non_text ignore_ds_alias ignore_fld_alias : bool.
Variables ignore_hasm ignore_hasz : bool.

(** An element that is not a [Field] leaves the fields alone and touches
    no key but its own tag. *)
Lemma ds_prop_step_not_field (st st' : dataset_locals)
  (p : option string) (x : element) :
  ds_prop_step ignore_len_non_text ignore_ds_alias ignore_fld_alias
    ignore_hasm ignore_hasz st (p, x) = Ok st' ->
  tag x <> "Field" ->
  flds_list st' = flds_list st
  /\ forall k, tag x <> k ->
               lookup (Some k) (dataset_dict st')
               = lookup (Some k) (dataset_dict st).
Proof.
  unfold ds_prop_step. intros H Ht.
  step_cases H; injection H as <-;
    cbn [flds_list dataset_dict set_dataset_dict];
    try (split; [reflexivity|]; intros k Hk;
         rewrite ?lookup_assign_neq by assumption; reflexivity).
  match goal with
  | E : String.eqb (tag x) "Field" = true |- _ =>
      apply String.eqb_eq in E; contradiction
  end.
Qed.

(** A [Field] element adds its record, unless an equal one is there, and
    stores the list under [Fields]. *)
Lemma ds_prop_step_field (st st' : dataset_locals)
  (p : option string) (x : element) :
  ds_prop_step ignore_len_non_text ignore_ds_alias ignore_fld_alias
    ignore_hasm ignore_hasz st (p, x) = Ok st' ->
  tag x = "Field" ->
  exists f,
    field_record ignore_len_non_text ignore_fld_alias x = Ok f
    /\ flds_list st'
       = (if negb (py_in f (flds_list st))
          then flds_list st ++ [f] else flds_list st)
    /\ dataset_dict st'
       = assign (Some "Fields") (PList (flds_list st')) (dataset_dict st).
Proof.
  unfold ds_prop_step. intros H Ht. rewrite Ht in H.
  cbn -[field_record py_in assign] in H.
  destruct (field_record ignore_len_non_text ignore_fld_alias x)
    as [f|e] eqn:E; cbn [bind] in H; [|discriminate].
  injection H as <-. exists f. repeat split.
Qed.

(** An element whose tag no branch of the loop takes changes nothing. *)
Lemma ds_prop_step_inert (st st' : dataset_locals)
  (p : option string) (x : element) :
  ds_prop_step ignore_len_non_text ignore_ds_alias ignore_fld_alias
    ignore_hasm ignore_hasz st (p, x) = Ok st' ->
  tag x = "Fields"
  \/ (tag x = "AliasName" /\ ignore_ds_alias = true)
  \/ (tag x = "HasM" /\ ignore_hasm = true)
  \/ (tag x = "HasZ" /\ ignore_hasz = true) ->
  st' = st.
Proof.
  unfold ds_prop_step. intros H Ht.
  destruct Ht as [Ht | [[Ht ->] | [[Ht ->] | [Ht ->]]]]; rewrite Ht in H;
    cbn in H; now injection H as <-.
Qed.

Definition field_of (elem : element) (f : pyval) : Prop :=
  exists parent field,
    In (parent, field) (iter_parent None elem)
    /\ tag field = "Field"
    /\ field_record ignore_len_non_text ignore_fld_alias field = Ok f.

Definition later_differs (a b : pyval) : Prop := py_eqb b a = false.

Lemma ForallOrdPairs_snoc {A} (R : A -> A -> Prop) (l : list A) (x : A) :
  ForallOrdPairs R l -> Forall (fun a => R a x) l ->
  ForallOrdPairs R (l ++ [x]).
Proof.
  induction 1 as [|a l Ha _ IH]; intros Hx; simpl.
  - repeat constructor.
  - inversion Hx; subst. constructor; [|now apply IH].
    apply Forall_app. split; [assumption|]. now constructor.
Qed.

Lemma py_in_false (x : pyval) (l : list pyval) :
  py_in x l = false -> Forall (fun a => py_eqb x a = false) l.
Proof.
  unfold py_in. induction l as [|a l IH]; simpl; intros H; constructor.
  - now apply orb_false_iff in H.
  - apply IH. now apply orb_false_iff in H.
Qed.

(** What holds of the locals all along the loop over [elem.iter()]. *)
Definition fields_invariant (elem : element) (st : dataset_locals) : Prop :=
  (forall v, lookup (Some "Fields") (dataset_dict st) = Some v ->
             v = PList (flds_list st))
  /\ ForallOrdPairs later_differs (flds_list st)
  /\ Forall (field_of elem) (flds_list st).

Lemma fields_invariant_step (elem : element) (st st' : dataset_locals)
  (x : option string * element) :
  In x (iter_parent None elem) ->
  fields_invariant elem st ->
  ds_prop_step ignore_len_non_text ignore_ds_alias ignore_fld_alias
    ignore_hasm ignore_hasz st x = Ok st' ->
  fields_invariant elem st'.
Proof.
  intros Hin (Hl & Hp & Hf) H. destruct x as [p x].
  destruct (String.eqb (tag x) "Field") eqn:Et.
  - apply String.eqb_eq in Et.
    destruct (ds_prop_step_field _ _ _ H Et) as (f & Hrec & Hfl & Hd).
    unfold fields_invariant. rewrite Hd, Hfl. split; [|split].
    + intros v. rewrite lookup_assign_same. now intros [= <-].
    + destruct (py_in f (flds_list st)) eqn:Ein; simpl; [assumption|].
      apply ForallOrdPairs_snoc; [assumption|]. now apply py_in_false.
    + destruct (py_in f (flds_list st)); simpl; [assumption|].
      apply Forall_app. split; [assumption|]. constructor; [|constructor].
      exists p, x. auto.
  - apply String.eqb_neq in Et.
    destruct (String.eqb (tag x) "Fields") eqn:Es.
    + apply String.eqb_eq in Es.
      rewrite (ds_prop_step_inert _ _ _ H (or_introl Es)).
      unfold fields_invariant. auto.
    + apply String.eqb_neq in Es.
      destruct (ds_prop_step_not_field _ _ _ H Et) as (Hfl & Hk).
      unfold fields_invariant. rewrite Hfl, (Hk "Fields" Es). auto.
Qed.

Lemma dataset_record_locals (elem : element) (d : list (text * pyval)) :
  dataset_record ignore_len_non_text ignore_ds_alias ignore_fld_alias
    ignore_hasm ignore_hasz elem = Ok (PDict d) ->
  exists st,
    foldM
      (ds_prop_step ignore_len_non_text ignore_ds_alias ignore_fld_alias
         ignore_hasm ignore_hasz)
      (iter_parent None elem)
      {| dataset_dict := [(Some "SubtypeFieldName", PStr "")];
         subtype_name_fld := Some "";
         subtype_default_code := Some "";
         flds_list := [];
         subtype_list := [] |} = Ok st
    /\ forall k, k <> "Subtypes" -> k <> "SubtypeInfo" ->
                 lookup (Some k) d = lookup (Some k) (dataset_dict st).
Proof.
  unfold dataset_record. intros H.
  apply bind_ok in H as (st & Hst & H). injection H as <-.
  exists st. split; [exact Hst|]. intros k H1 H2.
  rewrite !lookup_assign_neq by congruence. reflexivity.
Qed.

(** The invariant holds of the locals the record is built from. *)
Lemma dataset_record_invariant (elem : element) (d : list (text * pyval)) :
  dataset_record ignore_len_non_text ignore_ds_alias ignore_fld_alias
    ignore_hasm ignore_hasz elem = Ok (PDict d) ->
  exists st,
    fields_invariant elem st
    /\ lookup (Some "Fields") d = lookup (Some "Fields") (dataset_dict st).
Proof.
  intros H.
  destruct (dataset_record_locals elem H) as (st & Hst & Hk).
  exists st. split; [|apply Hk; discriminate].
  revert Hst. apply (foldM_invariant (fields_invariant elem)).
  - intros s x s' Hin. now apply fields_invariant_step.
  - repeat split; [discriminate | constructor | constructor].
Qed.

(** An ignored property leaves no trace in the dict of the dataset. *)
Lemma ignored_key_absent (k : string) (elem : element)
  (d : list (text * pyval)) :
  (k = "AliasName" /\ ignore_ds_alias = true)
  \/ (k = "HasM" /\ ignore_hasm = true)
  \/ (k = "HasZ" /\ ignore_hasz = true) ->
  dataset_record ignore_len_non_text ignore_ds_alias ignore_fld_alias
    ignore_hasm ignore_hasz elem = Ok (PDict d) ->
  lookup (Some k) d = None.
Proof.
  intros Hk H.
  destruct (dataset_record_locals elem H) as (st & Hst & Hd).
  rewrite Hd by (destruct Hk as [[-> _] | [[-> _] | [-> _]]]; discriminate).
  revert Hst.
  apply (foldM_invariant
           (fun st => lookup (Some k) (dataset_dict st) = None));
    [|destruct Hk as [[-> _] | [[-> _] | [-> _]]]; reflexivity].
  intros s [p x] s' _ Hs Hstep.
  destruct (String.eqb (tag x) k) eqn:Ek.
  - apply String.eqb_eq in Ek. subst k.
    now rewrite (ds_prop_step_inert _ _ _ Hstep (or_intror Hk)).
  - apply String.eqb_neq in Ek.
    destruct (String.eqb (tag x) "Field") eqn:Et.
    + apply String.eqb_eq in Et.
      destruct (ds_prop_step_field _ _ _ Hstep Et) as (f & _ & _ & ->).
      rewrite lookup_assign_neq; [assumption|].
      destruct Hk as [[-> _] | [[-> _] | [-> _]]]; discriminate.
    + apply String.eqb_neq in Et.
      destruct (ds_prop_step_not_field _ _ _ Hstep Et) as (_ & Hother).
      now rewrite Hother.
Qed.
End DatasetRecord.

(** The [Fields] list of a record holds records of [Field] elements found
    below the [DataElement], and no entry of it equals an earlier one. *)
Theorem fields_are_distinct_field_records
  (ignore_len_non_text ignore_ds_alias ignore_fld_alias ignore_hasm
     ignore_hasz : bool)
  (elem : element) (d : list (text * pyval)) (F : list pyval) :
  dataset_record ignore_len_non_text ignore_ds_alias ignore_fld_alias
    ignore_hasm ignore_hasz elem = Ok (PDict d) ->
  lookup (Some "Fields") d = Some (PList F) ->
  ForallOrdPairs later_differs F
  /\ Forall (field_of ignore_len_non_text ignore_fld_alias elem) F.
Proof.
  intros H HF.
  destruct (@dataset_record_invariant ignore_len_non_text ignore_ds_alias
              ignore_fld_alias ignore_hasm ignore_hasz elem d H)
    as (st & (Hl & Hp & Hf) & Hk).
  rewrite Hk in HF. apply Hl in HF. injection HF as ->.
  split; assumption.
Qed.

Lemma field_record_without_alias (ignore_len_non_text : bool)
  (field : element) (f : pyval) :
  field_record ignore_len_non_text true field = Ok f ->
  getitem f (Some "AliasName") = Raise KeyError.
Proof.
  unfold field_record. intros H.
  apply bind_ok in H as (raw & Hraw & H).
  apply bind_ok in H as (ty & _ & H).
  apply bind_ok in H as (d & Hd & H). injection H as <-.
  assert (Hr : lookup (Some "AliasName") raw = None).
  { revert Hraw.
    apply (foldM_invariant (fun d => lookup (Some "AliasName") d = None));
      [|reflexivity].
    intros s c s' _ Hs Hstep.
    destruct (String.eqb (tag c) "AliasName") eqn:E.
    - apply String.eqb_eq in E. unfold field_prop_step in Hstep.
      rewrite E in Hstep. cbn in Hstep. injection Hstep as <-.
      rewrite lookup_assign_neq; [assumption | discriminate].
    - apply String.eqb_neq in E.
      rewrite (@field_prop_step_other true "AliasName" s s' c Hstep);
        [assumption | assumption | discriminate]. }
  assert (E : lookup (Some "AliasName") d = None).
  { destruct (_ && _) in Hd.
    - rewrite (@delitem_other pyval (Some "Length") (Some "AliasName")
                 raw d Hd eq_refl). exact Hr.
    - now injection Hd as <-. }
  simpl. now rewrite E.
Qed.

(** The ignore options of the parser: with [ignore_ds_alias], [ignore_hasm]
    or [ignore_hasz] set, the record of a dataset has no [AliasName], [HasM]
    or [HasZ]; with [ignore_fld_alias] set, no record of its [Fields] has an
    [AliasName]. *)
Theorem ignored_properties_are_not_recorded
  (ignore_len_non_text ignore_ds_alias ignore_fld_alias ignore_hasm
     ignore_hasz : bool)
  (elem : element) (d : list (text * pyval)) :
  dataset_record ignore_len_non_text ignore_ds_alias ignore_fld_alias
    ignore_hasm ignore_hasz elem = Ok (PDict d) ->
  (ignore_ds_alias = true -> lookup (Some "AliasName") d = None)
  /\ (ignore_hasm = true -> lookup (Some "HasM") d = None)
  /\ (ignore_hasz = true -> lookup (Some "HasZ") d = None)
  /\ (ignore_fld_alias = true ->
      forall F f, lookup (Some "Fields") d = Some (PList F) -> In f F ->
                  getitem f (Some "AliasName") = Raise KeyError).
Proof.
  intros H. repeat split.
  - intros E. eapply ignored_key_absent; [|exact H]. auto.
  - intros E. eapply ignored_key_absent; [|exact H]. auto.
  - intros E. eapply ignored_key_absent; [|exact H]. auto.
  - intros -> F f HF Hin.
    destruct (@dataset_record_invariant ignore_len_non_text ignore_ds_alias
                true ignore_hasm ignore_hasz elem d H)
      as (st & (Hl & _ & Hf) & Hk).
    rewrite Hk in HF. apply Hl in HF. injection HF as ->.
    rewrite Forall_forall in Hf.
    destruct (Hf f Hin) as (p & field & _ & _ & Hrec).
    now apply field_record_without_alias in Hrec.
Qed.

(** A feature class as an export writes it: the properties, the fields, and
    the index section, which repeats the indexed field. *)
Definition owner_field : element :=
  field_elem "OWNER" "esriFieldTypeString" "50" [leaf "AliasName" "Owner"].

Definition parcels_elem : element :=
  data_element "esri:DEFeatureClass"
    [leaf "Name" "Parcels"; leaf "AliasName" "Land parcels";
     leaf "HasM" "false"; leaf "HasZ" "true";
     node "Fields" [node "FieldArray" [owner_field]];
     node "Indexes"
       [node "IndexArray"
          [node "Index"
             [leaf "Name" "IDX_OWNER";
              node "Fields" [node "FieldArray" [owner_field]]]]]].

Lemma fields_are_distinct_field_records_witness :
  exists d F,
    dataset_record IGNORE_LEN_NON_TEXT_FIELDS false false false false
      parcels_elem = Ok (PDict d)
    /\ lookup (Some "Fields") d = Some (PList F)
    /\ List.length F = 1
    /\ ForallOrdPairs later_differs F
    /\ Forall (field_of IGNORE_LEN_NON_TEXT_FIELDS false parcels_elem) F.
Proof.
  do 2 eexists. split; [vm_compute; reflexivity|].
  split; [vm_compute; reflexivity|]. split; [reflexivity|].
  eapply (@fields_are_distinct_field_records
           IGNORE_LEN_NON_TEXT_FIELDS false false false false parcels_elem);
    vm_compute; reflexivity.
Defined.

Lemma ignored_properties_are_not_recorded_witness :
  exists d,
    dataset_record IGNORE_LEN_NON_TEXT_FIELDS true true true true
      parcels_elem = Ok (PDict d)
    /\ lookup (Some "Name") d = Some (PStr "Parcels")
    /\ (true = true -> lookup (Some "AliasName") d = None)
    /\ (true = true -> lookup (Some "HasM") d = None)
    /\ (true = true -> lookup (Some "HasZ") d = None)
    /\ (true = true ->
        forall F f, lookup (Some "Fields") d = Some (PList F) -> In f F ->
                    getitem f (Some "AliasName") = Raise KeyError).
Proof.
  eexists. split; [vm_compute; reflexivity|]. split; [reflexivity|].
  apply (@ignored_properties_are_not_recorded
           IGNORE_LEN_NON_TEXT_FIELDS true true true true parcels_elem).
  vm_compute. reflexivity.
Defined.

(** ** Missing and additional entities *)

Lemma value_in_names (key : string) (F : list pyval) (f : pyval) :
  named key f -> In f F -> py_in (value_of key f) (names_of key F) = true.
Proof.
  intros (d & n & -> & Hl) Hin. unfold py_in, names_of.
  apply existsb_exists. exists (value_of key (PDict d)).
  split; [now apply in_map|].
  unfold value_of. simpl. rewrite Hl. apply String.eqb_refl.
Qed.

Lemma py_in_names (key : string) (F : list pyval) (f : pyval) :
  named key f -> py_in f F = true ->
  py_in (value_of key f) (names_of key F) = true.
Proof.
  intros Hf Hin. unfold py_in in Hin.
  apply existsb_exists in Hin as (b & Hb & E).
  destruct (@py_eqb_named key f b E Hf) as [Hnb Hv].
  rewrite <- Hv. now apply value_in_names.
Qed.

(** An entity whose name is not in [F] equals no entity of [F]. *)
Lemma not_named_not_in (key : string) (F : list pyval) (f : pyval) :
  named key f -> not_named_in key F f = true -> py_in f F = false.
Proof.
  intros Hf Hn. destruct (py_in f F) eqn:E; [|reflexivity].
  unfold not_named_in in Hn. now rewrite (@py_in_names key F f Hf E) in Hn.
Qed.

Lemma filter_filter_implied {A} (p q : A -> bool) (l : list A) :
  (forall x, In x l -> p x = true -> q x = true) ->
  filter p (filter q l) = filter p l.
Proof.
  induction l as [|x l IH]; intros H; simpl; [reflexivity|].
  destruct (q x) eqn:Eq; simpl.
  - rewrite IH; [reflexivity|]. intros; apply H; simpl; auto.
  - destruct (p x) eqn:Ep.
    + rewrite H in Eq; simpl; auto. discriminate.
    + apply IH. intros; apply H; simpl; auto.
Qed.

(** The entities of test that are compared property by property: those
    that equal no entity of base and whose name base knows. *)
Definition changed (key : string) (B T : list pyval) : list pyval :=
  filter (fun f => negb (not_named_in key B f))
    (filter (fun i => negb (py_in i B)) T).

Lemma split_by_name_spec (key : string) (B T : list pyval) :
  Forall (named key) B -> Forall (named key) T ->
  Forall (fun x => wf x = true) T ->
  split_by_name key B T
  = Ok (filter (not_named_in key T) B, changed key B T,
        filter (not_named_in key B) T).
Proof.
  intros HB HT Hwf. unfold split_by_name.
  rewrite (@names_ok key T HT), (@names_ok key B HB). cbn [bind].
  change (fun i => n <- getitem i (Some key) ;;
                   Ok (negb (py_in n (names_of key T))))
    with (name_not_in key (names_of key T)).
  change (fun i => n <- getitem i (Some key) ;;
                   Ok (negb (py_in n (names_of key B))))
    with (name_not_in key (names_of key B)).
  rewrite (@not_named_ok key T B HB), (@not_named_ok key B T HT).
  cbn [bind].
  rewrite <- (@filter_filter_implied _ (not_named_in key B)
                (fun i => negb (py_in i B)) T).
  - rewrite remove_additional; [reflexivity | |]; now apply Forall_filter.
  - intros x Hx Hn. rewrite Forall_forall in HT.
    now rewrite (@not_named_not_in key B x (HT x Hx) Hn).
Qed.

Lemma split_by_name_ends (key : string) (B T miss cand add : list pyval) :
  Forall (named key) B -> Forall (named key) T ->
  split_by_name key B T = Ok (miss, cand, add) ->
  miss = filter (not_named_in key T) B
  /\ add = filter (not_named_in key B) T.
Proof.
  intros HB HT. unfold split_by_name.
  rewrite (@names_ok key T HT), (@names_ok key B HB). cbn [bind].
  change (fun i => n <- getitem i (Some key) ;;
                   Ok (negb (py_in n (names_of key T))))
    with (name_not_in key (names_of key T)).
  change (fun i => n <- getitem i (Some key) ;;
                   Ok (negb (py_in n (names_of key B))))
    with (name_not_in key (names_of key B)).
  rewrite (@not_named_ok key T B HB), (@not_named_ok key B T HT).
  cbn [bind].
  intros H. apply bind_ok in H as (l & _ & H). now injection H as <- _ <-.
Qed.

(** Equal collections have the same names. *)
Lemma seq_eqb_names (key : string) (B T : list pyval) :
  Forall (named key) B -> seq_eqb B T = true ->
  filter (not_named_in key T) B = []
  /\ filter (not_named_in key B) T = [].
Proof.
  intros HB E.
  assert (H2 : Forall2 (fun b t => py_eqb b t = true) B T).
  { clear HB. revert T E. induction B as [|b B IH]; intros [|t T] E;
      simpl in E; try discriminate; constructor.
    - now apply andb_true_iff in E.
    - apply IH. now apply andb_true_iff in E. }
  assert (HT : Forall (named key) T
               /\ Forall2 (fun b t => value_of key t = value_of key b) B T).
  { clear E. induction H2 as [|b t B T E _ IH]; [split; constructor|].
    inversion HB as [|? ? Hb HB']; subst.
    destruct (IH HB') as [IH1 IH2].
    destruct (@py_eqb_named key b t E Hb) as [Hn Hv]. split; now constructor. }
  destruct HT as [HT Hv].
  assert (En : names_of key T = names_of key B).
  { clear - Hv. induction Hv as [|b t B T E _ IH]; simpl; [reflexivity|].
    now rewrite E, IH. }
  split; apply filter_nil_of; intros x Hx; unfold not_named_in.
  - rewrite En. rewrite Forall_forall in HB.
    now rewrite (@value_in_names key B x (HB x Hx) Hx).
  - rewrite <- En. rewrite Forall_forall in HT.
    now rewrite (@value_in_names key T x (HT x Hx) Hx).
Qed.

Lemma list_differ_ends (key : string) (B T : list pyval) (r : diff)
  (loop : result (list (text * pyval))) :
  Forall (named key) B -> Forall (named key) T ->
  (if py_eqb (PList B) (PList T) then Ok no_diff
   else '(miss, cand, add) <- split_by_name key B T ;;
        d <- loop ;; Ok (miss, d, add)) = Ok r ->
  fst (fst r) = filter (not_named_in key T) B
  /\ snd r = filter (not_named_in key B) T.
Proof.
  intros HB HT H. destruct (py_eqb (PList B) (PList T)) eqn:E.
  - injection H as <-. rewrite py_eqb_list in E.
    destruct (@seq_eqb_names key B T HB E) as [-> ->]. auto.
  - apply bind_ok in H as ([[miss cand] add] & Hs & H).
    apply bind_ok in H as (d & _ & H). injection H as <-.
    exact (@split_by_name_ends key B T miss cand add HB HT Hs).
Qed.

(** ** [==] is symmetric on well-formed values *)

Lemma distinct_NoDup (ks : list text) : distinct ks = true -> NoDup ks.
Proof.
  induction ks as [|k ks IH]; simpl; intros H; constructor.
  - apply andb_true_iff in H as [H _]. apply negb_true_iff in H.
    intros Hin.
    assert (existsb (text_eqb k) ks = true)
      by (apply existsb_exists; exists k; auto using text_eqb_refl).
    congruence.
  - apply IH. now apply andb_true_iff in H.
Qed.

Lemma items_in_intro (e d : list (text * pyval)) :
  (forall k v, In (k, v) d ->
               exists w, lookup k e = Some w /\ py_eqb v w = true) ->
  items_in e d = true.
Proof.
  induction d as [|[k v] d IH]; intros H; simpl; [reflexivity|].
  destruct (H k v (or_introl eq_refl)) as (w & -> & ->). simpl.
  apply IH. intros k' v' Hin. apply H. now right.
Qed.

Lemma seq_eqb_sym (l : list pyval) :
  Forall (fun a => forall b, wf a = true -> wf b = true ->
                             py_eqb a b = true -> py_eqb b a = true) l ->
  forall m, forallb wf l = true -> forallb wf m = true ->
            seq_eqb l m = true -> seq_eqb m l = true.
Proof.
  induction 1 as [|a l Ha _ IH]; intros [|b m] Hl Hm E; simpl in *;
    try discriminate; [reflexivity|].
  apply andb_true_iff in Hl as [Hwa Hl]. apply andb_true_iff in Hm as [Hwb Hm].
  apply andb_true_iff in E as [E1 E2].
  now rewrite (Ha b Hwa Hwb E1), (IH m Hl Hm E2).
Qed.

Lemma py_eqb_sym (a : pyval) :
  forall b, wf a = true -> wf b = true ->
            py_eqb a b = true -> py_eqb b a = true.
Proof.
  induction a as [ | s | l IH | l IH | d IH] using pyval_induction;
    intros b Ha Hb E.
  - destruct b; try discriminate. reflexivity.
  - destruct b; try discriminate. simpl in *. now rewrite String.eqb_sym.
  - destruct b as [ | |m| | ]; try discriminate.
    rewrite py_eqb_list in *. now apply seq_eqb_sym.
  - destruct b as [ | | |m| ]; try discriminate.
    rewrite py_eqb_tuple in *. now apply seq_eqb_sym.
  - destruct b as [ | | | |e]; try discriminate.
    rewrite py_eqb_dict in *. unfold dict_eqb in *.
    apply andb_true_iff in E as [En Ei].
    apply Nat.eqb_eq in En. rewrite <- En, Nat.eqb_refl. simpl.
    pose proof (wf_distinct _ Ha) as Dd. pose proof (wf_distinct _ Hb) as De.
    assert (Hincl : incl (keys e) (keys d)).
    { apply NoDup_length_incl.
      - now apply distinct_NoDup.
      - unfold keys. rewrite !length_map. lia.
      - intros k Hk. unfold keys in Hk. apply in_map_iff in Hk.
        destruct Hk as ([k' v] & <- & Hin).
        destruct (items_in_In _ _ _ _ Ei Hin) as (w & Hw & _).
        simpl. now apply lookup_In_keys in Hw. }
    apply items_in_intro. intros k w Hin.
    assert (Hk : In k (keys d)).
    { apply Hincl. unfold keys. change k with (fst (k, w)).
      now apply in_map. }
    unfold keys in Hk. apply in_map_iff in Hk.
    destruct Hk as ([k' v] & Ek & Hdin). simpl in Ek. subst k'.
    exists v. split; [now apply lookup_of_item|].
    destruct (items_in_In _ _ _ _ Ei Hdin) as (w' & Hw' & Evw).
    rewrite (lookup_of_item _ _ _ De Hin) in Hw'. injection Hw' as <-.
    rewrite Forall_forall in IH.
    apply (IH (k, v) Hdin); [ | | exact Evw].
    + now apply (wf_item _ _ _ Ha Hdin).
    + now apply (wf_item _ _ _ Hb Hin).
Qed.

(** An entity of test that equals no entity of base makes the two
    collections differ. *)
Lemma not_in_base_differs (B T : list pyval) (c : pyval) :
  Forall (fun x => wf x = true) B -> Forall (fun x => wf x = true) T ->
  In c T -> py_in c B = false ->
  py_eqb (PList B) (PList T) = false.
Proof.
  intros HB HT Hin Hc. rewrite py_eqb_list.
  destruct (seq_eqb B T) eqn:E; [|reflexivity]. exfalso.
  revert T HT Hin E. induction B as [|b B IH]; intros [|t T] HT Hin E;
    simpl in E; try discriminate; [contradiction|].
  apply andb_true_iff in E as [E1 E2].
  inversion HB as [|? ? Hb HB']; subst.
  inversion HT as [|? ? Ht HT']; subst.
  simpl in Hc. apply orb_false_iff in Hc as [Hc1 Hc2].
  destruct Hin as [-> | Hin].
  - rewrite (@py_eqb_sym b c Hb Ht E1) in Hc1. discriminate.
  - exact (IH HB' Hc2 T HT' Hin E2).
Qed.

(** In every differ of a list-shaped category, what is missing and what is
    additional is told by the names alone: the missing entities are the
    entities of base whose name no entity of test carries, in the order of
    base, and the additional ones are the entities of test whose name no
    entity of base carries, in the order of test. *)
Theorem missing_and_additional_are_told_by_name
  (rt : runtime) (name key : string) (B T : list pyval) (r : diff) :
  Forall (named key) B -> Forall (named key) T ->
  (key = "DomainName" /\ compare_domain_lists rt B T = Ok r)
  \/ (key = "Name"
      /\ (compare_fds_lists name B T = Ok r
          \/ compare_rc_lists name B T = Ok r
          \/ compare_topo_lists rt name B T = Ok r
          \/ exists s',
               compare_dataset_lists name
                 {| ds_list_base := B; ds_list_test := T |} = Ok (r, s'))) ->
  fst (fst r) = filter (not_named_in key T) B
  /\ snd r = filter (not_named_in key B) T.
Proof.
  intros HB HT [[-> H] | [-> [H | [H | [H | [s' H]]]]]].
  - unfold compare_domain_lists in H.
    destruct (py_eqb (PList B) (PList T)) eqn:E.
    + injection H as <-. rewrite py_eqb_list in E.
      destruct (@seq_eqb_names "DomainName" B T HB E) as [-> ->]. auto.
    + apply bind_ok in H as ([[miss cand] add] & Hs & H).
      apply bind_ok in H as ([d o] & _ & H). injection H as <-.
      exact (@split_by_name_ends "DomainName" B T miss cand add HB HT Hs).
  - unfold compare_fds_lists in H.
    destruct (py_eqb (PList B) (PList T)) eqn:E.
    + injection H as <-. rewrite py_eqb_list in E.
      destruct (@seq_eqb_names "Name" B T HB E) as [-> ->]. auto.
    + apply bind_ok in H as ([[miss cand] add] & Hs & H).
      apply bind_ok in H as (d & _ & H). injection H as <-.
      exact (@split_by_name_ends "Name" B T miss cand add HB HT Hs).
  - unfold compare_rc_lists in H.
    destruct (py_eqb (PList B) (PList T)) eqn:E.
    + injection H as <-. rewrite py_eqb_list in E.
      destruct (@seq_eqb_names "Name" B T HB E) as [-> ->]. auto.
    + apply bind_ok in H as ([[miss cand] add] & Hs & H).
      apply bind_ok in H as (d & _ & H). injection H as <-.
      exact (@split_by_name_ends "Name" B T miss cand add HB HT Hs).
  - unfold compare_topo_lists in H.
    destruct (py_eqb (PList B) (PList T)) eqn:E.
    + injection H as <-. rewrite py_eqb_list in E.
      destruct (@seq_eqb_names "Name" B T HB E) as [-> ->]. auto.
    + apply bind_ok in H as ([[miss cand] add] & Hs & H).
      apply bind_ok in H as (d & _ & H). injection H as <-.
      exact (@split_by_name_ends "Name" B T miss cand add HB HT Hs).
  - unfold compare_dataset_lists, bindS, get_base, get_test, ret in H.
    cbn [ds_list_base ds_list_test] in H.
    destruct (py_eqb (PList B) (PList T)) eqn:E.
    + injection H as <- _. rewrite py_eqb_list in E.
      destruct (@seq_eqb_names "Name" B T HB E) as [-> ->]. auto.
    + unfold lift in H.
      rewrite (@names_ok "Name" T HT), (@names_ok "Name" B HB) in H.
      rewrite (@not_named_ok "Name" T B HB), (@not_named_ok "Name" B T HT)
        in H.
      destruct (foldM _ _ _) as [cand|e] in H; [|discriminate].
      destruct (foldS _ _ _ _) as [[d s1]|e] in H; [|discriminate].
      injection H as <- _. auto.
Qed.

Lemma missing_and_additional_are_told_by_name_witness :
  let roads := PDict [(Some "Name", PStr "Roads")] in
  let parcels := PDict [(Some "Name", PStr "Parcels")] in
  let wells := PDict [(Some "Name", PStr "Wells")] in
  compare_rc_lists "Relationship Class" [parcels; roads] [roads; wells]
  = Ok ([parcels], [], [wells])
  /\ [parcels] = filter (not_named_in "Name" [roads; wells]) [parcels; roads]
  /\ [wells] = filter (not_named_in "Name" [parcels; roads]) [roads; wells].
Proof.
  intros roads parcels wells.
  assert (E : compare_rc_lists "Relationship Class" [parcels; roads]
                [roads; wells] = Ok ([parcels], [], [wells]))
    by reflexivity.
  split; [exact E|].
  apply (@missing_and_additional_are_told_by_name insertion_order
           "Relationship Class" "Name" [parcels; roads] [roads; wells]
           ([parcels], [], [wells])).
  - repeat constructor; eexists; eexists; split; reflexivity.
  - repeat constructor; eexists; eexists; split; reflexivity.
  - right. split; [reflexivity|]. right. left. exact E.
Defined.

(** ** Properties that only the base entity has *)

(** Every item of [t] is an item of [b]: [b] may have more properties. *)
Definition sub_record (t b : pyval) : Prop :=
  exists dt db,
    t = PDict dt /\ b = PDict db
    /\ forall k v, In (k, v) dt ->
                   exists w, lookup k db = Some w /\ py_eqb v w = true.

Lemma sub_record_item (t b : pyval) (k : text) (v : pyval) :
  sub_record t b -> In (k, v) (items_of t) ->
  exists w, getitem b k = Ok w /\ py_eqb v w = true.
Proof.
  intros (dt & db & -> & -> & H) Hin. simpl in Hin.
  destruct (H k v Hin) as (w & Hw & E). exists w. simpl. now rewrite Hw.
Qed.

Lemma sub_record_name (key : string) (t b : pyval) :
  sub_record t b -> named key t ->
  named key b /\ value_of key b = value_of key t.
Proof.
  intros (dt & db & -> & -> & H) (d & n & [= <-] & Hl).
  pose proof Hl as Hin. apply lookup_some_In in Hin.
  destruct (H _ _ Hin) as (w & Hw & E).
  apply py_eqb_str in E. subst w. split.
  - exists db, n. auto.
  - unfold value_of. simpl. now rewrite Hw, Hl.
Qed.

Lemma sub_records_names (key : string) (B T : list pyval) :
  Forall2 sub_record T B -> Forall (named key) T ->
  Forall (named key) B /\ names_of key B = names_of key T.
Proof.
  induction 1 as [|t b T B Hs _ IH]; intros HT; [split; [constructor|auto]|].
  inversion HT as [|? ? Ht HT']; subst.
  destruct (IH HT') as [HB En].
  destruct (@sub_record_name key t b Hs Ht) as [Hb Ev].
  split; [now constructor|]. simpl. now rewrite Ev, En.
Qed.

(** With distinct names, the base entity found for a name is the one that
    carries it. *)
Lemma base_entry_twin (key : string) (B : list pyval) (b : pyval)
  (n : string) :
  NoDup (names_of key B) -> Forall (named key) B ->
  In b B -> value_of key b = PStr n ->
  base_entry key B (PStr n) = Ok b.
Proof.
  intros Hnd HB Hin Hv. unfold base_entry.
  rewrite (@filterM_ok _ _ (fun d => py_eqb (value_of key d) (PStr n)) B).
  - cbn [bind]. induction B as [|x B IH]; [contradiction|].
    inversion Hnd as [|? ? Hx Hnd']; subst.
    inversion HB as [|? ? Hnx HB']; subst.
    simpl. destruct (py_eqb (value_of key x) (PStr n)) eqn:E.
    + apply py_eqb_str_l in E. destruct Hin as [-> | Hin]; [reflexivity|].
      exfalso. apply Hx. rewrite E, <- Hv. now apply in_map.
    + destruct Hin as [-> | Hin]; [|now apply IH].
      rewrite Hv in E. simpl in E. now rewrite String.eqb_refl in E.
  - intros x Hx. rewrite Forall_forall in HB.
    now rewrite (@named_getitem key x (HB x Hx)).
Qed.

Lemma in_changed (key : string) (B T : list pyval) (c : pyval) :
  In c (changed key B T) ->
  In c T /\ py_in c B = false /\ not_named_in key B c = false.
Proof.
  unfold changed. intros H. apply filter_In in H as [H Hn].
  apply filter_In in H as [H Hb].
  apply negb_true_iff in Hn. apply negb_true_iff in Hb. auto.
Qed.

Lemma Forall2_In_l {A C} (R : A -> C -> Prop) (l : list A) (m : list C)
  (x : A) :
  Forall2 R l m -> In x l -> exists y, In y m /\ R x y.
Proof.
  induction 1 as [|a c l m Hr _ IH]; intros Hin; [contradiction|].
  destruct Hin as [-> | Hin].
  - exists c. split; [now left | assumption].
  - destruct (IH Hin) as (y & Hy & Hxy). exists y. split; [now right|auto].
Qed.

Section Silent.
Variable key : string.
Variables B T : list pyval.
Hypothesis names_distinct : NoDup (names_of key B).
Hypothesis test_named : Forall (named key) T.
Hypothesis test_wf : Forall (fun x => wf x = true) T.
Hypothesis test_below_base : Forall2 sub_record T B.

(** The loop over the entities to compare changes nothing when no round
    of it does. *)
Lemma silent_loop {S} (step : S -> pyval -> result S) (s0 : S) :
  (forall s t b n,
     getitem t (Some key) = Ok (PStr n) ->
     base_entry key B (PStr n) = Ok b ->
     items t = Ok (items_of t) ->
     sub_record t b ->
     step s t = Ok s) ->
  foldM step (changed key B T) s0 = Ok s0.
Proof.
  intros Hstep. apply foldM_idle. intros t Ht.
  apply in_changed in Ht as (Ht & _ & _).
  destruct (@Forall2_In_l _ _ sub_record T B t test_below_base Ht)
    as (b & Hb & Hs).
  rewrite Forall_forall in test_named. pose proof (test_named t Ht) as Hn.
  destruct (@sub_records_names key B T test_below_base)
    as [HB _]; [now apply Forall_forall|].
  destruct (@sub_record_name key t b Hs Hn) as [Hnb Ev].
  destruct (@named_value key t Hn) as [n En].
  apply (Hstep s0 t b n).
  - now rewrite (@named_getitem key t Hn), En.
  - apply base_entry_twin; auto. now rewrite Ev.
  - exact (@named_items key t Hn).
  - exact Hs.
Qed.

Lemma silent_split :
  split_by_name key B T = Ok ([], changed key B T, []).
Proof.
  destruct (@sub_records_names key B T test_below_base test_named)
    as [HB En].
  rewrite (@split_by_name_spec key B T HB test_named test_wf).
  rewrite (@filter_nil_of _ (not_named_in key T) B),
    (@filter_nil_of _ (not_named_in key B) T); [reflexivity | |].
  - intros x Hx. unfold not_named_in. rewrite En.
    rewrite Forall_forall in test_named.
    now rewrite (@value_in_names key T x (test_named x Hx) Hx).
  - intros x Hx. unfold not_named_in. rewrite <- En.
    rewrite Forall_forall in HB.
    now rewrite (@value_in_names key B x (HB x Hx) Hx).
Qed.
End Silent.

(** One round of each differ on an entity all of whose items the base
    entity has. *)
Ltac silent_item Hs :=
  let k := fresh "k" in
  let v := fresh "v" in
  let Hin := fresh "Hin" in
  let w := fresh "w" in
  let Hw := fresh "Hw" in
  let E := fresh "E" in
  intros [k v] Hin;
  destruct (@sub_record_item _ _ k v Hs Hin) as (w & Hw & E);
  cbn beta iota; rewrite ?Hw; cbn [bind]; rewrite ?E; cbn [negb].

Lemma rc_step_silent (name : string) (B : list pyval)
  (d : list (text * pyval)) (t b : pyval) (n : string) :
  getitem t (Some "Name") = Ok (PStr n) ->
  base_entry "Name" B (PStr n) = Ok b ->
  items t = Ok (items_of t) ->
  sub_record t b ->
  rc_step name B d t = Ok d.
Proof.
  intros Hn Hb Hi Hs. unfold rc_step. rewrite Hn. cbn [bind].
  rewrite Hb. cbn [bind]. rewrite Hi. cbn [bind].
  apply foldM_idle. silent_item Hs. reflexivity.
Qed.

Lemma fds_step_silent (name : string) (B : list pyval)
  (d : list (text * pyval)) (t b : pyval) (n : string) :
  getitem t (Some "Name") = Ok (PStr n) ->
  base_entry "Name" B (PStr n) = Ok b ->
  items t = Ok (items_of t) ->
  sub_record t b ->
  fds_step name B d t = Ok d.
Proof.
  intros Hn Hb Hi Hs. unfold fds_step. rewrite Hn. cbn [bind].
  rewrite Hb. cbn [bind]. rewrite Hi. cbn [bind].
  apply foldM_idle. silent_item Hs. now destruct (negb (text_eqb k _)).
Qed.

Lemma topo_step_silent (rt : runtime) (name : string) (B : list pyval)
  (d : list (text * pyval)) (t b : pyval) (n : string) :
  getitem t (Some "Name") = Ok (PStr n) ->
  base_entry "Name" B (PStr n) = Ok b ->
  items t = Ok (items_of t) ->
  sub_record t b ->
  topo_step rt name B d t = Ok d.
Proof.
  intros Hn Hb Hi Hs. unfold topo_step. rewrite Hn. cbn [bind].
  rewrite Hb. cbn [bind]. rewrite Hi. cbn [bind].
  apply foldM_idle. unfold topo_item_step. silent_item Hs.
  destruct (negb (existsb _ _)); [reflexivity|].
  destruct (text_eqb k (Some "FeatureClassNames")); [reflexivity|].
  now destruct (text_eqb k (Some "TopologyRules")).
Qed.

Lemma domain_step_silent (rt : runtime) (B : list pyval)
  (acc : list (text * pyval) * option string) (t b : pyval) (n : string) :
  getitem t (Some "DomainName") = Ok (PStr n) ->
  base_entry "DomainName" B (PStr n) = Ok b ->
  items t = Ok (items_of t) ->
  sub_record t b ->
  domain_step rt B acc t = Ok acc.
Proof.
  intros Hn Hb Hi Hs. unfold domain_step. rewrite Hn. cbn [bind].
  rewrite Hb. cbn [bind]. rewrite Hi. cbn [bind].
  apply foldM_idle. unfold domain_item_step. destruct acc as [dd adj].
  silent_item Hs. now destruct (negb (text_eqb k _)).
Qed.

(** A property that only the base entity has is not compared: when every
    item of every test entity is an item of the base entity at the same
    position, and the names of base are distinct, the differs of the
    list-shaped categories other than feature classes and tables return
    the empty result, however many properties base has besides. *)
Theorem properties_only_in_base_are_not_reported
  (rt : runtime) (name key : string) (B T : list pyval)
  (r : result diff) :
  NoDup (names_of key B) ->
  Forall (named key) T ->
  Forall (fun x => wf x = true) T ->
  Forall2 sub_record T B ->
  (key = "DomainName" /\ r = compare_domain_lists rt B T)
  \/ (key = "Name"
      /\ (r = compare_fds_lists name B T
          \/ r = compare_rc_lists name B T
          \/ r = compare_topo_lists rt name B T)) ->
  r = Ok no_diff.
Proof.
  intros Hnd HT Hwf Hsub [[-> ->] | [-> [-> | [-> | ->]]]].
  - unfold compare_domain_lists.
    destruct (py_eqb (PList B) (PList T)); [reflexivity|].
    rewrite (@silent_split "DomainName" B T HT Hwf Hsub). cbn [bind].
    rewrite (@silent_loop "DomainName" B T Hnd HT Hsub _
               (domain_step rt B) ([], None));
      [reflexivity|].
    intros s t b n. apply domain_step_silent.
  - unfold compare_fds_lists.
    destruct (py_eqb (PList B) (PList T)); [reflexivity|].
    rewrite (@silent_split "Name" B T HT Hwf Hsub). cbn [bind].
    rewrite (@silent_loop "Name" B T Hnd HT Hsub _ (fds_step name B) []);
      [reflexivity|].
    intros s t b n. apply fds_step_silent.
  - unfold compare_rc_lists.
    destruct (py_eqb (PList B) (PList T)); [reflexivity|].
    rewrite (@silent_split "Name" B T HT Hwf Hsub). cbn [bind].
    rewrite (@silent_loop "Name" B T Hnd HT Hsub _ (rc_step name B) []);
      [reflexivity|].
    intros s t b n. apply rc_step_silent.
  - unfold compare_topo_lists.
    destruct (py_eqb (PList B) (PList T)); [reflexivity|].
    rewrite (@silent_split "Name" B T HT Hwf Hsub). cbn [bind].
    rewrite (@silent_loop "Name" B T Hnd HT Hsub _
               (topo_step rt name B) []);
      [reflexivity|].
    intros s t b n. apply topo_step_silent.
Qed.

Lemma properties_only_in_base_are_not_reported_witness :
  let base :=
    [PDict [(Some "Name", PStr "ParcelToOwner");
            (Some "Cardinality", PStr "esriRelCardinalityOneToOne");
            (Some "IsComposite", PStr "false")]] in
  let test :=
    [PDict [(Some "Name", PStr "ParcelToOwner");
            (Some "IsComposite", PStr "false")]] in
  py_eqb (PList base) (PList test) = false
  /\ compare_rc_lists "Relationship Class" base test = Ok no_diff.
Proof.
  intros base test. split; [reflexivity|].
  apply (@properties_only_in_base_are_not_reported insertion_order
           "Relationship Class" "Name" base test
           (compare_rc_lists "Relationship Class" base test)).
  - repeat constructor. intros [].
  - repeat constructor. eexists; eexists; split; reflexivity.
  - repeat constructor.
  - constructor; [|constructor]. eexists; eexists.
    split; [reflexivity|]. split; [reflexivity|].
    intros k v [E | [E | []]]; injection E as <- <-; eexists;
      split; reflexivity.
  - right. split; [reflexivity|]. right. left. reflexivity.
Defined.

(** ** A property that only the test entity has *)

Definition ok_or_key_error {A} (m : result A) : Prop :=
  match m with
  | Ok _ => True
  | Raise e => e = KeyError
  end.

Lemma foldM_ok_or_key_error {A S} (body : S -> A -> result S)
  (l : list A) :
  (forall s y, In y l -> ok_or_key_error (body s y)) ->
  forall s, ok_or_key_error (foldM body l s).
Proof.
  induction l as [|y l IH]; intros H s; simpl; [exact I|].
  pose proof (H s y (or_introl eq_refl)) as Hy.
  destruct (body s y) as [s'|e]; simpl in *; [|exact Hy].
  apply IH. intros; apply H; now right.
Qed.

(** A loop whose rounds can only raise [KeyError], and one round of which
    always does, raises [KeyError]. *)
Lemma foldM_key_error {A S} (body : S -> A -> result S) (l : list A)
  (x : A) :
  In x l ->
  (forall s y, In y l -> ok_or_key_error (body s y)) ->
  (forall s, body s x = Raise KeyError) ->
  forall s, foldM body l s = Raise KeyError.
Proof.
  intros Hin Hall Hx. induction l as [|y l IH]; intros s; [contradiction|].
  simpl. pose proof (Hall s y (or_introl eq_refl)) as Hy.
  destruct (body s y) as [s'|e] eqn:E; simpl in *.
  - destruct Hin as [-> | Hin]; [rewrite Hx in E; discriminate|].
    apply IH; [assumption|]. intros; apply Hall; now right.
  - now subst e.
Qed.

Lemma named_as_key (key : string) (f : pyval) :
  named key f -> exists n, value_of key f = PStr n
                           /\ as_key (value_of key f) = Ok (Some n).
Proof.
  intros H. destruct (@named_value key f H) as [n E].
  exists n. rewrite E. auto.
Qed.

(** The base entity of a name that base knows is found. *)
Lemma base_entry_found (key : string) (B : list pyval) (c : pyval) :
  Forall (named key) B -> named key c ->
  not_named_in key B c = false ->
  exists b, base_entry key B (value_of key c) = Ok b /\ In b B.
Proof.
  intros HB Hc Hn. unfold base_entry.
  rewrite (@filterM_ok _ _ (fun d => py_eqb (value_of key d)
                                      (value_of key c)) B).
  - cbn [bind].
    unfold not_named_in in Hn. apply negb_false_iff in Hn.
    unfold py_in, names_of in Hn. apply existsb_exists in Hn.
    destruct Hn as (n & Hin & E). apply in_map_iff in Hin.
    destruct Hin as (b & <- & Hb).
    destruct (@named_value key c Hc) as [nc Ec]. rewrite Ec in *.
    apply py_eqb_str in E.
    assert (Hq : py_eqb (value_of key b) (PStr nc) = true)
      by (rewrite E; apply String.eqb_refl).
    clear E. induction B as [|x B IH]; [contradiction|]. simpl.
    destruct (py_eqb (value_of key x) (PStr nc)) eqn:Ex.
    + exists x. split; [reflexivity | now left].
    + destruct Hb as [-> | Hb]; [congruence|].
      inversion HB; subst.
      destruct IH as (b' & Hb' & Hin'); auto.
      exists b'. split; [exact Hb' | now right].
  - intros x Hx. rewrite Forall_forall in HB.
    now rewrite (@named_getitem key x (HB x Hx)).
Qed.

Lemma getitem_dict_ok_or_key_error (d : list (text * pyval)) (k : text) :
  ok_or_key_error (getitem (PDict d) k).
Proof. simpl. now destruct (lookup k d). Qed.

Lemma rc_step_ok_or_key_error (name : string) (B : list pyval)
  (d : list (text * pyval)) (c : pyval) :
  Forall (named "Name") B -> named "Name" c ->
  not_named_in "Name" B c = false ->
  ok_or_key_error (rc_step name B d c).
Proof.
  intros HB Hc Hn. unfold rc_step.
  rewrite (@named_getitem "Name" c Hc). cbn [bind].
  destruct (@base_entry_found "Name" B c HB Hc Hn) as (b & -> & Hb).
  cbn [bind]. rewrite (@named_items "Name" c Hc). cbn [bind].
  apply foldM_ok_or_key_error. intros s [k v] _.
  rewrite Forall_forall in HB. destruct (HB b Hb) as (db & nb & -> & _).
  pose proof (getitem_dict_ok_or_key_error db k) as Hg.
  destruct (getitem (PDict db) k) as [w|e]; cbn [bind]; [|exact Hg].
  destruct (negb (py_eqb v w)); [|exact I].
  unfold setitem. destruct (@named_as_key "Name" c Hc) as (n & _ & ->).
  exact I.
Qed.

(** The relationship-class differ reads, for every property of a test
    entity it compares, the property of the same name of the base entity:
    if the base entity lacks one of them, the differ raises [KeyError] and
    returns no result. *)
Theorem property_only_in_test_raises_key_error
  (name : string) (B T : list pyval) (c b : pyval) (k : text) :
  Forall (fun x => wf x = true) B ->
  Forall (fun x => wf x = true) T ->
  Forall (named "Name") B ->
  Forall (named "Name") T ->
  In c (changed "Name" B T) ->
  base_entry "Name" B (value_of "Name" c) = Ok b ->
  In k (keys (items_of c)) ->
  getitem b k = Raise KeyError ->
  compare_rc_lists name B T = Raise KeyError.
Proof.
  intros HwB HwT HB HT Hc Hb Hk Hg.
  destruct (@in_changed "Name" B T c Hc) as (HcT & HcB & Hcn).
  unfold compare_rc_lists.
  rewrite (@not_in_base_differs B T c HwB HwT HcT HcB).
  rewrite (@split_by_name_spec "Name" B T HB HT HwT). cbn [bind].
  rewrite (@foldM_key_error _ _ (rc_step name B) (changed "Name" B T) c);
    [reflexivity | exact Hc | |].
  - intros s y Hy.
    destruct (@in_changed "Name" B T y Hy) as (HyT & _ & Hyn).
    rewrite Forall_forall in HT.
    now apply rc_step_ok_or_key_error; [ | apply HT | ].
  - intros s. rewrite Forall_forall in HT. pose proof (HT c HcT) as Hnc.
    unfold rc_step. rewrite (@named_getitem "Name" c Hnc). cbn [bind].
    rewrite Hb. cbn [bind]. rewrite (@named_items "Name" c Hnc).
    cbn [bind]. unfold keys in Hk. apply in_map_iff in Hk.
    destruct Hk as ([k' v] & Ek & Hin). simpl in Ek. subst k'.
    apply (@foldM_key_error _ _ _ (items_of c) (k, v) Hin).
    + intros s' [k' v'] _.
      pose proof (@base_entry_In "Name" B (value_of "Name" c) b Hb) as HbB.
      rewrite Forall_forall in HB. destruct (HB b HbB) as (db & nb & -> & _).
      pose proof (getitem_dict_ok_or_key_error db k') as Hg'.
      destruct (getitem (PDict db) k') as [w|e]; cbn [bind]; [|exact Hg'].
      destruct (negb (py_eqb v' w)); [|exact I].
      unfold setitem. destruct (@named_as_key "Name" c Hnc) as (n & _ & ->).
      exact I.
    + intros s'. now rewrite Hg.
Qed.

Lemma property_only_in_test_raises_key_error_witness :
  let base :=
    [PDict [(Some "Name", PStr "ParcelToOwner");
            (Some "IsComposite", PStr "false")]] in
  let test :=
    [PDict [(Some "Name", PStr "ParcelToOwner");
            (Some "Cardinality", PStr "esriRelCardinalityOneToOne");
            (Some "IsComposite", PStr "false")]] in
  compare_rc_lists "Relationship Class" base test = Raise KeyError.
Proof.
  intros base test.
  apply (@property_only_in_test_raises_key_error "Relationship Class"
           base test
           (PDict [(Some "Name", PStr "ParcelToOwner");
                   (Some "Cardinality", PStr "esriRelCardinalityOneToOne");
                   (Some "IsComposite", PStr "false")])
           (PDict [(Some "Name", PStr "ParcelToOwner");
                   (Some "IsComposite", PStr "false")])
           (Some "Cardinality")).
  - repeat constructor.
  - repeat constructor.
  - repeat constructor. eexists; eexists; split; reflexivity.
  - repeat constructor. eexists; eexists; split; reflexivity.
  - left. reflexivity.
  - reflexivity.
  - simpl. auto.
  - reflexivity.
Defined.

(** ** The ignore parameter *)

(** The entries of the value-table parameter, quotes removed. *)
Definition ignore_names (ignore_str : string) : list string :=
  map (remove_char squote) (split_char ";" ignore_str).

(** An option the script knows. *)
Definition known_option (i : string) : bool :=
  mem_key (Some i) ignore_dict_init.

Definition unknown_warning (i : string) : string :=
  i +++ " Ignore Property unknown".

Lemma mem_key_lookup {V} (k : text) (d : list (text * V)) :
  mem_key k d = true -> lookup k d <> None.
Proof.
  unfold mem_key. intros H E. apply lookup_none_keys in E. congruence.
Qed.

(** The loop over the entries: the options keep their names, an option is
    set once an entry names it, and every other entry leaves a warning. *)
Lemma ignore_loop (l : list string) (d : list (text * bool))
  (w : list string) :
  keys d = keys ignore_dict_init ->
  let r := fold_left
             (fun acc i =>
                let '(ignore_dict, warnings) := acc in
                let i := remove_char squote i in
                if mem_key (Some i) ignore_dict
                then (assign (Some i) true ignore_dict, warnings)
                else (ignore_dict,
                      warnings ++ [i +++ " Ignore Property unknown"]))
             l (d, w) in
  keys (fst r) = keys ignore_dict_init
  /\ (forall k b, lookup (Some k) d = Some b ->
                  lookup (Some k) (fst r)
                  = Some (b || existsb (String.eqb k)
                                 (map (remove_char squote) l)))
  /\ snd r = w ++ map unknown_warning
                    (filter (fun i => negb (known_option i))
                       (map (remove_char squote) l)).
Proof.
  revert d w. induction l as [|i l IH]; intros d w Hk; cbn zeta.
  - simpl. repeat split; [assumption | | now rewrite app_nil_r].
    intros k b ->. now rewrite orb_false_r.
  - cbn [fold_left map filter existsb].
    assert (Em : mem_key (Some (remove_char squote i)) d
                 = known_option (remove_char squote i))
      by (unfold known_option, mem_key; now rewrite Hk).
    rewrite Em. destruct (known_option (remove_char squote i)) eqn:Ei;
      cbn [negb].
    + assert (Hk' : keys (assign (Some (remove_char squote i)) true d)
                    = keys ignore_dict_init).
      { rewrite keys_assign_present; [assumption|].
        apply mem_key_lookup. now rewrite Em. }
      destruct (IH _ w Hk') as (H1 & H2 & H3). cbn zeta in *.
      repeat split; [assumption | | assumption].
      intros k b Hl. destruct (String.eqb k (remove_char squote i)) eqn:E.
      * apply String.eqb_eq in E. subst k.
        rewrite (H2 _ true) by apply lookup_assign_same.
        now rewrite orb_true_r.
      * rewrite (H2 k b); [reflexivity|].
        rewrite lookup_assign_other; [assumption | exact E].
    + destruct (IH d (w ++ [remove_char squote i +++ " Ignore Property unknown"])
                  Hk) as (H1 & H2 & H3). cbn zeta in *.
      repeat split; [assumption | | ].
      * intros k b Hl. rewrite (H2 k b Hl).
        destruct (String.eqb k (remove_char squote i)) eqn:E;
          [|reflexivity].
        apply String.eqb_eq in E. subst k. exfalso.
        assert (X : lookup (Some (remove_char squote i)) d = None).
        { apply lookup_none_keys. rewrite Hk.
          exact Ei. }
        congruence.
      * rewrite H3, <- app_assoc. reflexivity.
Qed.

(** No known option is set at the start. *)
Lemma known_option_unset (k : string) :
  known_option k = true -> lookup (Some k) ignore_dict_init = Some false.
Proof.
  intros Hk. unfold known_option, mem_key in Hk. simpl in Hk.
  repeat (apply orb_prop in Hk as [Hk | Hk];
          [apply String.eqb_eq in Hk; subst k; reflexivity|]).
  discriminate.
Qed.

(** The value of a known option once the parameter is read. *)
Lemma option_of_read_ignore_str (ignore_str k : string) :
  known_option k = true ->
  option_of k (fst (read_ignore_str ignore_str))
  = Ok (existsb (String.eqb k) (ignore_names ignore_str)).
Proof.
  intros Hk. unfold read_ignore_str, ignore_names, option_of.
  destruct ignore_str as [|c s]; cbn [truthy String.eqb negb].
  - cbn [fst]. rewrite (known_option_unset k Hk). simpl.
    destruct k; [vm_compute in Hk; discriminate Hk | reflexivity].
  - destruct (ignore_loop (split_char ";" (String c s)) ignore_dict_init []
                eq_refl) as (_ & H2 & _).
    cbn zeta in H2. now rewrite (H2 k false (known_option_unset k Hk)).
Qed.

(** The value-table parameter: the six options keep their names; an option
    is set exactly when an entry of the parameter, quotes removed, is its
    name; every other entry is reported as unknown, in the order of the
    parameter. *)
Theorem ignore_parameter_sets_the_named_options (ignore_str : string) :
  keys (fst (read_ignore_str ignore_str))
  = [Some "Feature Class/Table Alias"; Some "Field Alias"; Some "Has M";
     Some "Has Z"; Some "Domains"; Some "Topology"]
  /\ (forall k, known_option k = true ->
                option_of k (fst (read_ignore_str ignore_str))
                = Ok (existsb (String.eqb k) (ignore_names ignore_str)))
  /\ snd (read_ignore_str ignore_str)
     = (if String.eqb ignore_str "" then []
        else map unknown_warning
               (filter (fun i => negb (known_option i))
                  (ignore_names ignore_str))).
Proof.
  split; [|split].
  - unfold read_ignore_str.
    destruct ignore_str as [|c s]; cbn [truthy String.eqb negb];
      [reflexivity|].
    now destruct (ignore_loop (split_char ";" (String c s))
                    ignore_dict_init [] eq_refl) as (H1 & _ & _).
  - intros k. apply option_of_read_ignore_str.
  - unfold read_ignore_str, ignore_names.
    destruct ignore_str as [|c s]; cbn [truthy String.eqb negb];
      [reflexivity|].
    now destruct (ignore_loop (split_char ";" (String c s))
                    ignore_dict_init [] eq_refl) as (_ & _ & H3).
Qed.

Lemma existsb_eqb_iff (k : string) (l : list string) :
  existsb (String.eqb k) l = true <-> In k l.
Proof.
  rewrite existsb_exists. split.
  - intros (x & Hin & E). apply String.eqb_eq in E. now subst.
  - intros Hin. exists k. split; [assumption | apply String.eqb_refl].
Qed.

(** The domain comparison and the topology comparison are run unless the
    ignore parameter names [Domains], respectively [Topology]; the
    warnings of the script are those of the parameter. *)
Theorem ignored_comparisons_are_skipped
  (rt : runtime) (tree_base tree_test : element) (ignore_str : string)
  (g : globals) :
  main rt tree_base tree_test ignore_str = Ok g ->
  (domain_result g = None <-> In "Domains" (ignore_names ignore_str))
  /\ (topo_result g = None <-> In "Topology" (ignore_names ignore_str))
  /\ warnings g = snd (read_ignore_str ignore_str).
Proof.
  intros H.
  pose proof (@option_of_read_ignore_str ignore_str "Domains" eq_refl)
    as Hd0.
  pose proof (@option_of_read_ignore_str ignore_str "Topology" eq_refl)
    as Ht0.
  rewrite <- !existsb_eqb_iff.
  remember (existsb (String.eqb "Domains") (ignore_names ignore_str))
    as dflag eqn:Ed in *.
  remember (existsb (String.eqb "Topology") (ignore_names ignore_str))
    as tflag eqn:Et in *.
  clear Ed Et. unfold main in H.
  destruct (read_ignore_str ignore_str) as [ignore_dict ws] eqn:Eread.
  cbn [fst snd] in *.
  unbind H as ignore_ds_alias H1. unbind H as ignore_fld_alias H2.
  unbind H as ignore_hasm H3. unbind H as ignore_hasz H4.
  unbind H as ignore_domains Hdom. unbind H as ignore_topology Htopo.
  rewrite Hd0 in Hdom. injection Hdom as Edom.
  rewrite Ht0 in Htopo. injection Htopo as Etopo.
  unbind H as fds Hfds. unbind H as acc1 R1.
  unbind H as fc Hfc. unbind H as acc2 R2.
  unbind H as tbl Htbl. unbind H as acc3 R3.
  unbind H as rc Hrc. unbind H as acc4 R4.
  unbind H as x5 R5. destruct x5 as [dom acc5].
  unbind H as x6 R6. destruct x6 as [topo acc6].
  unbind H as attr Hattr. unbind H as acc7 R7.
  destruct acc7 as [w b]. injection H as <-.
  cbn [domain_result topo_result warnings].
  rewrite Edom, Etopo. clear Edom Etopo.
  repeat split.
  - intros ->. destruct ignore_domains; [reflexivity|]. cbn [negb] in R5.
    unbind R5 as d Hd. unbind R5 as acc R. discriminate.
  - intros E. rewrite E in R5. cbn [negb] in R5. now injection R5 as <- _.
  - intros ->. destruct ignore_topology; [reflexivity|]. cbn [negb] in R6.
    unbind R6 as d Hd. unbind R6 as acc R. discriminate.
  - intros E. rewrite E in R6. cbn [negb] in R6. now injection R6 as <- _.
Qed.

Lemma ignored_comparisons_are_skipped_witness :
  exists g,
    main insertion_order doc_without_domains doc_without_domains
      "Domains;'Shape'" = Ok g
    /\ (domain_result g = None
        <-> In "Domains" (ignore_names "Domains;'Shape'"))
    /\ (topo_result g = None
        <-> In "Topology" (ignore_names "Domains;'Shape'"))
    /\ warnings g = ["Shape Ignore Property unknown"].
Proof.
  destruct (main insertion_order doc_without_domains doc_without_domains
              "Domains;'Shape'") as [g|e] eqn:E;
    [ | vm_compute in E; discriminate].
  exists g. split; [reflexivity|].
  destruct (@ignored_comparisons_are_skipped insertion_order
              doc_without_domains doc_without_domains "Domains;'Shape'" g E)
    as (A & B & C).
  split; [exact A|]. split; [exact B|]. rewrite C. reflexivity.
Defined.

(** ** Witnesses for the general behaviour of two differs *)

Lemma rc_mismatch_lists_are_singletons_witness :
  exists base test d,
    get_rc_properties rc_doc_base "esri:DERelationshipClass" = Ok base
    /\ get_rc_properties rc_doc_test "esri:DERelationshipClass" = Ok test
    /\ compare_rc_lists "Relationship Class" base test = Ok ([], d, [])
    /\ d <> []
    /\ Forall (fun kv => exists t, snd kv = PList [t]) d.
Proof.
  do 3 eexists. split; [vm_compute; reflexivity|].
  split; [vm_compute; reflexivity|].
  match goal with
  | |- ?P /\ _ => assert (E : P) by (vm_compute; reflexivity)
  end.
  split; [exact E|]. split; [discriminate|].
  exact (@rc_mismatch_lists_are_singletons _ _ _ _ _ _ E).
Defined.

Lemma attr_rules_same_keys_raise_witness :
  let base :=
    [(Some "Inspections: SetDate",
      PDict [(Some "DatasetName", PStr "Inspections");
             (Some "Description", PStr "Stamp the date")])] in
  let test :=
    [(Some "Inspections: SetDate",
      PDict [(Some "DatasetName", PStr "Inspections");
             (Some "Description", PStr "Stamps date")])] in
  is_ok (compare_attr_rule_dicts insertion_order base test) = false.
Proof.
  intros base test.
  apply (@attr_rules_same_keys_raise insertion_order base test);
    reflexivity.
Defined.

(** ** [swap_key_value] *)

(** The text a value stands for when it is used as a key. *)
Definition text_of (v : pyval) : text :=
  match v with
  | PStr s => Some s
  | _ => None
  end.

(** An item with key and value exchanged. *)
Definition swap_item (kv : text * pyval) : text * pyval :=
  (text_of (snd kv), of_text (fst kv)).

Definition text_item (kv : text * pyval) : Prop :=
  exists t, snd kv = of_text t.

Lemma text_of_of_text (t : text) : text_of (of_text t) = t.
Proof. now destruct t. Qed.

Lemma as_key_of_text (t : text) : as_key (of_text t) = Ok t.
Proof. now destruct t. Qed.

Lemma assign_fresh {V} (k : text) (v : V) (d : list (text * V)) :
  lookup k d = None -> assign k v d = d ++ [(k, v)].
Proof.
  induction d as [|[k' v'] d IH]; simpl; [reflexivity|].
  destruct (text_eqb k k'); [discriminate|].
  intros H. now rewrite IH.
Qed.

Lemma swap_item_twice (kv : text * pyval) :
  text_item kv -> swap_item (swap_item kv) = kv.
Proof.
  destruct kv as [k v]. intros [t E]. simpl in E. subst v.
  unfold swap_item. simpl. now rewrite !text_of_of_text.
Qed.

(** The loop of [swap_key_value] on items whose values are texts, no two
    of them equal, none of them a key of the dict built so far. *)
Lemma swap_loop (its acc : list (text * pyval)) :
  Forall text_item its ->
  NoDup (map (fun kv => text_of (snd kv)) its) ->
  (forall kv, In kv its -> lookup (text_of (snd kv)) acc = None) ->
  foldM (fun acc kv => k <- as_key (snd kv) ;;
                       Ok (assign k (of_text (fst kv)) acc)) its acc
  = Ok (acc ++ map swap_item its).
Proof.
  revert acc. induction its as [|[k v] its IH]; intros acc Ht Hnd Hf.
  - simpl. now rewrite app_nil_r.
  - inversion Ht as [|? ? [t E] Ht']; subst. simpl in E. subst v.
    inversion Hnd as [|? ? Hx Hnd']; subst.
    cbn [foldM fst snd]. rewrite as_key_of_text. cbn [bind].
    pose proof (Hf (k, of_text t) (or_introl eq_refl)) as Hk.
    cbn [snd] in Hk. rewrite text_of_of_text in Hk.
    rewrite (@assign_fresh pyval t (of_text k) acc Hk).
    rewrite IH; [ | assumption.. | ].
    + rewrite <- app_assoc. cbn [map app]. unfold swap_item at 2.
      cbn [fst snd]. now rewrite text_of_of_text.
    + intros kv Hin. apply lookup_app_none. split.
      * apply Hf. now right.
      * simpl. destruct (text_eqb (text_of (snd kv)) t) eqn:E;
          [|reflexivity].
        apply text_eqb_eq in E. exfalso. apply Hx.
        cbn [snd]. rewrite text_of_of_text, <- E.
        now apply (in_map (fun kv => text_of (snd kv))).
Qed.

Lemma map_text_of_injective (d : list (text * pyval)) :
  Forall text_item d -> NoDup (map snd d) ->
  NoDup (map (fun kv => text_of (snd kv)) d).
Proof.
  induction 1 as [|[k v] d [t E] Ht IH]; intros Hnd; simpl; [constructor|].
  inversion Hnd as [|? ? Hx Hnd']; subst. simpl in E. subst v.
  constructor; [|now apply IH]. intros Hin. apply Hx.
  apply in_map_iff in Hin. destruct Hin as ([k' v'] & E & Hin).
  rewrite Forall_forall in Ht. destruct (Ht _ Hin) as [t' E'].
  simpl in E, E'. subst v'. rewrite !text_of_of_text in E. subst t'.
  now apply (in_map snd _ (k', of_text t)).
Qed.

(** On a dict whose values are texts, no two of them equal,
    [swap_key_value] exchanges key and value item by item, and swapping
    the result gives the dict back. *)
Theorem swap_key_value_round_trip (d : list (text * pyval)) :
  distinct (keys d) = true ->
  Forall text_item d ->
  NoDup (map snd d) ->
  swap_key_value (PDict d) = Ok (PDict (map swap_item d))
  /\ swap_key_value (PDict (map swap_item d)) = Ok (PDict d).
Proof.
  intros Hd Ht Hv. unfold swap_key_value. cbn [items bind]. split.
  - rewrite (@swap_loop d []); [reflexivity | assumption | |].
    + now apply map_text_of_injective.
    + reflexivity.
  - rewrite (@swap_loop (map swap_item d) []).
    + cbn [bind app]. rewrite map_map.
      rewrite (map_ext_in _ (fun kv => kv)), map_id; [reflexivity|].
      intros kv Hin. rewrite Forall_forall in Ht.
      now apply swap_item_twice, Ht.
    + apply Forall_forall. intros kv Hin. apply in_map_iff in Hin.
      destruct Hin as (x & <- & _). now exists (fst x).
    + rewrite map_map. cbn [swap_item snd].
      rewrite (map_ext _ fst) by (intros; apply text_of_of_text).
      now apply distinct_NoDup.
    + reflexivity.
Qed.

Lemma swap_key_value_round_trip_witness :
  let d := [(Some "Active", PStr "1"); (Some "Inactive", PStr "2")] in
  swap_key_value (PDict d)
  = Ok (PDict [(Some "1", PStr "Active"); (Some "2", PStr "Inactive")])
  /\ swap_key_value
       (PDict [(Some "1", PStr "Active"); (Some "2", PStr "Inactive")])
     = Ok (PDict d).
Proof.
  intros d. apply (@swap_key_value_round_trip d).
  - reflexivity.
  - constructor; [exists (Some "1"); reflexivity|].
    constructor; [exists (Some "2"); reflexivity|]. constructor.
  - repeat constructor; simpl; intuition discriminate.
Defined.

(** ** Attribute rules that only one document has *)

Lemma Permutation_filter_of {A} (f : A -> bool) (l l' : list A) :
  Permutation l l' -> Permutation (filter f l) (filter f l').
Proof.
  induction 1 as [ | x l l' _ IH | x y l | l1 l2 l3 _ IH1 _ IH2]; simpl.
  - constructor.
  - destruct (f x); [now constructor | assumption].
  - destruct (f x), (f y); try reflexivity. apply perm_swap.
  - now transitivity (filter f l2).
Qed.

Lemma existsb_Permutation {A} (f : A -> bool) (l l' : list A) :
  Permutation l l' -> existsb f l = existsb f l'.
Proof.
  induction 1 as [ | x l l' _ IH | x y l | l1 l2 l3 _ IH1 _ IH2]; simpl.
  - reflexivity.
  - now rewrite IH.
  - now rewrite !orb_assoc, (orb_comm (f y)).
  - congruence.
Qed.

(** Building a set from elements that are pairwise different keeps them
    all, in order. *)
Lemma dedup_NoDup (l seen : list text) :
  NoDup l -> (forall x, In x l -> mem text_eqb x seen = false) ->
  dedup text_eqb l seen = l.
Proof.
  revert seen. induction l as [|x l IH]; intros seen Hnd Hs;
    [reflexivity|].
  inversion Hnd as [|? ? Hx Hnd']; subst. simpl.
  rewrite (Hs x (or_introl eq_refl)). f_equal. apply IH; [assumption|].
  intros y Hy. unfold mem. rewrite existsb_app. simpl.
  unfold mem in Hs. rewrite (Hs y (or_intror Hy)). simpl.
  rewrite orb_false_r. apply text_eqb_neq. intros ->. contradiction.
Qed.

(** [set(a) - set(b)] on lists of distinct texts: the texts of [a] that
    are not in [b], in some order. *)
Lemma set_difference_texts (rt : runtime) (a b : list text) :
  NoDup a ->
  Permutation (set_difference rt text_eqb a b)
    (filter (fun x => negb (mem text_eqb x b)) a).
Proof.
  intros Hnd. unfold set_difference.
  rewrite set_iter_perm. rewrite dedup_NoDup; [reflexivity | | ].
  - now apply NoDup_filter.
  - reflexivity.
Qed.

(** When [compare_attr_rules] returns for two rule dicts that are not
    equal, the missing list holds the keys of base that test lacks and
    the additional list the keys of test that base lacks, each in the
    order in which the interpreter iterates the set difference. *)
Theorem missing_and_additional_attribute_rules
  (rt : runtime) (B T : list (text * pyval)) (m a : list pyval)
  (d : list (text * pyval)) :
  distinct (keys B) = true ->
  distinct (keys T) = true ->
  dict_eqb B T = false ->
  compare_attr_rule_dicts rt B T = Ok (m, d, a) ->
  Permutation m
    (map of_text (filter (fun k => negb (mem_key k T)) (keys B)))
  /\ Permutation a
       (map of_text (filter (fun k => negb (mem_key k B)) (keys T))).
Proof.
  intros HB HT Hne H. unfold compare_attr_rule_dicts in H.
  rewrite Hne in H.
  unbind H as bk Hbk. unbind H as tk Htk.
  apply sort_by_perm in Hbk. apply sort_by_perm in Htk.
  destruct (negb (py_eqb (PList (map of_text bk)) (PList (map of_text tk)))).
  - unbind H as x Hx. destruct x as [ad dn].
    cbn [local bind] in H. injection H as <- _ <-.
    assert (Nb : NoDup bk)
      by (apply (Permutation_NoDup (Permutation_sym Hbk));
          now apply distinct_NoDup).
    assert (Nt : NoDup tk)
      by (apply (Permutation_NoDup (Permutation_sym Htk));
          now apply distinct_NoDup).
    split; apply Permutation_map.
    + rewrite (set_difference_texts rt tk Nb).
      rewrite (Permutation_filter_of _ Hbk).
      erewrite filter_ext; [reflexivity|].
      intros k. unfold mem, mem_key.
      now rewrite (existsb_Permutation _ Htk).
    + rewrite (set_difference_texts rt bk Nt).
      rewrite (Permutation_filter_of _ Htk).
      erewrite filter_ext; [reflexivity|].
      intros k. unfold mem, mem_key.
      now rewrite (existsb_Permutation _ Hbk).
  - unbind H as x Hx. destruct x as [ad dn]. discriminate.
Qed.

Lemma missing_and_additional_attribute_rules_witness :
  let rule := PDict [(Some "DatasetName", PStr "Inspections")] in
  let base := [(Some "Inspections: SetDate", rule);
               (Some "Inspections: SetUser", rule)] in
  let test := [(Some "Inspections: CheckDate", rule);
               (Some "Inspections: SetDate", rule)] in
  compare_attr_rule_dicts insertion_order base test
  = Ok ([PStr "Inspections: SetUser"], [], [PStr "Inspections: CheckDate"])
  /\ Permutation [PStr "Inspections: SetUser"]
       (map of_text (filter (fun k => negb (mem_key k test)) (keys base)))
  /\ Permutation [PStr "Inspections: CheckDate"]
       (map of_text (filter (fun k => negb (mem_key k base)) (keys test))).
Proof.
  intros rule base test.
  assert (E : compare_attr_rule_dicts insertion_order base test
              = Ok ([PStr "Inspections: SetUser"], [],
                    [PStr "Inspections: CheckDate"]))
    by reflexivity.
  split; [exact E|].
  exact (@missing_and_additional_attribute_rules insertion_order base test
           _ _ _ eq_refl eq_refl eq_refl E).
Defined.

(** ** The mismatch lists of the differs that append *)

(** The value under a key, [None] standing for a key that is not there. *)
Definition value_at (k : text) (f : pyval) : pyval :=
  match lookup k (items_of f) with
  | Some w => w
  | None => PNone
  end.

(** The triple reported for a property whose values differ. *)
Definition property_triple (name : string) (k : text) (b val : pyval)
  : pyval :=
  triple (PStr (name +++ " has mismatch " +++ str_text k +++ " property"))
    b val.

(** The name of an entity, as the key of the mismatch dict. *)
Definition name_text (key : string) (t : pyval) : text :=
  text_of (value_of key t).

(** The base entity an entity of test is compared with. *)
Definition twin (key : string) (B : list pyval) (t : pyval) : pyval :=
  match base_entry key B (value_of key t) with
  | Ok b => b
  | Raise _ => PNone
  end.

Lemma entry_extend_other (d : list (text * pyval)) (k k' : text)
  (ts : list pyval) :
  text_eqb k' k = false -> entry (extend d k ts) k' = entry d k'.
Proof.
  intros H. unfold entry. now rewrite lookup_extend_other.
Qed.

Lemma appendable_extend_all (d : list (text * pyval)) (k : text)
  (ts : list pyval) :
  (forall k', appendable d k') -> forall k', appendable (extend d k ts) k'.
Proof.
  intros H k'. destruct (text_eqb k' k) eqn:E.
  - apply text_eqb_eq in E. subst k'. now apply appendable_extend.
  - unfold appendable. rewrite lookup_extend_other by exact E. apply H.
Qed.

Section MismatchLists.
Variable key : string.
Variable step :
  list pyval -> list (text * pyval) -> pyval -> result (list (text * pyval)).
(** What one round reports for the test entity, given the base entity. *)
Variable report : pyval -> pyval -> list pyval.
(** What the round needs of the two entities. *)
Variable fit : pyval -> pyval -> Prop.

Hypothesis step_spec :
  forall B d t b n,
    getitem t (Some key) = Ok (PStr n) ->
    base_entry key B (PStr n) = Ok b ->
    items t = Ok (items_of t) ->
    fit b t ->
    appendable d (Some n) ->
    step B d t = Ok (extend d (Some n) (report b t)).

(** The loop over the entities to compare: the list of a name gathers the
    reports of the entities of that name, in order. *)
Lemma mismatch_loop (B l : list pyval) :
  (forall t, In t l ->
             named key t
             /\ exists b, base_entry key B (value_of key t) = Ok b
                          /\ fit b t) ->
  forall d0,
    (forall k, appendable d0 k) ->
    exists d,
      foldM (step B) l d0 = Ok d
      /\ (forall k, appendable d k)
      /\ (forall k,
            entry d k
            = entry d0 k
                ++ flat_map (fun t => if text_eqb (name_text key t) k
                                      then report (twin key B t) t
                                      else []) l)
      /\ (forall k, lookup k d0 = None ->
                    (forall t, In t l -> name_text key t <> k) ->
                    lookup k d = None).
Proof.
  induction l as [|t l IH]; intros Hl d0 Ha.
  - exists d0. simpl. repeat split; auto. intros k. now rewrite app_nil_r.
  - destruct (Hl t (or_introl eq_refl)) as (Hn & b & Hb & Hfit).
    destruct (@named_value key t Hn) as [n En].
    assert (Et : name_text key t = Some n)
      by (unfold name_text; now rewrite En).
    assert (Etw : twin key B t = b) by (unfold twin; now rewrite Hb).
    rewrite En in Hb.
    assert (Hstep : step B d0 t = Ok (extend d0 (Some n) (report b t))).
    { apply step_spec; auto.
      - now rewrite (@named_getitem key t Hn), En.
      - exact (@named_items key t Hn). }
    destruct (IH (fun x Hx => Hl x (or_intror Hx))
                (extend d0 (Some n) (report b t))
                (@appendable_extend_all d0 (Some n) (report b t) Ha))
      as (d & Hd & Had & Hentry & Hnone).
    exists d. cbn [foldM]. rewrite Hstep. cbn [bind].
    split; [exact Hd|]. split; [exact Had|]. split.
    + intros k. rewrite Hentry. cbn [flat_map]. rewrite Et, Etw.
      destruct (text_eqb (Some n) k) eqn:E.
      * apply text_eqb_eq in E. subst k.
        rewrite entry_extend by apply Ha. now rewrite <- app_assoc.
      * rewrite entry_extend_other; [reflexivity|].
        now rewrite text_eqb_sym.
    + intros k Hk Hnot. apply Hnone.
      * rewrite lookup_extend_other; [assumption|].
        apply text_eqb_neq. intros ->. apply (Hnot t); [now left|].
        exact Et.
      * intros x Hx. apply Hnot. now right.
Qed.
End MismatchLists.

(** With distinct names, the reports of a name are the report of the one
    entity that carries it. *)
Lemma flat_map_of_the_name (key : string) (g : pyval -> list pyval)
  (l : list pyval) (t : pyval) (n : string) :
  NoDup (names_of key l) -> Forall (named key) l ->
  In t l -> value_of key t = PStr n ->
  flat_map (fun x => if text_eqb (name_text key x) (Some n)
                     then g x else []) l
  = g t.
Proof.
  intros Hnd Hl Hin Hv. induction l as [|x l IH]; [contradiction|].
  inversion Hnd as [|? ? Hx Hnd']; subst.
  inversion Hl as [|? ? Hnx Hl']; subst.
  cbn [flat_map]. destruct (@named_value key x Hnx) as [m Em].
  unfold name_text at 1. rewrite Em. cbn [text_of text_eqb].
  destruct (String.eqb m n) eqn:E.
  - apply String.eqb_eq in E. subst m.
    assert (x = t).
    { destruct Hin as [-> | Hin]; [reflexivity|]. exfalso. apply Hx.
      rewrite Em, <- Hv. now apply in_map. }
    subst x. rewrite (@flat_map_nil _ _ _ l); [now rewrite app_nil_r|].
    intros y Hy. rewrite Forall_forall in Hl'.
    destruct (@named_value key y (Hl' y Hy)) as [m' Em'].
    unfold name_text. rewrite Em'. cbn [text_of text_eqb].
    destruct (String.eqb m' n) eqn:E'; [|reflexivity].
    apply String.eqb_eq in E'. subst m'. exfalso. apply Hx.
    rewrite Em, <- Em'. now apply in_map.
  - destruct Hin as [-> | Hin].
    + rewrite Hv in Em. injection Em as ->.
      now rewrite String.eqb_refl in E.
    + now apply IH.
Qed.

Lemma NoDup_names_filter (key : string) (q : pyval -> bool)
  (l : list pyval) :
  NoDup (names_of key l) -> NoDup (names_of key (filter q l)).
Proof.
  unfold names_of. induction l as [|x l IH]; simpl; intros H; [constructor|].
  inversion H as [|? ? Hx Hnd]; subst.
  destruct (q x); simpl; [|now apply IH].
  constructor; [|now apply IH]. intros Hin. apply Hx.
  apply in_map_iff in Hin. destruct Hin as (y & E & Hy).
  apply filter_In in Hy as [Hy _]. rewrite <- E. now apply in_map.
Qed.

Lemma NoDup_names_changed (key : string) (B T : list pyval) :
  NoDup (names_of key T) -> NoDup (names_of key (changed key B T)).
Proof. intros H. unfold changed. now do 2 apply NoDup_names_filter. Qed.

Lemma changed_named (key : string) (B T : list pyval) :
  Forall (named key) T -> Forall (named key) (changed key B T).
Proof. intros H. unfold changed. now do 2 apply Forall_filter. Qed.

(** ** Feature datasets *)

(** What one property of a test feature dataset yields against the base
    feature dataset [b]: nothing for [Children], nothing for an equal
    value, one triple otherwise. *)
Definition fds_item_report (name : string) (b : pyval) (kv : text * pyval)
  : list pyval :=
  if text_eqb (fst kv) (Some "Children") then []
  else if py_eqb (snd kv) (value_at (fst kv) b) then []
       else [property_triple name (fst kv) (value_at (fst kv) b) (snd kv)].

Definition fds_report (name : string) (b t : pyval) : list pyval :=
  flat_map (fds_item_report name b) (items_of t).

(** Base has every property of test that is compared. *)
Definition fds_fit (b t : pyval) : Prop :=
  (exists db, b = PDict db)
  /\ forall k v, In (k, v) (items_of t) -> k <> Some "Children" ->
                 lookup k (items_of b) <> None.

Lemma fds_step_spec (name : string) (B : list pyval)
  (d : list (text * pyval)) (t b : pyval) (n : string) :
  getitem t (Some "Name") = Ok (PStr n) ->
  base_entry "Name" B (PStr n) = Ok b ->
  items t = Ok (items_of t) ->
  fds_fit b t ->
  appendable d (Some n) ->
  fds_step name B d t = Ok (extend d (Some n) (fds_report name b t)).
Proof.
  intros Hn Hb Hi [[db ->] Hfit] Ha. unfold fds_step.
  rewrite Hn. cbn [bind]. rewrite Hb. cbn [bind]. rewrite Hi. cbn [bind].
  unfold fds_report.
  apply (extend_loop _ (fds_item_report name (PDict db)) (Some n)
           (items_of t)); [|exact Ha].
  intros d1 [k v] Hin Ha1. unfold fds_item_report. cbn [fst snd].
  destruct (text_eqb k (Some "Children")) eqn:Ek; cbn [negb];
    [reflexivity|].
  apply text_eqb_neq in Ek. specialize (Hfit k v Hin Ek).
  unfold value_at. cbn [getitem items_of] in *.
  destruct (lookup k db) as [w|]; [|contradiction]. cbn [bind].
  destruct (py_eqb v w); cbn [negb]; [reflexivity|].
  unfold mismatch_property.
  now rewrite (@append_or_create_extend d1 (PStr n) (Some n) _ eq_refl Ha1).
Qed.

(** The differ of feature datasets, on collections of named, well-formed
    entities with distinct names in test, where base has every property
    of the test entities it is compared with: the mismatch list of an
    entity holds one triple for every property other than [Children]
    whose value differs, in the order of the properties of the test
    entity, and the mismatch dict has no entry but for compared
    entities. *)
Theorem fds_mismatch_lists (name : string) (B T : list pyval) :
  Forall (fun x => wf x = true) T ->
  Forall (named "Name") B ->
  Forall (named "Name") T ->
  NoDup (names_of "Name" T) ->
  (forall t, In t (changed "Name" B T) -> fds_fit (twin "Name" B t) t) ->
  py_eqb (PList B) (PList T) = false ->
  exists d,
    compare_fds_lists name B T
    = Ok (filter (not_named_in "Name" T) B, d,
          filter (not_named_in "Name" B) T)
    /\ (forall t n,
          In t (changed "Name" B T) -> value_of "Name" t = PStr n ->
          entry d (Some n) = fds_report name (twin "Name" B t) t)
    /\ (forall k, lookup k d <> None ->
                  exists t, In t (changed "Name" B T)
                            /\ name_text "Name" t = k).
Proof.
  intros Hwf HB HT Hnd Hfit Hne. unfold compare_fds_lists. rewrite Hne.
  rewrite (@split_by_name_spec "Name" B T HB HT Hwf). cbn [bind].
  pose proof (@changed_named "Name" B T HT) as Hcn.
  destruct (@mismatch_loop "Name" (fds_step name) (fds_report name) fds_fit
              (fds_step_spec name) B (changed "Name" B T)) with (d0 := @nil (text * pyval))
    as (d & Hd & _ & Hentry & Hnone).
  - intros t Ht. rewrite Forall_forall in Hcn. split; [now apply Hcn|].
    destruct (@in_changed "Name" B T t Ht) as (_ & _ & Hin).
    destruct (@base_entry_found "Name" B t HB (Hcn t Ht) Hin)
      as (b & Hb & _).
    exists b. split; [exact Hb|]. specialize (Hfit t Ht).
    unfold twin in Hfit. now rewrite Hb in Hfit.
  - intros k. exact I.
  - exists d. rewrite Hd. cbn [bind]. split; [reflexivity|]. split.
    + intros t n Ht Hv. rewrite Hentry. cbn [entry lookup app].
      exact (@flat_map_of_the_name "Name"
               (fun x => fds_report name (twin "Name" B x) x)
               (changed "Name" B T) t n
               (@NoDup_names_changed "Name" B T Hnd) Hcn Ht Hv).
    + intros k Hk.
      destruct (existsb (fun t => text_eqb (name_text "Name" t) k)
                  (changed "Name" B T)) eqn:E.
      * apply existsb_exists in E as (t & Ht & Et).
        apply text_eqb_eq in Et. now exists t.
      * exfalso. apply Hk. apply Hnone; [reflexivity|].
        intros t Ht Et.
        assert (X : existsb (fun t => text_eqb (name_text "Name" t) k)
                      (changed "Name" B T) = true).
        { apply existsb_exists. exists t. split; [exact Ht|].
          now apply text_eqb_eq. }
        congruence.
Qed.

Definition fds_record (versioned can_version : string)
  (children : list string) : pyval :=
  PDict [(Some "Children", PList (map PStr children));
         (Some "DatasetType", PStr "esriDTFeatureDataset");
         (Some "Name", PStr "Landbase");
         (Some "Versioned", PStr versioned);
         (Some "CanVersion", PStr can_version)].

Lemma fds_mismatch_lists_witness :
  let base := [fds_record "false" "true" ["Parcels"]] in
  let test := [fds_record "true" "false" ["Parcels"; "Roads"]] in
  exists d,
    compare_fds_lists "Feature Dataset" base test
    = Ok (filter (not_named_in "Name" test) base, d,
          filter (not_named_in "Name" base) test)
    /\ (forall t n,
          In t (changed "Name" base test) -> value_of "Name" t = PStr n ->
          entry d (Some n)
          = fds_report "Feature Dataset" (twin "Name" base t) t)
    /\ (forall k, lookup k d <> None ->
                  exists t, In t (changed "Name" base test)
                            /\ name_text "Name" t = k).
Proof.
  intros base test.
  apply (@fds_mismatch_lists "Feature Dataset" base test).
  - repeat constructor.
  - repeat constructor. eexists; eexists; split; reflexivity.
  - repeat constructor. eexists; eexists; split; reflexivity.
  - repeat constructor. intros [].
  - intros t [<- | []]. split; [eexists; reflexivity|].
    intros k v Hin _.
    repeat (destruct Hin as [E | Hin];
            [injection E as <- <-; discriminate|]).
    destruct Hin.
  - reflexivity.
Defined.

(** ** Topologies *)

(** The elements of a list value. *)
Definition list_of (v : pyval) : list pyval :=
  match v with
  | PList l => l
  | _ => []
  end.

(** What one property of a test topology yields against the base topology
    [b]: nothing for an equal value; for [FeatureClassNames] the feature
    classes that only base has and then those that only test has; for
    [TopologyRules] the rules of base that test lacks and then the rules
    of test that base lacks; one triple for any other property. *)
Definition topo_item_report (rt : runtime) (name : string) (b : pyval)
  (kv : text * pyval) : list pyval :=
  let k := fst kv in
  let v := snd kv in
  let w := value_at k b in
  if py_eqb v w then []
  else if text_eqb k (Some "FeatureClassNames") then
    map (fun fc => triple (PStr "Missing feature class in topology")
                     fc PNone)
      (set_difference rt py_eqb (list_of w) (list_of v))
    ++ map (fun fc => triple (PStr "Additional feature class in topology")
                        PNone fc)
         (set_difference rt py_eqb (list_of v) (list_of w))
  else if text_eqb k (Some "TopologyRules") then
    map (fun rule => triple (PStr "Missing topology rule")
                       (rule_text rule) PNone)
      (filter (fun rule => negb (py_in rule (list_of v))) (list_of w))
    ++ map (fun rule => triple (PStr "Additional topology rule")
                          PNone (rule_text rule))
         (filter (fun rule => negb (py_in rule (list_of w))) (list_of v))
  else [property_triple name k w v].

Definition topo_report (rt : runtime) (name : string) (b t : pyval)
  : list pyval :=
  flat_map (topo_item_report rt name b) (items_of t).

Definition is_list (v : pyval) : Prop := exists l, v = PList l.

(** Base has every property of test, and the feature classes and the
    rules are lists on both sides. *)
Definition topo_fit (b t : pyval) : Prop :=
  (exists db, b = PDict db)
  /\ forall k v,
       In (k, v) (items_of t) ->
       lookup k (items_of b) <> None
       /\ (k = Some "FeatureClassNames" \/ k = Some "TopologyRules" ->
           is_list v /\ is_list (value_at k b)).

Lemma topo_step_spec (rt : runtime) (name : string) (B : list pyval)
  (d : list (text * pyval)) (t b : pyval) (n : string) :
  getitem t (Some "Name") = Ok (PStr n) ->
  base_entry "Name" B (PStr n) = Ok b ->
  items t = Ok (items_of t) ->
  topo_fit b t ->
  appendable d (Some n) ->
  topo_step rt name B d t = Ok (extend d (Some n) (topo_report rt name b t)).
Proof.
  intros Hn Hb Hi [[db ->] Hfit] Ha. unfold topo_step.
  rewrite Hn. cbn [bind]. rewrite Hb. cbn [bind]. rewrite Hi. cbn [bind].
  unfold topo_report.
  apply (extend_loop _ (topo_item_report rt name (PDict db)) (Some n)
           (items_of t)); [|exact Ha].
  intros d1 [k v] Hin Ha1. destruct (Hfit k v Hin) as [Hk Hl].
  unfold topo_item_step, topo_item_report, value_at in *.
  cbn [fst snd getitem items_of existsb] in *.
  destruct (lookup k db) as [w|]; [|contradiction]. cbn [bind].
  destruct (text_eqb k (Some "FeatureClassNames")) eqn:Ef.
  - apply text_eqb_eq in Ef.
    destruct (Hl (or_introl Ef)) as [[vl ->] [bl ->]].
    cbn [orb negb]. destruct (py_eqb (PList vl) (PList bl));
      cbn [negb]; [reflexivity|].
    cbn [py_iter bind list_of]. unfold report_each.
    rewrite (@report_loop_extend pyval _ (PStr n) (Some n) _ d1 eq_refl Ha1).
    cbn [bind].
    rewrite (@report_loop_extend pyval _ (PStr n) (Some n) _ _ eq_refl
               (@appendable_extend d1 (Some n) _ Ha1)).
    now rewrite extend_extend.
  - destruct (text_eqb k (Some "TopologyRules")) eqn:Er.
    + apply text_eqb_eq in Er.
      destruct (Hl (or_intror Er)) as [[vl ->] [bl ->]].
      cbn [orb negb]. destruct (py_eqb (PList vl) (PList bl));
        cbn [negb]; [reflexivity|].
      cbn [py_iter bind list_of]. unfold report_each.
      rewrite (@report_loop_extend pyval _ (PStr n) (Some n) _ d1 eq_refl
                 Ha1).
      cbn [bind].
      rewrite (@report_loop_extend pyval _ (PStr n) (Some n) _ _ eq_refl
                 (@appendable_extend d1 (Some n) _ Ha1)).
      now rewrite extend_extend.
    + cbn [orb negb]. destruct (py_eqb v w); cbn [negb]; [reflexivity|].
      unfold mismatch_property.
      now rewrite (@append_or_create_extend d1 (PStr n) (Some n) _ eq_refl
                     Ha1).
Qed.

(** The differ of topologies, on collections of named, well-formed
    entities with distinct names in test, where base has every property
    of the test entities it is compared with and the feature classes and
    rules are lists: the mismatch list of an entity is, property by
    property of the test entity, one triple for a differing scalar
    property, the missing and then the additional feature classes, the
    missing and then the additional rules; the mismatch dict has no entry
    but for compared entities. *)
Theorem topo_mismatch_lists (rt : runtime) (name : string)
  (B T : list pyval) :
  Forall (fun x => wf x = true) T ->
  Forall (named "Name") B ->
  Forall (named "Name") T ->
  NoDup (names_of "Name" T) ->
  (forall t, In t (changed "Name" B T) -> topo_fit (twin "Name" B t) t) ->
  py_eqb (PList B) (PList T) = false ->
  exists d,
    compare_topo_lists rt name B T
    = Ok (filter (not_named_in "Name" T) B, d,
          filter (not_named_in "Name" B) T)
    /\ (forall t n,
          In t (changed "Name" B T) -> value_of "Name" t = PStr n ->
          entry d (Some n) = topo_report rt name (twin "Name" B t) t)
    /\ (forall k, lookup k d <> None ->
                  exists t, In t (changed "Name" B T)
                            /\ name_text "Name" t = k).
Proof.
  intros Hwf HB HT Hnd Hfit Hne. unfold compare_topo_lists. rewrite Hne.
  rewrite (@split_by_name_spec "Name" B T HB HT Hwf). cbn [bind].
  pose proof (@changed_named "Name" B T HT) as Hcn.
  destruct (@mismatch_loop "Name" (topo_step rt name) (topo_report rt name)
              topo_fit (topo_step_spec rt name) B (changed "Name" B T))
    with (d0 := @nil (text * pyval))
    as (d & Hd & _ & Hentry & Hnone).
  - intros t Ht. rewrite Forall_forall in Hcn. split; [now apply Hcn|].
    destruct (@in_changed "Name" B T t Ht) as (_ & _ & Hin).
    destruct (@base_entry_found "Name" B t HB (Hcn t Ht) Hin)
      as (b & Hb & _).
    exists b. split; [exact Hb|]. specialize (Hfit t Ht).
    unfold twin in Hfit. now rewrite Hb in Hfit.
  - intros k. exact I.
  - exists d. rewrite Hd. cbn [bind]. split; [reflexivity|]. split.
    + intros t n Ht Hv. rewrite Hentry. cbn [entry lookup app].
      exact (@flat_map_of_the_name "Name"
               (fun x => topo_report rt name (twin "Name" B x) x)
               (changed "Name" B T) t n
               (@NoDup_names_changed "Name" B T Hnd) Hcn Ht Hv).
    + intros k Hk.
      destruct (existsb (fun t => text_eqb (name_text "Name" t) k)
                  (changed "Name" B T)) eqn:E.
      * apply existsb_exists in E as (t & Ht & Et).
        apply text_eqb_eq in Et. now exists t.
      * exfalso. apply Hk. apply Hnone; [reflexivity|].
        intros t Ht Et.
        assert (X : existsb (fun t => text_eqb (name_text "Name" t) k)
                      (changed "Name" B T) = true).
        { apply existsb_exists. exists t. split; [exact Ht|].
          now apply text_eqb_eq. }
        congruence.
Qed.

Definition topology_record (tolerance : string) (fcs : list string)
  (rules : list pyval) : pyval :=
  PDict [(Some "Name", PStr "Landbase_Topology");
         (Some "ClusterTolerance", PStr tolerance);
         (Some "FeatureClassNames", PList (map PStr fcs));
         (Some "TopologyRules", PList rules)].

Definition no_dangles : pyval :=
  PDict [(Some "TopologyRuleType", PStr "esriTRTLineNoDangles");
         (Some "OriginClassID", PStr "Roads")].

Definition no_overlap : pyval :=
  PDict [(Some "TopologyRuleType", PStr "esriTRTAreaNoOverlap");
         (Some "OriginClassID", PStr "Parcels")].

Lemma topo_mismatch_lists_witness :
  let base := [topology_record "0.001" ["Roads"] [no_dangles]] in
  let test :=
    [topology_record "0.002" ["Roads"; "Parcels"] [no_overlap]] in
  exists d,
    compare_topo_lists insertion_order "Topology" base test
    = Ok (filter (not_named_in "Name" test) base, d,
          filter (not_named_in "Name" base) test)
    /\ (forall t n,
          In t (changed "Name" base test) -> value_of "Name" t = PStr n ->
          entry d (Some n)
          = topo_report insertion_order "Topology" (twin "Name" base t) t)
    /\ (forall k, lookup k d <> None ->
                  exists t, In t (changed "Name" base test)
                            /\ name_text "Name" t = k).
Proof.
  intros base test.
  apply (@topo_mismatch_lists insertion_order "Topology" base test).
  - repeat constructor.
  - repeat constructor. eexists; eexists; split; reflexivity.
  - repeat constructor. eexists; eexists; split; reflexivity.
  - repeat constructor. intros [].
  - intros t [<- | []]. split; [eexists; reflexivity|].
    intros k v Hin.
    repeat (destruct Hin as [E | Hin];
            [injection E as <- <-; split;
             [discriminate
             | intros [F | F]; try discriminate F;
               split; eexists; reflexivity]|]).
    destruct Hin.
  - reflexivity.
Defined.

(** ** The rows and merged cells of a result sheet *)

(** The number of rows a mismatch list takes. *)
Definition rows_of (val_list : pyval) : nat :=
  match py_iter val_list with
  | Ok vals => List.length vals
  | Raise _ => 0
  end.

(** The ranges merged for the items of a mismatch dict whose first row is
    [row]: one range per item of more than one row, over the rows of the
    item in column 1. *)
Fixpoint merged_from (row : nat) (diff_dict : list (text * pyval))
  : list (nat * nat * nat * nat) :=
  match diff_dict with
  | [] => []
  | (_, val_list) :: rest =>
      (if (1 <? rows_of val_list)%nat
       then [(row, 1, row + rows_of val_list - 1, 1)]
       else [])
        ++ merged_from (row + rows_of val_list) rest
  end.

(** Writing a cell changes the cells only. *)
Definition same_layout (ws ws' : worksheet) : Prop :=
  ws_title ws' = ws_title ws
  /\ ws_merged ws' = ws_merged ws
  /\ ws_centered ws' = ws_centered ws.

Lemma same_layout_refl (ws : worksheet) : same_layout ws ws.
Proof. now repeat split. Qed.

Lemma same_layout_trans (a b c : worksheet) :
  same_layout a b -> same_layout b c -> same_layout a c.
Proof.
  intros (H1 & H2 & H3) (G1 & G2 & G3). repeat split; congruence.
Qed.

Lemma set_cell_layout (row col : nat) (v : pyval) (ws ws' : worksheet) :
  set_cell row col v ws = Ok ws' -> same_layout ws ws'.
Proof.
  unfold set_cell. intros H. inv_bind H. injection H as <-.
  now repeat split.
Qed.

(** A loop each round of which writes cells and moves one row (or column)
    on. *)
Lemma counted_loop {A}
  (body : worksheet * nat -> A -> result (worksheet * nat)) (l : list A) :
  (forall ws n x ws' n',
     In x l -> body (ws, n) x = Ok (ws', n') ->
     same_layout ws ws' /\ n' = n + 1) ->
  forall ws n ws' n',
    foldM body l (ws, n) = Ok (ws', n') ->
    same_layout ws ws' /\ n' = n + List.length l.
Proof.
  induction l as [|x l IH]; intros Hb ws n ws' n' H; simpl in H.
  - injection H as <- <-. split; [apply same_layout_refl | simpl; lia].
  - inv_bind H. destruct a as [ws1 n1].
    destruct (Hb ws n x ws1 n1 (or_introl eq_refl) Ha) as [L1 ->].
    destruct (IH (fun ws n y ws' n' Hy => Hb ws n y ws' n' (or_intror Hy))
                ws1 (n + 1) ws' n' H) as [L2 ->].
    split; [exact (same_layout_trans L1 L2) | simpl; lia].
Qed.

Lemma entity_row_layout (item_type dict_key label : string)
  (value_col : nat) (ws : worksheet) (row : nat) (item : pyval)
  (ws' : worksheet) (row' : nat) :
  entity_row item_type dict_key label value_col (ws, row) item
  = Ok (ws', row') ->
  same_layout ws ws' /\ row' = row + 1.
Proof.
  unfold entity_row. intros H. unbind H as v Hv.
  unbind H as ws1 H1. unbind H as ws2 H2. unbind H as ws3 H3.
  injection H as <- <-. split; [|reflexivity].
  apply set_cell_layout in H1, H2, H3.
  exact (same_layout_trans (same_layout_trans H1 H2) H3).
Qed.

Lemma triple_row_layout (ws : worksheet) (row : nat) (val : pyval)
  (ws' : worksheet) (row' : nat) :
  (its <- py_iter val ;;
   '(ws, _) <-
     foldM (fun acc item =>
              let '(ws, col) := acc in
              ws <- set_cell row col item ws ;;
              Ok (ws, col + 1))
       its (ws, 2) ;;
   Ok (ws, row + 1)) = Ok (ws', row') ->
  same_layout ws ws' /\ row' = row + 1.
Proof.
  intros H. unbind H as its Hits. unbind H as acc Hacc.
  destruct acc as [ws1 col]. injection H as <- <-.
  split; [|reflexivity].
  apply (@counted_loop pyval _ its) in Hacc; [apply Hacc|].
  intros w n x w' n' _ Hx. unbind Hx as w1 Hw1. injection Hx as <- <-.
  split; [exact (@set_cell_layout _ _ _ _ _ Hw1) | reflexivity].
Qed.

(** One item of the mismatch dict: its rows, and the range merged when it
    has more than one. *)
Lemma mismatch_rows_layout (ws : worksheet) (row : nat) (key : text)
  (val_list : pyval) (ws' : worksheet) (row' : nat) :
  mismatch_rows (ws, row) (key, val_list) = Ok (ws', row') ->
  row' = row + rows_of val_list
  /\ ws_title ws' = ws_title ws
  /\ ws_merged ws'
     = ws_merged ws ++ (if (1 <? rows_of val_list)%nat
                        then [(row, 1, row + rows_of val_list - 1, 1)]
                        else [])
  /\ ws_centered ws'
     = ws_centered ws ++ (if (1 <? rows_of val_list)%nat
                          then [(row, 1)] else []).
Proof.
  unfold mismatch_rows. intros H. unbind H as ws1 H1.
  unbind H as vals Hvals. unbind H as acc Hacc. destruct acc as [ws2 r2].
  apply set_cell_layout in H1.
  assert (L : same_layout ws1 ws2 /\ r2 = row + List.length vals).
  { apply (@counted_loop pyval _ vals) with (1 := ltac:(
      intros w n x w' n' _ Hx; exact (@triple_row_layout w n x w' n' Hx)))
      in Hacc. exact Hacc. }
  destruct L as [L ->].
  destruct (same_layout_trans H1 L) as (T & M & C).
  unfold rows_of. rewrite Hvals.
  replace (row + 1 <? row + List.length vals)%nat
    with (1 <? List.length vals)%nat in H
    by (destruct (Nat.ltb_spec 1 (List.length vals)),
                 (Nat.ltb_spec (row + 1) (row + List.length vals));
        try reflexivity; lia).
  destruct (1 <? List.length vals)%nat; injection H as <- <-; cbn.
  - now rewrite T, M, C.
  - now rewrite T, M, C, !app_nil_r.
Qed.

Lemma mismatch_loop_layout (diff_dict : list (text * pyval)) :
  forall ws row ws' row',
    foldM mismatch_rows diff_dict (ws, row) = Ok (ws', row') ->
    row' = row + list_sum (map (fun kv => rows_of (snd kv)) diff_dict)
    /\ ws_title ws' = ws_title ws
    /\ ws_merged ws' = ws_merged ws ++ merged_from row diff_dict
    /\ ws_centered ws'
       = ws_centered ws
           ++ map (fun m => match m with (r, c, _, _) => (r, c) end)
                (merged_from row diff_dict).
Proof.
  induction diff_dict as [|[k v] rest IH]; intros ws row ws' row' H;
    simpl in H.
  - injection H as <- <-. cbn. rewrite !app_nil_r.
    repeat split; lia.
  - inv_bind H. destruct a as [ws1 r1].
    apply mismatch_rows_layout in Ha. destruct Ha as (-> & T1 & M1 & C1).
    apply IH in H. destruct H as (-> & T & M & C).
    cbn [merged_from map list_sum snd].
    rewrite T, M, C, T1, M1, C1, map_app, <- !app_assoc.
    repeat split.
    + unfold list_sum. cbn [fold_right]. lia.
    + now destruct (1 <? rows_of v)%nat.
Qed.

(** The title of a new sheet is the one the library makes of the name
    asked for and the titles the workbook has. *)
Lemma new_sheet_layout (rt : runtime) (names : list string)
  (sheet_name item_type : string) (ws : worksheet) :
  new_sheet rt names sheet_name item_type = Ok ws ->
  sheet_title rt names sheet_name = Ok (ws_title ws)
  /\ ws_merged ws = [] /\ ws_centered ws = [].
Proof.
  unfold new_sheet. intros H. unbind H as title Ht.
  unbind H as w1 H1. unbind H as w2 H2. unbind H as w3 H3.
  apply set_cell_layout in H1, H2, H3, H.
  destruct (same_layout_trans (same_layout_trans H1 H2)
              (same_layout_trans H3 H)) as (T & M & C).
  now rewrite T, M, C.
Qed.

(** When [write_results_to_xls] returns, the workbook has one more sheet;
    its title is the one [create_sheet] makes of the given name and the
    titles of the sheets the workbook has, which did not raise.  The
    mismatch lists start below the header row and the rows of the missing
    entities and take one row per triple; the name cell of a mismatched
    entity is merged over the rows of its list exactly when the list has
    more than one triple, and the merged cells are the ones that are
    centred. *)
Theorem mismatched_entities_merge_their_rows (rt : runtime)
  (wb wb' : workbook) (sheet_name item_type dict_key : string)
  (miss_list : list pyval) (diff_dict : list (text * pyval))
  (adds_list : list pyval) :
  write_results_to_xls rt wb sheet_name item_type dict_key
    (miss_list, diff_dict, adds_list) = Ok wb' ->
  exists ws,
    wb' = wb ++ [ws]
    /\ sheet_title rt (map ws_title wb) sheet_name = Ok (ws_title ws)
    /\ ws_merged ws = merged_from (2 + List.length miss_list) diff_dict
    /\ ws_centered ws
       = map (fun m => match m with (r, c, _, _) => (r, c) end)
           (ws_merged ws).
Proof.
  unfold write_results_to_xls. intros H. unbind H as ws0 H0.
  unbind H as acc1 H1. destruct acc1 as [ws1 r1].
  unbind H as acc2 H2. destruct acc2 as [ws2 r2].
  unbind H as acc3 H3. destruct acc3 as [ws3 r3].
  injection H as <-. exists ws3. split; [reflexivity|].
  apply new_sheet_layout in H0. destruct H0 as (T0 & M0 & C0).
  apply (@counted_loop pyval _ miss_list) in H1;
    [|intros w n x w' n' _; apply entity_row_layout].
  destruct H1 as [(T1 & M1 & C1) ->].
  apply mismatch_loop_layout in H2. destruct H2 as (-> & T2 & M2 & C2).
  apply (@counted_loop pyval _ adds_list) in H3;
    [|intros w n x w' n' _; apply entity_row_layout].
  destruct H3 as [(T3 & M3 & C3) _].
  rewrite T3, M3, C3, T2, M2, C2, T1, M1, C1, M0, C0.
  now repeat split.
Qed.

Lemma mismatched_entities_merge_their_rows_witness :
  let miss := [PDict [(Some "Name", PStr "Hydrants")]] in
  let three := triple (PStr "Field has mismatch Type property")
                 (PStr "esriFieldTypeString") (PStr "esriFieldTypeDate") in
  let dif := [(Some "Roads", PList [three; three]);
              (Some "Parcels", PList [three]);
              (Some "Valves", PList [three; three; three])] in
  exists ws,
    write_results_to_xls insertion_order [] "Tables" "Table" "Name"
      (miss, dif, [])
    = Ok [ws]
    /\ ws_title ws = "Tables"
    /\ ws_merged ws = [(3, 1, 4, 1); (6, 1, 8, 1)]
    /\ ws_centered ws = [(3, 1); (6, 1)].
Proof.
  intros miss three dif.
  destruct (write_results_to_xls insertion_order [] "Tables" "Table" "Name"
              (miss, dif, []))
    as [wb'|e] eqn:E; [|vm_compute in E; discriminate E].
  destruct (@mismatched_entities_merge_their_rows insertion_order [] wb'
              "Tables" "Table" "Name" miss dif [] E)
    as (ws & -> & T & M & C).
  exists ws. split; [reflexivity|].
  split; [|split; [exact M | rewrite C, M; reflexivity]].
  assert (T' : Ok "Tables" = Ok (ws_title ws))
    by (rewrite <- T; reflexivity).
  now injection T' as <-.
Defined.

(** ** The cells of a result sheet *)

Lemma cell_value_filter_other (r c row col : nat)
  (cells : list (nat * nat * pyval)) :
  Nat.eqb row r && Nat.eqb col c = false ->
  cell_value r c
    (filter (fun x => match x with
                      | (r0, c0, _) => negb (Nat.eqb r0 row && Nat.eqb c0 col)
                      end) cells)
  = cell_value r c cells.
Proof.
  intros H. induction cells as [|[[r0 c0] v] cells IH]; [reflexivity|].
  cbn [filter cell_value].
  destruct (Nat.eqb r0 row && Nat.eqb c0 col) eqn:E; cbn [negb].
  - apply andb_true_iff in E as [E1 E2].
    apply Nat.eqb_eq in E1, E2. subst r0 c0. now rewrite H.
  - cbn [cell_value]. now rewrite IH.
Qed.

(** The cell written shows the value as the sheet binds it. *)
Lemma set_cell_same (row col : nat) (v : pyval) (ws ws' : worksheet) :
  set_cell row col v ws = Ok ws' ->
  bind_value v = Ok (cell_value row col (ws_cells ws')).
Proof.
  unfold set_cell. intros H. inv_bind H. injection H as <-.
  cbn [ws_cells cell_value]. now rewrite !Nat.eqb_refl.
Qed.

(** The other cells stay as they are. *)
Lemma set_cell_other (row col : nat) (v : pyval) (ws ws' : worksheet)
  (r c : nat) :
  set_cell row col v ws = Ok ws' ->
  Nat.eqb row r && Nat.eqb col c = false ->
  cell_value r c (ws_cells ws') = cell_value r c (ws_cells ws).
Proof.
  unfold set_cell. intros H Hne. inv_bind H. injection H as <-.
  cbn [ws_cells cell_value]. rewrite Hne.
  now apply cell_value_filter_other.
Qed.

Lemma substring_prefix_idem (n : nat) (s : string) :
  substring 0 n (substring 0 n s) = substring 0 n s.
Proof.
  revert s. induction n as [|n IH]; intros s.
  - now destruct s.
  - destruct s as [|c s]; [reflexivity|]. cbn [substring]. now rewrite IH.
Qed.

(** A value read from a cell is bound to itself. *)
Lemma bind_value_idem (v v' : pyval) :
  bind_value v = Ok v' -> bind_value v' = Ok v'.
Proof.
  destruct v as [|s| | |]; cbn [bind_value]; try discriminate.
  - now intros [= <-].
  - destruct (has_illegal (substring 0 cell_limit s)) eqn:E;
      [discriminate|].
    intros [= <-]. cbn [bind_value].
    now rewrite substring_prefix_idem, E.
Qed.

(** The cells above [row] are the same in both sheets. *)
Definition keeps (row : nat) (ws ws' : worksheet) : Prop :=
  forall r c, r < row ->
              cell_value r c (ws_cells ws') = cell_value r c (ws_cells ws).

Lemma keeps_refl (row : nat) (ws : worksheet) : keeps row ws ws.
Proof. now intros r c _. Qed.

Lemma keeps_trans (row row' : nat) (a b c : worksheet) :
  row <= row' -> keeps row a b -> keeps row' b c -> keeps row a c.
Proof.
  intros Hle H1 H2 r col Hr. rewrite H2 by lia. now apply H1.
Qed.

Lemma set_cell_keeps (row col : nat) (v : pyval) (ws ws' : worksheet) :
  set_cell row col v ws = Ok ws' -> keeps row ws ws'.
Proof.
  intros H r c Hr. apply (@set_cell_other row col v ws ws' r c H).
  apply andb_false_iff. left. apply Nat.eqb_neq. lia.
Qed.

(** A loop that writes from its current row on. *)
Lemma rows_loop {A}
  (body : worksheet * nat -> A -> result (worksheet * nat)) (l : list A) :
  (forall ws n x ws' n',
     In x l -> body (ws, n) x = Ok (ws', n') -> keeps n ws ws' /\ n <= n') ->
  forall ws n ws' n',
    foldM body l (ws, n) = Ok (ws', n') -> keeps n ws ws' /\ n <= n'.
Proof.
  induction l as [|x l IH]; intros Hb ws n ws' n' H; simpl in H.
  - injection H as <- <-. split; [apply keeps_refl | lia].
  - inv_bind H. destruct a as [ws1 n1].
    destruct (Hb ws n x ws1 n1 (or_introl eq_refl) Ha) as [K1 L1].
    destruct (IH (fun ws n y ws' n' Hy => Hb ws n y ws' n' (or_intror Hy))
                ws1 n1 ws' n' H) as [K2 L2].
    split; [exact (@keeps_trans _ _ _ _ _ L1 K1 K2) | lia].
Qed.

(** The row of a missing or additional entity: its name in column 1, the
    label and the item type in column 2, and the content of column 1
    again in the value column. *)
Definition entity_cells (item_type dict_key label : string)
  (value_col row : nat) (item : pyval) (ws : worksheet) : Prop :=
  exists v,
    (if truthy (PStr dict_key) then getitem item (Some dict_key)
     else Ok item) = Ok v
    /\ bind_value v = Ok (cell_value row 1 (ws_cells ws))
    /\ bind_value (PStr (label +++ " " +++ item_type))
       = Ok (cell_value row 2 (ws_cells ws))
    /\ cell_value row value_col (ws_cells ws)
       = cell_value row 1 (ws_cells ws).

Lemma entity_cells_keeps (item_type dict_key label : string)
  (value_col row : nat) (item : pyval) (ws ws' : worksheet) :
  keeps (S row) ws ws' ->
  entity_cells item_type dict_key label value_col row item ws ->
  entity_cells item_type dict_key label value_col row item ws'.
Proof.
  intros K (v & Hv & H1 & H2 & H3). exists v.
  rewrite !K by lia. auto.
Qed.

Lemma entity_row_cells (item_type dict_key label : string)
  (value_col : nat) (ws : worksheet) (row : nat) (item : pyval)
  (ws' : worksheet) (row' : nat) :
  2 < value_col ->
  entity_row item_type dict_key label value_col (ws, row) item
  = Ok (ws', row') ->
  keeps row ws ws'
  /\ entity_cells item_type dict_key label value_col row item ws'.
Proof.
  intros Hc. unfold entity_row. intros H. unbind H as v Hv.
  unbind H as ws1 H1. unbind H as ws2 H2. unbind H as ws3 H3.
  injection H as <- _.
  assert (N1 : forall c, c <> value_col ->
                         Nat.eqb row row && Nat.eqb value_col c = false).
  { intros c Hn. apply andb_false_iff. right. apply Nat.eqb_neq. lia. }
  split.
  - apply (@keeps_trans row row _ _ _ (Nat.le_refl row)
             (@set_cell_keeps _ _ _ _ _ H1)).
    apply (@keeps_trans row row _ _ _ (Nat.le_refl row)
             (@set_cell_keeps _ _ _ _ _ H2)).
    exact (@set_cell_keeps _ _ _ _ _ H3).
  - exists v. split; [exact Hv|].
    pose proof (@set_cell_same _ _ _ _ _ H1) as S1.
    pose proof (@set_cell_same _ _ _ _ _ H2) as S2.
    pose proof (@set_cell_same _ _ _ _ _ H3) as S3.
    assert (E21 : cell_value row 1 (ws_cells ws2)
                  = cell_value row 1 (ws_cells ws1))
      by (apply (@set_cell_other _ _ _ _ _ row 1 H2); reflexivity ||
          (apply andb_false_iff; now right)).
    assert (E31 : cell_value row 1 (ws_cells ws3)
                  = cell_value row 1 (ws_cells ws2))
      by (apply (@set_cell_other _ _ _ _ _ row 1 H3); apply N1; lia).
    assert (E32 : cell_value row 2 (ws_cells ws3)
                  = cell_value row 2 (ws_cells ws2))
      by (apply (@set_cell_other _ _ _ _ _ row 2 H3); apply N1; lia).
    rewrite E31, E32, E21. split; [exact S1|]. split; [exact S2|].
    rewrite <- E21 in S1. apply bind_value_idem in S1.
    rewrite S1 in S3. now injection S3 as <-.
Qed.

(** The loop over the missing, or the additional, entities: the entity at
    position [i] has the row [row + i]. *)
Lemma entity_rows_cells (item_type dict_key label : string)
  (value_col : nat) (l : list pyval) :
  2 < value_col ->
  forall ws row ws' row',
    foldM (entity_row item_type dict_key label value_col) l (ws, row)
    = Ok (ws', row') ->
    keeps row ws ws'
    /\ forall i item,
         nth_error l i = Some item ->
         entity_cells item_type dict_key label value_col (row + i) item ws'.
Proof.
  intros Hc. induction l as [|x l IH]; intros ws row ws' row' H;
    simpl in H.
  - injection H as <- <-. split; [apply keeps_refl|].
    intros [|i] item Hi; discriminate Hi.
  - inv_bind H. destruct a as [ws1 r1].
    destruct (@entity_row_layout _ _ _ _ _ _ _ _ _ Ha) as [_ ->].
    destruct (@entity_row_cells item_type dict_key label value_col ws row x
                ws1 (row + 1) Hc Ha) as [K1 C1].
    destruct (IH ws1 (row + 1) ws' row' H) as [K2 C2].
    split.
    + apply (@keeps_trans row (row + 1) ws ws1 ws'); [lia | exact K1 |
                                                       exact K2].
    + intros [|i] item Hi; cbn [nth_error] in Hi.
      * injection Hi as <-. rewrite Nat.add_0_r.
        apply (@entity_cells_keeps item_type dict_key label value_col row
                 x ws1 ws'); [|exact C1].
        now replace (S row) with (row + 1) by lia.
      * replace (row + S i) with (row + 1 + i) by lia. now apply C2.
Qed.

Lemma mismatch_rows_keeps (ws : worksheet) (row : nat)
  (kv : text * pyval) (ws' : worksheet) (row' : nat) :
  mismatch_rows (ws, row) kv = Ok (ws', row') ->
  keeps row ws ws' /\ row <= row'.
Proof.
  destruct kv as [key val_list]. unfold mismatch_rows. intros H.
  unbind H as ws1 H1. unbind H as vals Hvals.
  unbind H as acc Hacc. destruct acc as [ws2 r2].
  apply set_cell_keeps in H1.
  assert (L : keeps row ws1 ws2 /\ row <= r2).
  { eapply rows_loop; cycle 1; [exact Hacc|].
    intros w n x w' n' _ Hx. unbind Hx as its Hits.
    unbind Hx as acc Hin. destruct acc as [w1 col].
    injection Hx as <- <-. split; [|lia].
    clear Hits. revert Hin. generalize 2 as c0. revert w.
    induction its as [|y its IHi]; intros w c0 Hin; simpl in Hin.
    - injection Hin as <- _. apply keeps_refl.
    - inv_bind Hin. unbind Ha as w2 Hw2. injection Ha as <-.
      apply (@keeps_trans n n _ _ _ (Nat.le_refl n)
               (@set_cell_keeps _ _ _ _ _ Hw2)).
      eapply IHi. exact Hin. }
  destruct L as [K L].
  assert (K' : keeps row ws ws2)
    by exact (@keeps_trans row row _ _ _ (Nat.le_refl row) H1 K).
  destruct (row + 1 <? r2)%nat; injection H as <- <-;
    (split; [exact K' | exact L]).
Qed.

(** When [write_results_to_xls] returns, the new sheet has the header row
    and, from row 2 on, one row for every missing entity, in order: its
    name in columns 1 and 3 and [Missing <item type>] in column 2.  Below
    the rows of the mismatch lists it has one row for every additional
    entity, in order: its name in columns 1 and 4 and
    [Additional <item type>] in column 2.  The name is the entry under
    [dict_key], or the item itself when [dict_key] is empty. *)
Theorem missing_and_additional_rows (rt : runtime) (wb wb' : workbook)
  (sheet_name item_type dict_key : string)
  (miss_list : list pyval) (diff_dict : list (text * pyval))
  (adds_list : list pyval) :
  write_results_to_xls rt wb sheet_name item_type dict_key
    (miss_list, diff_dict, adds_list) = Ok wb' ->
  exists ws,
    wb' = wb ++ [ws]
    /\ bind_value (PStr (item_type +++ " Name"))
       = Ok (cell_value 1 1 (ws_cells ws))
    /\ cell_value 1 2 (ws_cells ws) = PStr "Difference"
    /\ cell_value 1 3 (ws_cells ws) = PStr "Base"
    /\ cell_value 1 4 (ws_cells ws) = PStr "Test"
    /\ (forall i item,
          nth_error miss_list i = Some item ->
          entity_cells item_type dict_key "Missing" 3 (2 + i) item ws)
    /\ (forall i item,
          nth_error adds_list i = Some item ->
          entity_cells item_type dict_key "Additional" 4
            (2 + List.length miss_list
             + list_sum (map (fun kv => rows_of (snd kv)) diff_dict) + i)
            item ws).
Proof.
  unfold write_results_to_xls. intros H. unbind H as ws0 H0.
  unbind H as acc1 H1. destruct acc1 as [ws1 r1].
  unbind H as acc2 H2. destruct acc2 as [ws2 r2].
  unbind H as acc3 H3. destruct acc3 as [ws3 r3].
  injection H as <-. exists ws3. split; [reflexivity|].
  pose proof (@counted_loop pyval _ miss_list
                (fun w n x w' n' _ => @entity_row_layout item_type dict_key
                                        "Missing" 3 w n x w' n')
                ws0 2 ws1 r1 H1) as [_ ->].
  pose proof (@mismatch_loop_layout diff_dict ws1 _ ws2 r2 H2)
    as (-> & _).
  destruct (@entity_rows_cells item_type dict_key "Missing" 3 miss_list
              ltac:(lia) ws0 2 ws1 _ H1) as [K1 C1].
  destruct (@rows_loop (text * pyval) mismatch_rows diff_dict
              (fun w n x w' n' _ => @mismatch_rows_keeps w n x w' n')
              ws1 _ ws2 _ H2) as [K2 L2].
  destruct (@entity_rows_cells item_type dict_key "Additional" 4 adds_list
              ltac:(lia) ws2 _ ws3 r3 H3) as [K3 C3].
  assert (K13 : keeps (2 + List.length miss_list) ws1 ws3)
    by exact (@keeps_trans _ _ _ _ _ L2 K2 K3).
  assert (K03 : keeps 2 ws0 ws3)
    by (apply (@keeps_trans 2 (2 + List.length miss_list) ws0 ws1 ws3);
        [lia | exact K1 | exact K13]).
  rewrite !K03 by lia.
  unfold new_sheet in H0. unbind H0 as title Ht.
  unbind H0 as w1 G1. unbind H0 as w2 G2. unbind H0 as w3 G3.
  pose proof (@set_cell_same _ _ _ _ _ G1) as S1.
  pose proof (@set_cell_same _ _ _ _ _ G2) as S2.
  pose proof (@set_cell_same _ _ _ _ _ G3) as S3.
  pose proof (@set_cell_same _ _ _ _ _ H0) as S4.
  rewrite (@set_cell_other _ _ _ _ _ 1 1 H0 eq_refl),
    (@set_cell_other _ _ _ _ _ 1 2 H0 eq_refl),
    (@set_cell_other _ _ _ _ _ 1 3 H0 eq_refl),
    (@set_cell_other _ _ _ _ _ 1 1 G3 eq_refl),
    (@set_cell_other _ _ _ _ _ 1 2 G3 eq_refl),
    (@set_cell_other _ _ _ _ _ 1 1 G2 eq_refl).
  split; [exact S1|].
  assert (B2 : bind_value (PStr "Difference") = Ok (PStr "Difference"))
    by (vm_compute; reflexivity).
  assert (B3 : bind_value (PStr "Base") = Ok (PStr "Base"))
    by (vm_compute; reflexivity).
  assert (B4 : bind_value (PStr "Test") = Ok (PStr "Test"))
    by (vm_compute; reflexivity).
  rewrite B2 in S2. rewrite B3 in S3. rewrite B4 in S4.
  injection S2 as <-. injection S3 as <-. injection S4 as <-.
  repeat (split; [reflexivity|]). split.
  - intros i item Hi.
    apply (@entity_cells_keeps item_type dict_key "Missing" 3 (2 + i) item
             ws1 ws3); [|now apply C1].
    intros r c Hr. apply K13.
    assert (i < List.length miss_list)
      by (apply nth_error_Some; congruence).
    lia.
  - intros i item Hi. now apply C3.
Qed.

Lemma missing_and_additional_rows_witness :
  let miss := [PDict [(Some "Name", PStr "Hydrants")]] in
  let three := triple (PStr "Field has mismatch Type property")
                 (PStr "esriFieldTypeString") (PStr "esriFieldTypeDate") in
  let dif := [(Some "Roads", PList [three; three])] in
  let adds := [PDict [(Some "Name", PStr "Valves")]] in
  exists ws,
    write_results_to_xls insertion_order [] "Tables" "Table" "Name"
      (miss, dif, adds)
    = Ok [ws]
    /\ cell_value 1 1 (ws_cells ws) = PStr "Table Name"
    /\ cell_value 1 2 (ws_cells ws) = PStr "Difference"
    /\ entity_cells "Table" "Name" "Missing" 3 2
         (PDict [(Some "Name", PStr "Hydrants")]) ws
    /\ entity_cells "Table" "Name" "Additional" 4 5
         (PDict [(Some "Name", PStr "Valves")]) ws.
Proof.
  intros miss three dif adds.
  destruct (write_results_to_xls insertion_order [] "Tables" "Table"
              "Name" (miss, dif, adds))
    as [wb'|e] eqn:E; [|vm_compute in E; discriminate E].
  destruct (@missing_and_additional_rows insertion_order [] wb' "Tables"
              "Table" "Name" miss dif adds E)
    as (ws & -> & H11 & H12 & _ & _ & Hm & Ha).
  exists ws. split; [reflexivity|]. split.
  - assert (B : bind_value (PStr ("Table" +++ " Name"))
                = Ok (PStr "Table Name")) by (vm_compute; reflexivity).
    rewrite B in H11. now injection H11 as <-.
  - split; [exact H12|]. split.
    + exact (Hm 0 _ eq_refl).
    + exact (Ha 0 _ eq_refl).
Defined.

(* ================================================================== *)
(** ** From a [Field] element to the record the differ reads *)












(* ================================================================== *)
(** ** From a document to the fields of its dataset *)



Section FieldsOfARecord.
Variables ignore_len_non_text ignore_ds_alias ignore_fld_alias : bool.
Variables ignore_hasm ignore_hasz : bool.







End FieldsOfARecord.









(* ================================================================== *)
(** ** One field under two spellings *)



Lemma roads_shape (flds : list pyval) :
  Forall (named "Name") flds ->
  wf (PList flds) = true ->
  dataset_shape (roads_rec flds) "Roads" flds.
Proof.
  intros Hn Hw. constructor.
  - simpl in *. now rewrite Hw.
  - reflexivity.
  - reflexivity.
  - exact Hn.
  - intros v Hv. injection Hv as <-. exists []. split; [reflexivity|].
    constructor.
  - intros v Hv. injection Hv as <-. do 2 eexists. reflexivity.
Qed.




(* ================================================================== *)
(** ** The length of text fields and of other fields *)









(** *** Reading a description back *)








(** ** Coded values that only base has *)

Lemma set_difference_nil {A} (rt : runtime) (eqb : A -> A -> bool)
  (a b : list A) :
  (forall x, In x a -> mem eqb x b = true) ->
  set_difference rt eqb a b = [].
Proof.
  intros H. unfold set_difference.
  assert (E : filter (fun x => negb (mem eqb x b)) a = []).
  { induction a as [|x a IH]; [reflexivity|]. simpl.
    rewrite (H x (or_introl eq_refl)). simpl.
    apply IH. intros; apply H; now right. }
  rewrite E. cbn [dedup].
  apply Permutation_nil. symmetry. apply set_iter_perm.
Qed.

Lemma set_difference_not_nil {A} (rt : runtime) (eqb : A -> A -> bool)
  (a b : list A) (x : A) :
  In x a -> mem eqb x b = false -> set_difference rt eqb a b <> [].
Proof.
  intros Hin Hx E. unfold set_difference in E.
  pose proof (set_iter_perm rt a b
                (dedup eqb (filter (fun x => negb (mem eqb x b)) a) []))
    as P.
  rewrite E in P. apply Permutation_nil in P.
  assert (Hf : In x (filter (fun x => negb (mem eqb x b)) a))
    by (apply filter_In; split; [assumption | now rewrite Hx]).
  destruct (filter (fun x => negb (mem eqb x b)) a) as [|y l];
    [contradiction|].
  discriminate P.
Qed.

Lemma assign_not_nil {V} (k : text) (v : V) (d : list (text * V)) :
  assign k v d <> [].
Proof.
  destruct d as [|[k' v'] d]; simpl; [discriminate|].
  destruct (text_eqb k k'); discriminate.
Qed.

Lemma dict_of_pairs_not_nil (l : list (text * pyval)) :
  l <> [] -> dict_of_pairs l <> [].
Proof.
  destruct l as [|x l]; [contradiction|]. intros _.
  unfold dict_of_pairs. cbn [fold_left].
  apply (fold_left_invariant (fun d => d <> [])).
  - intros; apply assign_not_nil.
  - apply assign_not_nil.
Qed.

(** The round for [CodedValues] when test has no coded value of its own
    but lacks one of base: the first branch is taken, and
    [swap_key_value] is called on the empty string. *)
Lemma coded_values_step_fails (rt : runtime) (domain_name b : pyval)
  (acc : list (text * pyval) * option string)
  (v w : list (text * pyval)) :
  getitem b (Some "CodedValues") = Ok (PDict w) ->
  py_eqb (PDict v) (PDict w) = false ->
  (forall x, In x v -> mem item_eqb x w = true) ->
  (exists x, In x w /\ mem item_eqb x v = false) ->
  is_ok (domain_item_step rt domain_name b acc
           (Some "CodedValues", PDict v)) = false.
Proof.
  intros Hb Hne Hsub (x & Hx & Hnx). destruct acc as [dd adj].
  unfold domain_item_step. cbn [text_eqb String.eqb negb].
  replace (text_eqb (Some "CodedValues") (Some "CodedValues")) with true
    by (symmetry; apply text_eqb_eq; reflexivity).
  cbn [negb]. rewrite Hb. cbn [bind]. rewrite Hne. cbn [negb].
  unfold items_difference. cbn [items bind].
  rewrite (@set_difference_nil _ rt item_eqb v w Hsub).
  pose proof (@set_difference_not_nil _ rt item_eqb w v x Hx Hnx) as Hd.
  apply dict_of_pairs_not_nil in Hd.
  destruct (dict_of_pairs (set_difference rt item_eqb w v)) as [|y d] eqn:E;
    [contradiction|].
  cbn [truthy List.length Nat.eqb negb bind].
  replace (py_eqb (PDict (y :: d)) (PStr EmptyString)) with false
    by reflexivity.
  replace (py_eqb (PStr EmptyString) (PStr EmptyString)) with true
    by reflexivity.
  cbn [negb andb].
  destruct (swap_key_value (PDict (y :: d))); reflexivity.
Qed.

(** When a domain of test has coded values that differ from those of the
    base domain of the same name, all of them coded values of base, and
    base has one more, [compare_domains] does not return: it takes the
    branch that calls [swap_key_value] on the empty string. *)
Theorem coded_values_missing_from_test_stop_the_differ
  (rt : runtime) (B T : list pyval) (t b : pyval)
  (v w : list (text * pyval)) :
  Forall (fun x => wf x = true) B ->
  Forall (fun x => wf x = true) T ->
  Forall (named "DomainName") B ->
  Forall (named "DomainName") T ->
  In t (changed "DomainName" B T) ->
  base_entry "DomainName" B (value_of "DomainName" t) = Ok b ->
  In (Some "CodedValues", PDict v) (items_of t) ->
  getitem b (Some "CodedValues") = Ok (PDict w) ->
  py_eqb (PDict v) (PDict w) = false ->
  (forall x, In x v -> mem item_eqb x w = true) ->
  (exists x, In x w /\ mem item_eqb x v = false) ->
  is_ok (compare_domain_lists rt B T) = false.
Proof.
  intros HwB HwT HB HT Ht Hb Hcv Hw Hne Hsub Hmore.
  destruct (@in_changed "DomainName" B T t Ht) as (HtT & HtB & _).
  unfold compare_domain_lists.
  rewrite (@not_in_base_differs B T t HwB HwT HtT HtB).
  rewrite (@split_by_name_spec "DomainName" B T HB HT HwT). cbn [bind].
  apply is_ok_bind_false.
  apply (@foldM_fails _ _ (domain_step rt B) (changed "DomainName" B T) t
           Ht).
  intros acc. unfold domain_step.
  rewrite Forall_forall in HT. pose proof (HT t HtT) as Hn.
  rewrite (@named_getitem "DomainName" t Hn). cbn [bind].
  rewrite Hb. cbn [bind].
  rewrite (@named_items "DomainName" t Hn). cbn [bind].
  apply (@foldM_fails _ _ (domain_item_step rt (value_of "DomainName" t) b)
           (items_of t) (Some "CodedValues", PDict v) Hcv).
  intros s.
  exact (@coded_values_step_fails rt (value_of "DomainName" t) b s v w
           Hw Hne Hsub Hmore).
Qed.

Definition status_record (coded_values : list (string * string)) : pyval :=
  PDict [(Some "DomainName", PStr "Status");
         (Some "FieldType", PStr "esriFieldTypeSmallInteger");
         (Some "CodedValues",
          PDict (map (fun nc => (Some (fst nc), PStr (snd nc)))
                   coded_values))].

Lemma coded_values_missing_from_test_stop_the_differ_witness :
  let base := [status_record [("Active", "1"); ("Inactive", "2")]] in
  let test := [status_record [("Active", "1")]] in
  compare_domain_lists insertion_order base test = Raise AttributeError
  /\ is_ok (compare_domain_lists insertion_order base test) = false.
Proof.
  intros base test. split; [vm_compute; reflexivity|].
  apply (@coded_values_missing_from_test_stop_the_differ insertion_order
           base test (status_record [("Active", "1")])
           (status_record [("Active", "1"); ("Inactive", "2")])
           [(Some "Active", PStr "1")]
           [(Some "Active", PStr "1"); (Some "Inactive", PStr "2")]).
  - repeat constructor.
  - repeat constructor.
  - repeat constructor. eexists; eexists; split; reflexivity.
  - repeat constructor. eexists; eexists; split; reflexivity.
  - left. reflexivity.
  - reflexivity.
  - right. right. left. reflexivity.
  - reflexivity.
  - reflexivity.
  - intros x [<- | []]. reflexivity.
  - exists (Some "Inactive", PStr "2"). split; [right; left|]; reflexivity.
Defined.

(** ** Two additional subtypes *)

Lemma bindS_fails {A C} (m : stM A) (k : A -> stM C) (s : store) :
  is_ok (m s) = false -> is_ok (bindS m k s) = false.
Proof.
  unfold bindS. destruct (m s) as [[a s']|e]; [discriminate | reflexivity].
Qed.

Lemma keyed_names_ok (key : string) (F : list pyval) :
  Forall (keyed key) F -> mapM (itemgetter key) F = Ok (names_of key F).
Proof.
  intros H. apply mapM_ok. intros x Hx. rewrite Forall_forall in H.
  unfold itemgetter. now apply keyed_getitem, H.
Qed.

Lemma keyed_not_named_ok (key : string) (F G : list pyval) :
  Forall (keyed key) G ->
  filterM (name_not_in key (names_of key F)) G
  = Ok (filter (not_named_in key F) G).
Proof.
  intros H. apply filterM_ok. intros x Hx. rewrite Forall_forall in H.
  unfold name_not_in. rewrite (keyed_getitem (H x Hx)). reflexivity.
Qed.

(** The [Subtypes] branch for a dataset that has no entry yet and two
    subtypes that base lacks: the first is stored as a bare tuple, and
    the second is appended to that tuple. *)
Lemma subtypes_branch_fails (i : nat) (ds_name ds_base : pyval) (k : text)
  (Sb St : list pyval) (d : list (text * pyval)) (s : store)
  (a1 a2 : pyval) (rest : list pyval) :
  getitem ds_base (Some "Subtypes") = Ok (PList Sb) ->
  Forall (keyed "SubtypeName") Sb ->
  Forall (keyed "SubtypeName") St ->
  as_key ds_name = Ok k ->
  lookup k d = None ->
  filter (not_named_in "SubtypeName" Sb) St = a1 :: a2 :: rest ->
  is_ok (subtypes_branch i ds_name ds_base (PList St) d s) = false.
Proof.
  intros Hb HSb HSt Hk Hd Hadd. unfold subtypes_branch.
  rewrite (bindS_lift_ok _ _ Hb).
  rewrite (bindS_lift_ok (a := St)) by reflexivity.
  rewrite (bindS_lift_ok _ _ (keyed_names_ok HSt)).
  rewrite (bindS_lift_ok (a := Sb)) by reflexivity.
  rewrite (bindS_lift_ok _ _ (keyed_names_ok HSb)).
  rewrite (bindS_lift_ok _ _ (keyed_not_named_ok St HSb)).
  rewrite (bindS_lift_ok _ _ (keyed_not_named_ok Sb HSt)).
  rewrite Hadd. apply bindS_fails.
  assert (K : keyed "SubtypeName" a1 /\ keyed "SubtypeName" a2).
  { rewrite Forall_forall in HSt.
    split; apply HSt;
      apply (proj1 (filter_In (not_named_in "SubtypeName" Sb) _ St));
      rewrite Hadd; simpl; auto. }
  destruct K as [K1 K2].
  cbn [foldS]. unfold bindS.
  destruct (test_remove i (Some "Subtypes") a1 s) as [[[] s1]|e];
    [|reflexivity].
  rewrite (keyed_getitem K1). cbn [bind lift].
  unfold append_or_store at 1. rewrite Hk. cbn [bind]. rewrite Hd.
  cbn [lift].
  destruct (test_remove i (Some "Subtypes") a2 s1) as [[[] s2]|e];
    [|reflexivity].
  rewrite (keyed_getitem K2). cbn [bind lift].
  unfold append_or_store at 1. rewrite Hk. cbn [bind].
  rewrite lookup_assign_same. reflexivity.
Qed.

(** The [Fields] branch on the same fields on both sides reports nothing
    and leaves the store alone. *)
Lemma fields_branch_same (i : nat) (ds_name ds_base : pyval) (k : text)
  (Fb : list pyval) (d dsd : list (text * pyval)) (s : store) :
  getitem ds_base (Some "Fields") = Ok (PList Fb) ->
  Forall (named "Name") Fb ->
  NoDup (names_of "Name" Fb) ->
  Forall (fun x => wf x = true) Fb ->
  as_key ds_name = Ok k ->
  appendable d k ->
  nth_error (ds_list_test s) i = Some (PDict dsd) ->
  lookup (Some "Fields") dsd = Some (PList Fb) ->
  fields_branch i ds_name ds_base (PList Fb) d s = Ok (d, s).
Proof.
  intros Hb HFb Hnd Hwf Hk Ha Hn Hl.
  rewrite (@fields_branch_spec i ds_name ds_base k Fb Fb d dsd s
             Hb HFb HFb Hwf Hk Ha Hn Hl).
  pose proof HFb as HF. rewrite Forall_forall in HF.
  assert (Hown : forall f, In f Fb -> not_named_in "Name" Fb f = false).
  { intros f Hf. apply named_in_own_list; [now apply HF|].
    unfold names_of. now apply in_map. }
  assert (Hnone : filter (not_named_in "Name" Fb) Fb = [])
    by now apply filter_nil_of.
  assert (Hcommon : common_fields Fb Fb = Fb).
  { unfold common_fields. apply filter_all_of. intros f Hf.
    now rewrite Hown. }
  assert (Hdiffs : common_diffs Fb Fb = []).
  { unfold common_diffs. rewrite Hcommon. apply flat_map_nil.
    intros f Hf.
    rewrite (@field_diffs_of_twin Fb f f HFb Hnd Hf eq_refl).
    destruct (HF f Hf) as (dd & n & -> & _). cbn [items_of].
    apply field_compared_with_itself.
    rewrite Forall_forall in Hwf. now apply Hwf. }
  unfold fields_report. rewrite Hnone, Hdiffs, Hcommon.
  cbn [map app extend].
  rewrite (assign_same_value _ _ Hl).
  now rewrite (store_with_same _ _ Hn).
Qed.

(** A property other than [Subtypes], equal on both sides, reports
    nothing and leaves the store alone. *)
Lemma dataset_item_step_unchanged (name : string) (i : nat)
  (ds_name : pyval) (k : text) (rbd : list (text * pyval)) (dsn : string)
  (Fb X : list pyval) (d : list (text * pyval)) (key : text) (s : store) :
  dataset_shape rbd dsn Fb ->
  NoDup (names_of "Name" Fb) ->
  as_key ds_name = Ok k ->
  appendable d k ->
  nth_error (ds_list_test s) i
  = Some (PDict (assign (Some "Subtypes") (PList X) rbd)) ->
  In key (keys rbd) ->
  key <> Some "Subtypes" ->
  dataset_item_step name i ds_name (PDict rbd) d key s = Ok (d, s).
Proof.
  intros Sh Hnd Hk Ha Hn Hin Hkey. unfold dataset_item_step.
  erewrite bindS_ok; [ | unfold deref; rewrite Hn; reflexivity].
  assert (Hv : exists v, lookup key rbd = Some v).
  { destruct (lookup key rbd) as [v|] eqn:E; [eauto|].
    apply lookup_none_keys in E.
    assert (existsb (text_eqb key) (keys rbd) = true).
    { apply existsb_exists. exists key. split; auto using text_eqb_refl. }
    congruence. }
  destruct Hv as [v Hv].
  assert (Hw : wf v = true) by (eapply wf_lookup; eauto using shape_wf).
  assert (Hvt : lookup key (assign (Some "Subtypes") (PList X) rbd)
                = Some v).
  { rewrite lookup_assign_other, Hv; [reflexivity|].
    now apply text_eqb_neq. }
  erewrite bindS_lift_ok; [ | simpl; rewrite Hvt; reflexivity].
  destruct (text_eqb key (Some "SubtypeInfo")) eqn:E1.
  { apply text_eqb_eq in E1. subst key.
    destruct (shape_subtype_info Sh Hv) as ([xk xv] & rest & ->).
    apply lift_ok. unfold subtype_info_branch. simpl. rewrite Hv.
    cbn [bind first_key first_value items first fst snd].
    rewrite of_text_eqb_refl.
    assert (py_eqb xv xv = true) as ->.
    { apply py_eqb_refl. eapply wf_item; [exact Hw | now left]. }
    reflexivity. }
  destruct (text_eqb key (Some "Subtypes")) eqn:E2.
  { apply text_eqb_eq in E2. contradiction. }
  destruct (text_eqb key (Some "Fields")) eqn:E3.
  { apply text_eqb_eq in E3. subst key.
    pose proof (shape_fields Sh) as Hf. rewrite Hf in Hv.
    injection Hv as <-.
    eapply fields_branch_same; eauto.
    - simpl. now rewrite Hf.
    - apply (shape_field_names Sh).
    - now apply wf_list_Forall. }
  apply lift_ok. unfold property_branch. simpl. rewrite Hv. cbn [bind].
  now rewrite (py_eqb_refl _ Hw).
Qed.

(** An entry that carries a name no entry of [F] has equals none of
    them. *)
Lemma not_named_not_equal (key : string) (F : list pyval) (a : pyval) :
  keyed key a -> not_named_in key F a = true -> py_in a F = false.
Proof.
  intros (d & n & -> & Hl) Hn.
  unfold not_named_in in Hn. apply negb_true_iff in Hn.
  destruct (py_in (PDict d) F) eqn:E; [|reflexivity]. exfalso.
  unfold py_in in E. apply existsb_exists in E as (x & Hx & Ex).
  destruct (py_eqb_dict_lookup d x (Some key) Ex Hl)
    as (e & w & -> & He & Hw).
  assert (py_in (value_of key (PDict d)) (names_of key F) = true).
  { unfold py_in. apply existsb_exists. exists (value_of key (PDict e)).
    split; [unfold names_of; now apply in_map|].
    unfold value_of. cbn [items_of]. now rewrite Hl, He. }
  congruence.
Qed.

(** A test feature class or table that has the properties of the base
    entity of its name but for its [Subtypes], and two subtypes whose
    names base lacks, stops [compare_datasets]: nothing was reported for
    the entity so far, the first additional subtype is stored as a bare
    tuple, and the second is appended to it. *)
Theorem two_additional_subtypes_stop_the_differ (name dsn : string)
  (rbd : list (text * pyval)) (Fb Sb St : list pyval)
  (a1 a2 : pyval) (rest : list pyval) :
  dataset_shape rbd dsn Fb ->
  NoDup (names_of "Name" Fb) ->
  lookup (Some "Subtypes") rbd = Some (PList Sb) ->
  Forall (keyed "SubtypeName") St ->
  Forall (fun x => wf x = true) St ->
  filter (not_named_in "SubtypeName" Sb) St = a1 :: a2 :: rest ->
  is_ok (compare_dataset_lists name
           {| ds_list_base := [PDict rbd];
              ds_list_test :=
                [PDict (assign (Some "Subtypes") (PList St) rbd)] |})
  = false.
Proof.
  intros Sh Hnd Hsub HSt Hwf Hadd.
  pose proof (shape_name Sh) as Hname.
  destruct (shape_subtypes Sh Hsub) as (S0 & ES & HSb).
  injection ES as <-.
  set (rtd := assign (Some "Subtypes") (PList St) rbd).
  assert (Hname_t : lookup (Some "Name") rtd = Some (PStr dsn)).
  { unfold rtd. rewrite lookup_assign_other; auto. }
  assert (Hsub_t : lookup (Some "Subtypes") rtd = Some (PList St))
    by apply lookup_assign_same.
  assert (HwSb : Forall (fun x => wf x = true) Sb).
  { apply wf_list_Forall. eapply wf_lookup; [apply (shape_wf Sh)|].
    exact Hsub. }
  assert (Ha1 : In a1 St /\ not_named_in "SubtypeName" Sb a1 = true).
  { apply filter_In. rewrite Hadd. now left. }
  destruct Ha1 as [Hin1 Hnot1].
  assert (Hbt : py_eqb (PList Sb) (PList St) = false).
  { apply (@not_in_base_differs Sb St a1 HwSb Hwf Hin1).
    apply (@not_named_not_equal "SubtypeName" Sb a1); [|exact Hnot1].
    rewrite Forall_forall in HSt. now apply HSt. }
  assert (Htb : py_eqb (PList St) (PList Sb) = false).
  { destruct (py_eqb (PList St) (PList Sb)) eqn:E; [|reflexivity].
    apply py_eqb_sym in E.
    - congruence.
    - simpl. apply forallb_forall. now apply Forall_forall.
    - simpl. apply forallb_forall. now apply Forall_forall. }
  assert (Nbt : py_eqb (PDict rbd) (PDict rtd) = false)
    by exact (@dict_eqb_false rbd rtd (Some "Subtypes") _ _ Hsub Hsub_t
                Hbt).
  assert (Ntb : py_eqb (PDict rtd) (PDict rbd) = false)
    by exact (@dict_eqb_false rtd rbd (Some "Subtypes") _ _ Hsub_t Hsub
                Htb).
  unfold compare_dataset_lists.
  unfold bindS at 1, get_base. cbn [ds_list_base].
  unfold bindS at 1, get_test. cbn [ds_list_test].
  rewrite py_eqb_list. cbn [seq_eqb]. rewrite Nbt. cbn [andb].
  erewrite bindS_lift_ok.
  2:{ unfold mapM, itemgetter. cbn [foldM getitem]. rewrite Hname_t.
      reflexivity. }
  erewrite bindS_lift_ok.
  2:{ unfold mapM, itemgetter. cbn [foldM getitem]. rewrite Hname.
      reflexivity. }
  erewrite bindS_lift_ok.
  2:{ unfold filterM, name_not_in. cbn [foldM getitem]. rewrite Hname.
      cbn [bind app py_in existsb]. rewrite py_eqb_refl by reflexivity.
      reflexivity. }
  erewrite bindS_lift_ok.
  2:{ unfold filterM, name_not_in. cbn [foldM getitem]. rewrite Hname_t.
      cbn [bind app py_in existsb]. rewrite py_eqb_refl by reflexivity.
      reflexivity. }
  cbn [indices List.length seq filter nth py_in existsb orb negb].
  rewrite Ntb. cbn [orb negb foldM].
  erewrite bindS_lift_ok by reflexivity.
  apply bindS_fails. cbn [foldS]. apply bindS_fails.
  unfold dataset_step.
  erewrite bindS_ok; [ | reflexivity].
  erewrite bindS_lift_ok; [ | simpl; rewrite Hname_t; reflexivity].
  unfold bindS at 1, get_base. cbn [ds_list_base].
  erewrite bindS_lift_ok.
  2:{ unfold filterM. cbn [foldM getitem]. rewrite Hname.
      cbn [bind]. rewrite py_eqb_refl by reflexivity. reflexivity. }
  erewrite bindS_lift_ok by reflexivity.
  erewrite bindS_lift_ok by reflexivity.
  assert (Hkeys : keys rtd = keys rbd).
  { unfold rtd. apply keys_assign_present. congruence. }
  rewrite Hkeys.
  destruct (@distinct_split (Some "Subtypes") (keys rbd))
    as (ks1 & ks2 & Hks & H1 & H2).
  { apply wf_distinct, (shape_wf Sh). }
  { eapply lookup_In_keys; eauto. }
  rewrite Hks, foldS_app.
  erewrite bindS_ok.
  2:{ apply foldS_idle. intros key Hk.
      apply (@dataset_item_step_unchanged name 0 (PStr dsn) (Some dsn)
               rbd dsn Fb St [] key
               {| ds_list_base := [PDict rbd]; ds_list_test := [PDict rtd] |}
               Sh Hnd eq_refl I eq_refl).
      - rewrite Hks. apply in_or_app. now left.
      - intros ->. contradiction. }
  cbn [foldS]. apply bindS_fails. unfold dataset_item_step.
  erewrite bindS_ok; [ | reflexivity].
  erewrite bindS_lift_ok; [ | simpl; rewrite Hsub_t; reflexivity].
  cbn [text_eqb String.eqb Ascii.eqb Bool.eqb].
  eapply subtypes_branch_fails with (k := Some dsn) (Sb := Sb); eauto.
  simpl. now rewrite Hsub.
Qed.

(** A subtype record as the parser builds it. *)
Definition subtype_rec (subtype_name code : string) : pyval :=
  PDict [(Some "SubtypeName", PStr subtype_name);
         (Some "SubtypeCode", PStr code)].

Lemma two_additional_subtypes_stop_the_differ_witness :
  let base := roads_rec [PDict speed_rec] in
  let subtypes := [subtype_rec "Urban" "1"; subtype_rec "Rural" "2"] in
  let s := {| ds_list_base := [PDict base];
              ds_list_test :=
                [PDict (assign (Some "Subtypes") (PList subtypes) base)] |} in
  compare_dataset_lists "Feature Class" s = Raise AttributeError
  /\ is_ok (compare_dataset_lists "Feature Class" s) = false.
Proof.
  intros base subtypes s. split; [vm_compute; reflexivity|].
  apply (@two_additional_subtypes_stop_the_differ "Feature Class" "Roads"
           base [PDict speed_rec] [] subtypes
           (subtype_rec "Urban" "1") (subtype_rec "Rural" "2") []).
  - apply roads_shape; [solve_named | reflexivity].
  - repeat constructor. intros [].
  - reflexivity.
  - repeat constructor; do 2 eexists; split; reflexivity.
  - repeat constructor.
  - reflexivity.
Defined.
